(** * openmetadata_python_sync: docstring lineage tags and catalog requests

    A shallow embedding of [openmetadata_linker.py] and [om_client.py]:
    the docstring tag parser, the function extractor, the offline/online
    catalog helper and the driver, followed by the properties established
    about them.

    Conventions of the embedding.
    - A Python [str] is a [string]; a character is a code point in 0..255.
    - [Optional[T]] is [option T]; a raised exception is an explicit
      constructor of the result type.
    - A [dict] used as a configuration map is a [gmap]; the [dict] used
      for deduplication, whose iteration order matters, is an insertion
      ordered association list.
    - Mutable objects (the helper and its request log) are threaded
      explicitly as state. *)

From Stdlib Require Import Ascii NArith Bool Permutation.
From stdpp Require Import base option list strings gmap.
From Equations Require Import Equations.

(** ** Python [str] primitives *)

Module PyStr.

Definition ord (c : ascii) : N := N_of_ascii c.

(** [str.isspace] on one character, restricted to code points below 256. *)
Definition isspace (c : ascii) : bool :=
  let n := ord c in
  ((9 <=? n) && (n <=? 13) || (28 <=? n) && (n <=? 32)
   || (n =? 133) || (n =? 160))%N.

(** Line boundaries recognised by [str.splitlines]. *)
Definition is_linebreak (c : ascii) : bool :=
  let n := ord c in
  ((10 <=? n) && (n <=? 13) || (28 <=? n) && (n <=? 30) || (n =? 133))%N.

Definition lower_char (c : ascii) : ascii :=
  let n := ord c in
  if ((65 <=? n) && (n <=? 90)
      || (192 <=? n) && (n <=? 222) && negb (n =? 215))%N
  then ascii_of_N (n + 32) else c.

Fixpoint lower (s : string) : string :=
  match s with
  | EmptyString => EmptyString
  | String c s' => String (lower_char c) (lower s')
  end.

Fixpoint lstrip (s : string) : string :=
  match s with
  | EmptyString => EmptyString
  | String c s' => if isspace c then lstrip s' else s
  end.

Fixpoint rstrip (s : string) : string :=
  match s with
  | EmptyString => EmptyString
  | String c s' =>
      match rstrip s' with
      | EmptyString => if isspace c then EmptyString else String c EmptyString
      | r => String c r
      end
  end.

Definition strip (s : string) : string := rstrip (lstrip s).

(** Truthiness of a [str]: non-empty. *)
Definition truthy (s : string) : bool :=
  match s with EmptyString => false | _ => true end.

Fixpoint startswith (p s : string) : bool :=
  match p, s with
  | EmptyString, _ => true
  | String a p', String b s' => if ascii_dec a b then startswith p' s' else false
  | String _ _, EmptyString => false
  end.

(** [s.find(c)] for a one-character needle; [None] stands for [-1]. *)
Fixpoint find (c : ascii) (s : string) : option nat :=
  match s with
  | EmptyString => None
  | String a s' => if ascii_dec a c then Some 0 else S <$> find c s'
  end.

(** Slices [s[:n]] and [s[n:]]. *)
Fixpoint take (n : nat) (s : string) : string :=
  match n, s with
  | S n', String c s' => String c (take n' s')
  | _, _ => EmptyString
  end.

Fixpoint drop (n : nat) (s : string) : string :=
  match n, s with
  | S n', String _ s' => drop n' s'
  | _, _ => s
  end.

(** [s.split(c)]: every occurrence of the separator cuts; the result
    always has at least one part. *)
Fixpoint split (c : ascii) (s : string) : list string :=
  match s with
  | EmptyString => [EmptyString]
  | String a s' =>
      if ascii_dec a c then EmptyString :: split c s'
      else match split c s' with
           | h :: t => String a h :: t
           | [] => [String a EmptyString]
           end
  end.

(** [s.split(c, 1)]: at most one cut. *)
Definition split1 (c : ascii) (s : string) : list string :=
  match find c s with
  | None => [s]
  | Some i => [take i s; drop (S i) s]
  end.

(** [s.rfind(c)] for a one-character needle. *)
Fixpoint rfind (c : ascii) (s : string) : option nat :=
  match s with
  | EmptyString => None
  | String a s' =>
      match rfind c s' with
      | Some i => Some (S i)
      | None => if ascii_dec a c then Some 0 else None
      end
  end.

(** [s.rsplit(c, 1)]: at most one cut, at the last separator. *)
Definition rsplit1 (c : ascii) (s : string) : list string :=
  match rfind c s with
  | None => [s]
  | Some i => [take i s; drop (S i) s]
  end.

(** [s.replace(a, b)] for one-character [a] and [b]. *)
Fixpoint replace (a b : ascii) (s : string) : string :=
  match s with
  | EmptyString => EmptyString
  | String c s' => String (if ascii_dec c a then b else c) (replace a b s')
  end.

(** [s.splitlines()]: [cur] accumulates the current line in reverse,
    [after_cr] records that the previous character was a carriage
    return, so that a following line feed belongs to the same break. *)
Fixpoint splitlines_from (cur : string) (after_cr : bool) (s : string)
  : list string :=
  match s with
  | EmptyString =>
      match cur with EmptyString => [] | _ => [String.rev cur] end
  | String c s' =>
      if after_cr && (ord c =? 10)%N then splitlines_from cur false s'
      else if is_linebreak c
           then String.rev cur :: splitlines_from EmptyString (ord c =? 13)%N s'
           else splitlines_from (String c cur) false s'
  end.

Definition splitlines (s : string) : list string :=
  splitlines_from EmptyString false s.

End PyStr.

(** ** The fragment of Python's [re] used by the linker

    A backtracking matcher in continuation-passing style: alternatives
    are tried left to right, repetition is greedy, and a group records
    the text of its last successful match.  [pos] is the offset of the
    remaining subject [s] in the whole subject. *)

Module Re.

Inductive regex : Type :=
| Chr (p : ascii → bool)
| Eps
| Seq (r1 r2 : regex)
| Alt (r1 r2 : regex)
| Star (r : regex)
| Group (n : nat) (r : regex)
| Bol
| Eol.

Definition groups := list (nat * string).

Fixpoint group (n : nat) (g : groups) : option string :=
  match g with
  | [] => None
  | (m, s) :: g' => if Nat.eqb m n then Some s else group n g'
  end.

Fixpoint run {A : Type} (r : regex) (pos : nat) (s : string) (g : groups)
    (k : nat → string → groups → option A) : option A :=
  match r with
  | Chr p =>
      match s with
      | String c s' => if p c then k (S pos) s' g else None
      | EmptyString => None
      end
  | Eps => k pos s g
  | Seq r1 r2 => run r1 pos s g (λ pos' s' g', run r2 pos' s' g' k)
  | Alt r1 r2 =>
      match run r1 pos s g k with
      | Some a => Some a
      | None => run r2 pos s g k
      end
  | Star r1 =>
      (fix star (fuel : nat) (pos : nat) (s : string) (g : groups)
         : option A :=
         match fuel with
         | O => k pos s g
         | S fuel' =>
             match run r1 pos s g
                     (λ pos' s' g',
                        if Nat.ltb pos pos' then star fuel' pos' s' g'
                        else None) with
             | Some a => Some a
             | None => k pos s g
             end
         end) (S (String.length s)) pos s g
  | Group n r1 =>
      run r1 pos s g
        (λ pos' s' g', k pos' s' ((n, PyStr.take (pos' - pos) s) :: g'))
  | Bol => if Nat.eqb pos 0 then k pos s g else None
  | Eol =>
      match s with
      | EmptyString => k pos s g
      | String c EmptyString =>
          if (PyStr.ord c =? 10)%N then k pos s g else None
      | _ => None
      end
  end.

(** Pattern constructors.  [lit_i] is a literal under [re.IGNORECASE]
    within code points below 256, where two characters match when their
    lower cases agree. *)
Definition lit (c : ascii) : regex := Chr (λ x, bool_decide (x = c)).
Definition lit_i (c : ascii) : regex :=
  Chr (λ x, bool_decide (PyStr.lower_char x = PyStr.lower_char c)).
Definition one_of (cs : string) : regex :=
  Chr (λ x, bool_decide (PyStr.find x cs ≠ None)).
Definition none_of (cs : string) : regex :=
  Chr (λ x, bool_decide (PyStr.find x cs = None)).
Definition dot : regex := Chr (λ x, negb (PyStr.ord x =? 10)%N).
Definition space : regex := Chr PyStr.isspace.
Definition plus (r : regex) : regex := Seq r (Star r).
Definition opt (r : regex) : regex := Alt r Eps.
Definition at_least3 (r : regex) : regex := Seq r (Seq r (Seq r (Star r))).

Fixpoint seqs (rs : list regex) : regex :=
  match rs with
  | [] => Eps
  | [r] => r
  | r :: rs' => Seq r (seqs rs')
  end.

Fixpoint word (s : string) : regex :=
  match s with
  | EmptyString => Eps
  | String c EmptyString => lit c
  | String c s' => Seq (lit c) (word s')
  end.

(** A literal word under [re.IGNORECASE]. *)
Fixpoint word_i (s : string) : regex :=
  match s with
  | EmptyString => Eps
  | String c EmptyString => lit_i c
  | String c s' => Seq (lit_i c) (word_i s')
  end.

(** [re.match(r, s)] / [r.match(s)]: the groups and the length of the
    match anchored at the start of [s]. *)
Definition match_at (r : regex) (pos : nat) (s : string)
  : option (groups * nat) :=
  run r pos s [] (λ pos' _ g, Some (g, pos' - pos)).

Definition rematch (r : regex) (s : string) : option groups :=
  fst <$> match_at r 0 s.

(** [r.finditer(s)]: leftmost matches, scanning resumes at the end of
    the previous match (one character further after an empty match).
    [skip] counts the characters still covered by the last match. *)
Fixpoint finditer_from (r : regex) (pos skip : nat) (s : string)
  : list groups :=
  match skip with
  | S skip' =>
      match s with
      | EmptyString => []
      | String _ s' => finditer_from r (S pos) skip' s'
      end
  | O =>
      match match_at r pos s with
      | Some (g, len) =>
          g :: match s with
               | EmptyString => []
               | String _ s' => finditer_from r (S pos) (len - 1) s'
               end
      | None =>
          match s with
          | EmptyString => []
          | String _ s' => finditer_from r (S pos) 0 s'
          end
      end
  end.

Definition finditer (r : regex) (s : string) : list groups :=
  finditer_from r 0 0 s.

End Re.

(** ** An insertion-ordered [dict]

    Python dictionaries iterate in the order in which keys were first
    inserted; assigning to an existing key replaces the value and keeps
    the key's position. *)

Module PyDict.

Section Dict.
Context {K V : Type} `{EqDecision K}.

Definition dict := list (K * V).

Fixpoint setitem (k : K) (v : V) (d : dict) : dict :=
  match d with
  | [] => [(k, v)]
  | (k', v') :: d' =>
      if decide (k' = k) then (k', v) :: d' else (k', v') :: setitem k v d'
  end.

Definition keys (d : dict) : list K := d.*1.
Definition values (d : dict) : list V := d.*2.
End Dict.

End PyDict.

(** ** [openmetadata_linker.py]: the docstring tag parser *)

Import PyStr.

(** openmetadata:(upstream|downstream)\(([^:()]+):([^)]+)\) *)
Definition TAG_PATTERN : Re.regex :=
  Re.seqs [ Re.word "openmetadata:";
            Re.Group 1 (Re.Alt (Re.word "upstream") (Re.word "downstream"));
            Re.lit "("%char;
            Re.Group 2 (Re.plus (Re.none_of ":()"));
            Re.lit ":"%char;
            Re.Group 3 (Re.plus (Re.none_of ")"));
            Re.lit ")"%char ].

(** ^[=~`^#*\-]{3,}\s*$ *)
Definition SECTION_UNDERLINE : Re.regex :=
  Re.seqs [ Re.Bol; Re.at_least3 (Re.one_of "=~`^#*-");
            Re.Star Re.space; Re.Eol ].

(** The pattern of a directive line in a section, under [re.IGNORECASE],
    shown with a blank after each star:
    ^(?:-\s* )?(upstream|downstream)\s* :\s* (.+)$ *)
Definition DIRECTIVE_LINE : Re.regex :=
  Re.seqs [ Re.Bol; Re.opt (Re.Seq (Re.lit "-"%char) (Re.Star Re.space));
            Re.Group 1 (Re.Alt (Re.word_i "upstream") (Re.word_i "downstream"));
            Re.Star Re.space; Re.lit ":"%char; Re.Star Re.space;
            Re.Group 2 (Re.plus Re.dot); Re.Eol ].

(** The pattern of a field-list line, under [re.IGNORECASE], shown with
    a blank after each star:
    ^:openmetadata-(upstream|downstream):\s* (.+)$ *)
Definition FIELD_LIST_LINE : Re.regex :=
  Re.seqs [ Re.Bol; Re.word_i ":openmetadata-";
            Re.Group 1 (Re.Alt (Re.word_i "upstream") (Re.word_i "downstream"));
            Re.lit_i ":"%char; Re.Star Re.space;
            Re.Group 2 (Re.plus Re.dot); Re.Eol ].

Record MetadataRef : Type := mkMetadataRef {
  direction : string;   (* 'upstream' or 'downstream' *)
  application : string;
  field : string;
}.

#[global] Instance MetadataRef_eq_dec : EqDecision MetadataRef.
Proof. solve_decision. Defined.

Definition _split_app_field (text : string) : option (string * string) :=
  let text := strip text in
  if negb (truthy text) then None
  else match find ":"%char text with
       | None => None
       | Some idx => Some (strip (take idx text), strip (drop (S idx) text))
       end.

Definition is_underline (line : string) : bool :=
  bool_decide (is_Some (Re.rematch SECTION_UNDERLINE line)).

Definition is_title (line : string) : bool :=
  bool_decide (lower (strip line) = "openmetadata").

(** The [while j < n] loop of pattern A, run on [lines[j:]]. *)
Fixpoint section_body (ls : list string) : list string :=
  match ls with
  | [] => []
  | l :: rest =>
      match rest with
      | next :: _ =>
          if truthy (strip l) && is_underline next then []
          else l :: section_body rest
      | [] => l :: section_body rest
      end
  end.

(** Pattern A: the [for i in range(n - 1)] loop, run on [lines[i:]]. *)
Fixpoint rest_section (ls : list string) : option (list string) :=
  match ls with
  | l :: rest =>
      match rest with
      | u :: body =>
          if is_title l && is_underline u then Some (section_body body)
          else rest_section rest
      | [] => None
      end
  | [] => None
  end.

Definition is_label (line : string) : bool :=
  startswith "openmetadata:" (lower (strip line)).

(** The [while j < n and lines[j].strip()] loop of pattern B. *)
Fixpoint label_block (ls : list string) : list string :=
  match ls with
  | l :: rest => if truthy (strip l) then l :: label_block rest else []
  | [] => []
  end.

(** Pattern B: the [for i in range(n)] loop, run on [lines[i:]].  The
    index [1] of [split(":", 1)] always exists on a label line. *)
Fixpoint label_section (ls : list string) : option (list string) :=
  match ls with
  | l :: rest =>
      if is_label l then
        match split1 ":"%char l !! 1 with
        | Some after =>
            Some ((if truthy (strip after) then [after] else [])
                    ++ label_block rest)
        | None => Some []
        end
      else label_section rest
  | [] => None
  end.

Definition _extract_openmetadata_section_lines (docstring : string)
  : list string :=
  let lines := splitlines docstring in
  match rest_section lines with
  | Some content => content
  | None =>
      match label_section lines with
      | Some content => content
      | None => []
      end
  end.

(** [for part in rest.split(','): ...] *)
Definition refs_of_rest (direction rest : string) : list MetadataRef :=
  split ","%char rest ≫= λ part,
    match _split_app_field part with
    | Some (app, fld) => [mkMetadataRef direction app fld]
    | None => []
    end.

Definition refs_of_line (pat : Re.regex) (line : string) : list MetadataRef :=
  match Re.rematch pat line with
  | Some m =>
      match Re.group 1 m, Re.group 2 m with
      | Some d, Some rest => refs_of_rest (lower d) rest
      | _, _ => []
      end
  | None => []
  end.

(** 1) Sphinx/reST section parsing *)
Definition section_refs (docstring : string) : list MetadataRef :=
  _extract_openmetadata_section_lines docstring ≫= λ raw,
    let line := strip raw in
    if negb (truthy line) then [] else refs_of_line DIRECTIVE_LINE line.

(** 2) Sphinx field list style *)
Definition field_list_refs (docstring : string) : list MetadataRef :=
  splitlines docstring ≫= λ raw, refs_of_line FIELD_LIST_LINE (strip raw).

(** 3) Backward-compatible inline tags *)
Definition inline_refs (docstring : string) : list MetadataRef :=
  Re.finditer TAG_PATTERN docstring ≫= λ m,
    match Re.group 1 m, Re.group 2 m, Re.group 3 m with
    | Some d, Some app, Some fld => [mkMetadataRef d (strip app) (strip fld)]
    | _, _, _ => []
    end.

Definition collect_refs (docstring : string) : list MetadataRef :=
  section_refs docstring ++ field_list_refs docstring ++ inline_refs docstring.

Definition key (r : MetadataRef) : string * string * string :=
  (direction r, application r, field r).

(** The [# Deduplicate] loop. *)
Definition deduplicate (refs : list MetadataRef) : list MetadataRef :=
  PyDict.values (foldl (λ unique r, PyDict.setitem (key r) r unique) [] refs).

Definition parse_docstring_for_tags (docstring : option string)
  : list MetadataRef :=
  match docstring with
  | None => []
  | Some doc =>
      if negb (truthy doc) then [] else deduplicate (collect_refs doc)
  end.


(** ** The syntax tree and [ast.walk]

    A node of Python's [ast] is kept as its kind and the list of its child
    nodes in [ast.iter_child_nodes] order.  Only the two kinds of function
    definition carry data here: the name, the line of the [def], and the
    docstring that [ast.get_docstring] returns for the node. *)

Inductive node_kind : Type :=
| FunctionDef (name : string) (lineno : nat) (doc : option string)
| AsyncFunctionDef (name : string) (lineno : nat) (doc : option string)
| OtherNode.

Inductive node : Type :=
| Node (kind : node_kind) (children : list node).

Definition kind_of (n : node) : node_kind := let 'Node k _ := n in k.
Definition iter_child_nodes (n : node) : list node := let 'Node _ cs := n in cs.

Fixpoint node_size (n : node) : nat :=
  let 'Node _ cs := n in
  S ((fix forest (l : list node) : nat :=
        match l with [] => 0 | c :: l' => node_size c + forest l' end) cs).

Fixpoint forest_size (l : list node) : nat :=
  match l with [] => 0 | c :: l' => node_size c + forest_size l' end.

(** [ast.walk]: the [todo] deque is drained from the left, the children of
    the node taken are appended on the right, and the node is yielded. *)
Equations? walk_queue (todo : list node) : list node
  by wf (forest_size todo) lt :=
  walk_queue [] := [];
  walk_queue (n :: todo') := n :: walk_queue (todo' ++ iter_child_nodes n).
Proof.
  destruct n as [k cs]; simpl.
  assert (H : ∀ a b, forest_size (a ++ b) = forest_size a + forest_size b).
  { induction a as [|x a IH]; intros b; simpl; [done | rewrite IH; lia]. }
  rewrite H. change (fix forest (l : list node) : nat :=
        match l with [] => 0 | c :: l' => node_size c + forest l' end)
    with forest_size. lia.
Qed.

Definition walk (tree : node) : list node := walk_queue [tree].

Record FunctionEntry : Type := mkFunctionEntry {
  name : string;
  lineno : nat;
  docstring : option string;
  tags : list MetadataRef;
}.

(** A [Path] is the tuple of its parts, as [PurePosixPath.parts]: the root
    of an absolute path is the part "/". *)
Definition Path : Type := list string.

Record FileEntry : Type := mkFileEntry {
  path : Path;
  functions : list FunctionEntry;
}.

(** The body of the [for node in ast.walk(tree)] loop: an entry is appended
    when [isinstance(node, ast.FunctionDef)] holds. *)
Definition entries_of_node (n : node) : list FunctionEntry :=
  match kind_of n with
  | FunctionDef nm ln doc =>
      [mkFunctionEntry nm ln doc (parse_docstring_for_tags doc)]
  | _ => []
  end.

(** [extract_functions_from_file] once the file has been read and parsed:
    [tree] is the value of [ast.parse(source)]. *)
Definition extract_functions_from_tree (file_path : Path) (tree : node)
  : FileEntry :=
  mkFileEntry file_path (walk tree ≫= entries_of_node).

(** ** [pathlib] on pure POSIX paths *)

Fixpoint join (sep : string) (parts : list string) : string :=
  match parts with
  | [] => ""
  | [p] => p
  | p :: ps => p +:+ sep +:+ join sep ps
  end.

(** [str(path)] *)
Definition path_str (p : Path) : string :=
  match p with
  | [] => "."
  | root :: ps => if bool_decide (root = "/") then "/" +:+ join "/" ps
                  else join "/" p
  end.

(** [path.relative_to(other)]: the parts left after [other]'s, and
    [ValueError] ([None]) when [other]'s parts are not a prefix. *)
Fixpoint relative_to (p other : Path) : option Path :=
  match other, p with
  | [] , _ => Some p
  | o :: other', x :: p' =>
      if bool_decide (x = o) then relative_to p' other' else None
  | _ :: _, [] => None
  end.

(** [path.name]: the final part, empty for the root and the empty path. *)
Definition path_name (p : Path) : string :=
  match last p with
  | Some n => if bool_decide (n = "/") then "" else n
  | None => ""
  end.

(** ** [om_client.py]: data *)

Record EntityRef : Type := mkEntityRef {
  type : string;   (* e.g., 'table', 'dashboard', 'pipeline' *)
  fqn : string;
  id : option string;   (* if resolved from server *)
}.

(** One value of the [applications] mapping of the configuration:
    the keys [type], [fqn] and [columns], each of which may be missing. *)
Record AppConfig : Type := mkAppConfig {
  app_type : option string;
  app_fqn : option string;
  app_columns : option (gmap string string);
}.

(** The [openmetadata] mapping of the configuration. *)
Record ConnectionConfig : Type := mkConnectionConfig {
  hostPort : option string;
  jwtToken : option string;
}.

(** The configuration [dict] as loaded from YAML, restricted to the keys
    that the program reads. *)
Record Config : Type := mkConfig {
  requestsPath : option string;
  pipelineServiceName : option string;
  applications : option (gmap string AppConfig);
  openmetadata : option ConnectionConfig;
}.

(** The empty [dict]. *)
Definition empty_config : Config := mkConfig None None None None.

(** Truthiness of an application entry: a [dict] is falsy when empty. *)
Definition app_truthy (app : AppConfig) : bool :=
  bool_decide (is_Some (app_type app)) || bool_decide (is_Some (app_fqn app))
  || bool_decide (is_Some (app_columns app)).

(** [v if v else None] for the value of [d.get(k)]: a missing key and an
    empty [str] are both falsy. *)
Definition if_truthy (o : option string) : option string :=
  match o with
  | Some s => if truthy s then Some s else None
  | None => None
  end.

(** Truthiness of an optional [str]: present and non-empty. *)
Definition opt_truthy (o : option string) : bool :=
  match o with Some s => truthy s | None => false end.

(** Entries of [_requests["pipelines"]]. *)
Inductive PipelineAction : Type :=
| Ensure (service name file : string)
| EnsureTask (pipeline task file : string) (lineno : nat).

(** Entries of [_requests["lineage"]], with the keys [from], [fromType],
    [to] and [toType]. *)
Record LineageRecord : Type := mkLineageRecord {
  lr_from : option string;
  lr_fromType : option string;
  lr_to : option string;
  lr_toType : option string;
}.

Record Requests : Type := mkRequests {
  services : list string;
  pipelines : list PipelineAction;
  lineage : list LineageRecord;
}.

(** What the catalog answers for an entity: whether it is a [Pipeline],
    its fully qualified name, its id when [str(ent.id.__root__)] does not
    raise, and the names of its tasks. *)
Record Entity : Type := mkEntity {
  is_pipeline : bool;
  fullyQualifiedName : string;
  entity_id : option string;
  task_names : list string;
}.

(** Requests sent through [self._client]. *)
Inductive ClientCall : Type :=
| CreateOrUpdateService (name : string)
| CreateOrUpdatePipeline (name service : string)
| GetByName (entity_type fqn : string)
| UpdateEntity (pipeline_fqn : string) (new_task new_task_fqn : string)
| AddLineage (from_id : option string) (from_type : string)
             (to_id : option string) (to_type : string).

(** ** Effects

    Everything the program does to the outside is appended to a trace.
    The live catalog is an oracle answering from the trace so far. *)

Inductive Event : Type :=
| ReadSource (file : Path)                     (* [file_path.read_text] *)
| Stderr (msg : string)
| Stdout (msg : string)
| ReadConfig (file : string)
| PrintSummary (summary : list (string * list FunctionEntry))
| WriteSummary (output : string) (summary : list (string * list FunctionEntry))
| FlushOffline (requests_path : string) (snapshot : Requests)
| Call (c : ClientCall).

Inductive exn : Type :=
| ValueError
| RuntimeError (msg : string)
| SystemExit (code : nat)
| SyntaxError (msg : string)
| UnicodeDecodeError (msg : string)
| AttributeError
| ImportError
| ValidationError
| ClientError.

Inductive result (A : Type) : Type :=
| Ok (a : A)
| Raise (e : exn).
Arguments Ok {A} a.
Arguments Raise {A} e.

Record State : Type := mkState {
  _requests : Requests;      (* the helper's [self._requests] *)
  trace : list Event;
}.

Record Catalog : Type := mkCatalog {
  (** Whether the package has what the online branches import from it:
      the request classes of [ensure_pipeline_for_file], the classes
      [Pipeline] and [PipelineTask] of [ensure_task_for_function], and the
      lineage classes of [_add_lineage_edge]. *)
  imports_pipeline_requests : bool;
  imports_pipeline : bool;
  imports_pipeline_task : bool;
  imports_lineage_requests : bool;
  (** Whether [EntityReference(id=..., type=...)] is accepted. *)
  accepts_reference : option string → string → bool;
  (** [None]: the call raises. *)
  create_or_update_pipeline : list Event → string → string → option Entity;
  (** [None]: the call raises or finds nothing. *)
  get_by_name : list Event → string → string → option Entity;
  (** [false]: the call raises. *)
  update_entity : list Event → string → bool;
  add_lineage : list Event → ClientCall → bool;
}.

(** Computations that read and extend the state and may raise; the state
    reached when an exception is raised is kept. *)
Definition M (A : Type) : Type := State → result A * State.

Definition ret {A} (a : A) : M A := λ s, (Ok a, s).
Definition raise {A} (e : exn) : M A := λ s, (Raise e, s).
Definition bind {A B} (m : M A) (k : A → M B) : M B :=
  λ s, match m s with
       | (Ok a, s') => k a s'
       | (Raise e, s') => (Raise e, s')
       end.
Definition emit (e : Event) : M unit :=
  λ s, (Ok (), mkState (_requests s) (trace s ++ [e])).
Definition get_trace : M (list Event) := λ s, (Ok (trace s), s).
Definition get_requests : M Requests := λ s, (Ok (_requests s), s).
Definition set_requests (r : Requests) : M unit :=
  λ s, (Ok (), mkState r (trace s)).

Notation "'let*' x ':=' m 'in' k" := (bind m (λ x, k))
  (at level 10, x pattern, m at level 100, k at level 200).
Notation "m ';;' k" := (bind m (λ _, k))
  (at level 100, k at level 200, right associativity).

(** [try: m except: handler] *)
Definition try_except {A} (m : M A) (handler : exn → M A) : M A :=
  λ s, match m s with
       | (Ok a, s') => (Ok a, s')
       | (Raise e, s') => handler e s'
       end.

(** [for x in xs: body(x)] *)
Fixpoint for_each {A} (xs : list A) (body : A → M unit) : M unit :=
  match xs with
  | [] => ret ()
  | x :: xs' => body x ;; for_each xs' body
  end.

(** ** [om_client.py]: [OpenMetadataHelper] *)

Record OpenMetadataHelper : Type := mkOpenMetadataHelper {
  config : Config;
  requests_path : string;
  offline : bool;
  _client : option Catalog;   (* unset until [_init_client] succeeds *)
}.

Definition missing_settings : string :=
  "Missing openmetadata.hostPort or openmetadata.jwtToken in config".

(** [_init_client]: the connection settings are checked and the client is
    built from the imported package (building it is taken to succeed). *)
Definition _init_client (config : Config) (package : Catalog) : M Catalog :=
  let om_cfg := default (mkConnectionConfig None None) (openmetadata config) in
  let host_port := hostPort om_cfg in
  let jwt_token := jwtToken om_cfg in
  if negb (opt_truthy host_port) || negb (opt_truthy jwt_token)
  then raise (RuntimeError missing_settings)
  else ret package.

(** [__init__]: [package] is the [metadata] package when it can be
    imported; the helper stays offline when it cannot.  The requests path
    is kept as configured, without [Path.resolve]. *)
Definition init_helper (package : option Catalog) (config : Config)
  : M OpenMetadataHelper :=
  let path := default "openmetadata_requests.json" (requestsPath config) in
  set_requests (mkRequests [] [] []) ;;
  match package with
  | None => ret (mkOpenMetadataHelper config path true None)
  | Some pkg =>
      let* client := _init_client config pkg in
      ret (mkOpenMetadataHelper config path false (Some client))
  end.

Definition from_config (package : option Catalog) (config : Config)
  : M OpenMetadataHelper :=
  init_helper package config.

Definition _flush_offline (self : OpenMetadataHelper) : M unit :=
  let* snapshot := get_requests in
  emit (FlushOffline (requests_path self) snapshot).

(** The static method [_pipeline_name_for_file]; [cwd] is [Path.cwd()]. *)
Definition _pipeline_name_for_file (cwd : Path) (file_path : Path)
  : result string :=
  match relative_to file_path cwd with
  | None => Raise ValueError
  | Some rel =>
      Ok (replace "/"%char "_"%char (replace "\"%char "_"%char (path_str rel)))
  end.

Definition lift {A} (r : result A) : M A :=
  match r with Ok a => ret a | Raise e => raise e end.

Definition the_client (self : OpenMetadataHelper) : M Catalog :=
  match _client self with
  | Some c => ret c
  | None => raise AttributeError
  end.

(** [from ... import ...] of names that the package has or lacks.  The
    package is the one behind the client, which an online helper always
    holds: [__init__] sets [_client] or raises. *)
Definition import_from (available : bool) : M unit :=
  if available then ret () else raise ImportError.

Definition ensure_pipeline_for_file (cwd : Path) (self : OpenMetadataHelper)
    (file_path : Path) : M EntityRef :=
  let* name := lift (_pipeline_name_for_file cwd file_path) in
  let service := default "code-service" (pipelineServiceName (config self)) in
  let fqn := service +:+ "." +:+ name in
  let ref := mkEntityRef "pipeline" fqn None in
  if offline self then
    let* r := get_requests in
    set_requests (mkRequests (services r)
                    (pipelines r ++ [Ensure service name (path_str file_path)])
                    (lineage r)) ;;
    _flush_offline self ;;
    ret ref
  else
    let* client := the_client self in
    import_from (imports_pipeline_requests client) ;;
    (* Ensure service exists: an exception is swallowed *)
    emit (Call (CreateOrUpdateService service)) ;;
    (* Ensure pipeline *)
    let* history := get_trace in
    emit (Call (CreateOrUpdatePipeline name service)) ;;
    match create_or_update_pipeline client history name service with
    | None => raise ClientError
    | Some pipeline =>
        match entity_id pipeline with
        | None => raise AttributeError
        | Some i =>
            ret (mkEntityRef "pipeline" (fullyQualifiedName pipeline) (Some i))
        end
    end.

(** [_get_entity_by_name]: whatever is raised inside the [try] gives
    [None]. *)
Definition _get_entity_by_name (self : OpenMetadataHelper)
    (entity_type fqn : string) : M (option Entity) :=
  match _client self with
  | None => ret None
  | Some client =>
      let* history := get_trace in
      emit (Call (GetByName entity_type fqn)) ;;
      ret (get_by_name client history entity_type fqn)
  end.

Definition ensure_task_for_function (self : OpenMetadataHelper)
    (pipeline : EntityRef) (file_path : Path) (func_name : string)
    (lineno : nat) : M EntityRef :=
  let task_fqn := fqn pipeline +:+ "." +:+ func_name in
  let ref := mkEntityRef "pipelineTask" task_fqn None in
  if offline self then
    let* r := get_requests in
    set_requests (mkRequests (services r)
                    (pipelines r ++ [EnsureTask (fqn pipeline) func_name
                                       (path_str file_path) lineno])
                    (lineage r)) ;;
    _flush_offline self ;;
    ret ref
  else
    let* client := the_client self in
    import_from (imports_pipeline client) ;;
    let* current := _get_entity_by_name self "pipeline" (fqn pipeline) in
    match current with
    | Some cur =>
        if is_pipeline cur then
          (if bool_decide (func_name ∈ task_names cur) then ret ()
           else
             import_from (imports_pipeline_task client) ;;
             let* history := get_trace in
             emit (Call (UpdateEntity (fqn pipeline) func_name task_fqn)) ;;
             if update_entity client history (fqn pipeline) then ret ()
             else raise ClientError) ;;
          ret (mkEntityRef "pipelineTask" task_fqn None)
        else ret ref
    | None => ret ref
    end.

Definition resolve_application_field (self : OpenMetadataHelper)
    (application field : string) : option EntityRef :=
  let apps := default ∅ (applications (config self)) in
  match apps !! application with
  | None => None
  | Some app =>
      if negb (app_truthy app) then None
      else
        (* Column-level mapping if available *)
        let columns := default ∅ (app_columns app) in
        match if_truthy (columns !! field) with
        | Some col_fqn => Some (mkEntityRef "column" col_fqn None)
        | None =>
            (* Fallback to entity-level *)
            let ent_type := default "table" (app_type app) in
            match if_truthy (app_fqn app) with
            | Some ent_fqn => Some (mkEntityRef ent_type ent_fqn None)
            | None => None
            end
        end
  end.

Definition _entity_ref_from_fqn (self : OpenMetadataHelper)
    (entity_type fqn : string) : M (option EntityRef) :=
  let* ent := _get_entity_by_name self entity_type fqn in
  match ent with
  | None => ret None
  | Some e => ret (Some (mkEntityRef entity_type fqn (entity_id e)))
  end.

Definition _add_lineage_edge (self : OpenMetadataHelper)
    (from_ref to_ref : EntityRef) : M unit :=
  let* client := the_client self in
  import_from (imports_lineage_requests client) ;;
  (if accepts_reference client (id from_ref) (type from_ref) then ret ()
   else raise ValidationError) ;;
  (if accepts_reference client (id to_ref) (type to_ref) then ret ()
   else raise ValidationError) ;;
  let req := AddLineage (id from_ref) (type from_ref) (id to_ref) (type to_ref) in
  let* history := get_trace in
  emit (Call req) ;;
  if add_lineage client history req then ret () else raise ClientError.

(** [task_fqn.rsplit(".", 1)[0]] *)
Definition pipeline_fqn (task_fqn : string) : string :=
  match rsplit1 "."%char task_fqn with
  | h :: _ => h
  | [] => task_fqn
  end.

(** [a if a is set, else b]: an [EntityRef] is always truthy. *)
Definition create_lineage (self : OpenMetadataHelper)
    (from_ref to_task from_task to_ref : option EntityRef) : M unit :=
  if offline self then
    let pick (f : EntityRef → string) (a b : option EntityRef) :=
      match a with
      | Some r => Some (f r)
      | None => match b with Some t => Some (f t) | None => None end
      end in
    let* r := get_requests in
    set_requests (mkRequests (services r) (pipelines r)
                    (lineage r ++ [mkLineageRecord
                                     (pick fqn from_ref from_task)
                                     (pick type from_ref from_task)
                                     (pick fqn to_ref to_task)
                                     (pick type to_ref to_task)])) ;;
    _flush_offline self
  else
    (* PipelineTask lineage may not be supported; fallback to pipeline *)
    let* from_ref_use :=
      match from_task, from_ref with
      | Some t, None => _entity_ref_from_fqn self "pipeline" (pipeline_fqn (fqn t))
      | _, _ => ret from_ref
      end in
    let* to_ref_use :=
      match to_task, to_ref with
      | Some t, None => _entity_ref_from_fqn self "pipeline" (pipeline_fqn (fqn t))
      | _, _ => ret to_ref
      end in
    match from_ref_use, to_ref_use with
    | Some f, Some t => _add_lineage_edge self f t
    | _, _ => ret ()
    end.

(** ** [openmetadata_linker.py]: scanning and the driver *)

(** What reading and parsing one source file gives in the environments
    of a run: a tree, a syntax error or a decoding error. *)
Inductive SourceFile : Type :=
| Parsed (tree : node)
| BadSyntax (msg : string)
| BadEncoding (msg : string).

(** The same as the outcome of [read_text] and [ast.parse]: the tree, or
    the exception raised. *)
Definition outcome_of (src : SourceFile) : result node :=
  match src with
  | Parsed tree => Ok tree
  | BadSyntax msg => Raise (SyntaxError msg)
  | BadEncoding msg => Raise (UnicodeDecodeError msg)
  end.

Definition outcomes (files : list (Path * SourceFile))
  : list (Path * result node) :=
  (λ file, (file.1, outcome_of file.2)) <$> files.

(** The process environment of one run. *)
Record Env : Type := mkEnv {
  cwd : Path;                               (* [Path.cwd()] *)
  root_exists : bool;                       (* [root.exists()] *)
  rglob : list (Path * SourceFile);         (* [root.rglob("*.py")] *)
  yaml_config : Config;                     (* [yaml.safe_load(f) or {}] *)
  helper_importable : bool;                 (* [scripts.om_client] *)
  metadata_package : option Catalog;        (* the [metadata] package *)
}.

Record Args : Type := mkArgs {
  arg_root : string;
  arg_config : option string;
  arg_dry_run : bool;
  arg_output : option string;
}.

(** [src] is what [read_text] and [ast.parse] give for the file: whatever
    they raise leaves the function. *)
Definition extract_functions_from_file (file_path : Path) (src : result node)
  : M FileEntry :=
  emit (ReadSource file_path) ;;
  match src with
  | Ok tree => ret (extract_functions_from_tree file_path tree)
  | Raise e => raise e
  end.

Fixpoint scan_loop (files : list (Path * result node))
    (entries : list FileEntry) : M (list FileEntry) :=
  match files with
  | [] => ret entries
  | (p, src) :: files' =>
      if startswith "__" (path_name p) then scan_loop files' entries
      else
        let* entries' :=
          try_except
            (let* fe := extract_functions_from_file p src in
             ret (entries ++ [fe]))
            (λ e, match e with
                  | SyntaxError msg =>
                      emit (Stderr ("Skipping " +:+ path_str p +:+
                                    " due to SyntaxError: " +:+ msg)) ;;
                      ret entries
                  | UnicodeDecodeError msg =>
                      emit (Stderr ("Skipping " +:+ path_str p +:+
                                    " due to decode error: " +:+ msg)) ;;
                      ret entries
                  | _ => raise e
                  end) in
        scan_loop files' entries'
  end.

Definition scan_python_files (env : Env) : M (list FileEntry) :=
  scan_loop (outcomes (rglob env)) [].

Definition summarize (entries : list FileEntry)
  : list (string * list FunctionEntry) :=
  (λ fe, (path_str (path fe), functions fe)) <$> entries.

(** Opening the file, importing [yaml] and parsing are taken to succeed in
    the environments of a run. *)
Definition load_config (env : Env) (config_path : option string) : M Config :=
  match config_path with
  | None => ret empty_config
  | Some p => emit (ReadConfig p) ;; ret (yaml_config env)
  end.

Definition integration_unavailable : string :=
  "OpenMetadata integration not available. Install dependencies and provide config.".

Definition ensure_openmetadata_client (env : Env) (config : Config)
  : M OpenMetadataHelper :=
  if helper_importable env then from_config (metadata_package env) config
  else raise (RuntimeError integration_unavailable).

(** The body of [for tag in fn.tags]. *)
Definition link_tag (client : OpenMetadataHelper) (task : EntityRef)
    (tag : MetadataRef) : M unit :=
  match resolve_application_field client (application tag) (field tag) with
  | None =>
      emit (Stdout ("Warning: No mapping found for " +:+ application tag
                    +:+ ":" +:+ field tag))
  | Some ref =>
      if bool_decide (direction tag = "upstream")
      then create_lineage client (Some ref) (Some task) None None
      else create_lineage client None None (Some task) (Some ref)
  end.

(** The body of [for fn in fe.functions]. *)
Definition link_function (client : OpenMetadataHelper) (pipeline : EntityRef)
    (file_path : Path) (fn : FunctionEntry) : M unit :=
  let* task :=
    ensure_task_for_function client pipeline file_path (name fn) (lineno fn) in
  (* Connect lineage *)
  for_each (tags fn) (link_tag client task).

(** The body of [for fe in entries]. *)
Definition link_file (env : Env) (client : OpenMetadataHelper) (fe : FileEntry)
  : M unit :=
  (* Create or get Pipeline for the file *)
  let* pipeline := ensure_pipeline_for_file (cwd env) client (path fe) in
  for_each (functions fe) (link_function client pipeline (path fe)).

Definition dry_run_notice : string :=
  "[DRY-RUN] Skipping OpenMetadata API calls. Parsed tags shown below.".

Definition create_openmetadata_entries (env : Env) (entries : list FileEntry)
    (config : Config) (dry_run : bool) : M unit :=
  if dry_run then
    emit (Stdout dry_run_notice) ;;
    emit (PrintSummary (summarize entries))
  else
    let* client := ensure_openmetadata_client env config in
    for_each entries (link_file env client).

Definition main (env : Env) (args : Args) : M unit :=
  if negb (root_exists env) then
    emit (Stderr ("Root path does not exist: " +:+ arg_root args)) ;;
    raise (SystemExit 1)
  else
    let* entries := scan_python_files env in
    let* config :=
      if opt_truthy (arg_config args) then load_config env (arg_config args)
      else ret empty_config in
    (if opt_truthy (arg_output args)
     then emit (WriteSummary (default "" (arg_output args)) (summarize entries))
     else ret ()) ;;
    create_openmetadata_entries env entries config
      (arg_dry_run args || negb (opt_truthy (arg_config args))).

Definition initial_state : State := mkState (mkRequests [] [] []) [].

(** * Specification

    The notions in which the properties are stated, the behaviour as the
    specification words it where the code differs, and sample inputs. *)

(** The declarations of a list in order of first occurrence: each one is
    kept where it is first met and removed from the rest. *)
Fixpoint first_occurrences (refs : list MetadataRef) : list MetadataRef :=
  match refs with
  | [] => []
  | r :: refs' => r :: filter (λ r', r' ≠ r) (first_occurrences refs')
  end.

(** The declarations gathered by the three passes, before deduplication. *)
Definition raw_refs (docstring : option string) : list MetadataRef :=
  match docstring with
  | None => []
  | Some doc => if negb (truthy doc) then [] else collect_refs doc
  end.

(** A dictionary in which every declaration is stored under its own key. *)
Definition keyed (l : list MetadataRef)
  : list (string * string * string * MetadataRef) :=
  (λ r, (key r, r)) <$> l.

Definition remember_ref (l : list MetadataRef) (r : MetadataRef)
  : list MetadataRef :=
  if decide (r ∈ l) then l else l ++ [r].

Definition nl : string := String "010" EmptyString.

(** Whether some line of [ls] is the title and is followed by an underline. *)
Fixpoint has_section_heading (ls : list string) : bool :=
  match ls with
  | l :: rest =>
      match rest with
      | u :: _ => is_title l && is_underline u || has_section_heading rest
      | [] => false
      end
  | [] => false
  end.

(** The body as the claim words it: the lines up to, not including, the
    first line that is followed by an underline, whatever that line is. *)
Fixpoint body_until_underlined (ls : list string) : list string :=
  match ls with
  | [] => []
  | l :: rest =>
      match rest with
      | next :: _ => if is_underline next then [] else l :: body_until_underlined rest
      | [] => [l]
      end
  end.

(** A non-blank line followed by an underline: the start of a heading. *)
Definition starts_heading (l next : string) : bool :=
  truthy (strip l) && is_underline next.

Definition two_rules_doc : string :=
  "OpenMetadata" +:+ nl +:+ "=====" +:+ nl +:+ "upstream: a:b" +:+ nl
  +:+ nl +:+ "-----" +:+ nl +:+ "downstream: c:d".

(** Occurrences of each syntax in a documentation string. *)
Definition has_section_style (docstring : string) : bool :=
  has_section_heading (splitlines docstring).

Definition has_field_list_style (docstring : string) : bool :=
  existsb (λ raw, bool_decide (is_Some (Re.rematch FIELD_LIST_LINE (strip raw))))
    (splitlines docstring).

Definition has_inline_style (docstring : string) : bool :=
  match Re.finditer TAG_PATTERN docstring with [] => false | _ => true end.

(** The label style of pattern B: a line starting with "OpenMetadata:". *)
Definition has_label_style (docstring : string) : bool :=
  existsb is_label (splitlines docstring).

Definition plain_doc : string :=
  "Compute the invoice total." +:+ nl +:+ nl
  +:+ ":param order: the order, see upstream(billing:amount)".

(** The nodes of a tree in file order: a node, then its children's nodes. *)
Fixpoint preorder (n : node) : list node :=
  let 'Node _ cs := n in
  n :: (fix forest (l : list node) : list node :=
          match l with [] => [] | c :: l' => preorder c ++ forest l' end) cs.

(** The entries of the synchronous function definitions in file order. *)
Definition function_defs_in_file_order (tree : node) : list FunctionEntry :=
  preorder tree ≫= entries_of_node.

(** The number of synchronous function definitions of a tree. *)
Fixpoint count_function_defs (n : node) : nat :=
  let 'Node k cs := n in
  (match k with FunctionDef _ _ _ => 1 | _ => 0 end)
  + (fix forest (l : list node) : nat :=
       match l with [] => 0 | c :: l' => count_function_defs c + forest l' end) cs.

(** No synchronous function definition lies below a child of the root:
    every one is a top-level statement of the module. *)
Definition top_level_only (tree : node) : bool :=
  forallb (λ c, forallb (λ g, Nat.eqb (count_function_defs g) 0)
                  (iter_child_nodes c))
    (iter_child_nodes tree).

(** Async definitions turned into plain nodes, the rest unchanged. *)
Fixpoint forget_async (n : node) : node :=
  let 'Node k cs := n in
  Node (match k with AsyncFunctionDef _ _ _ => OtherNode | _ => k end)
       (map forget_async cs).

Fixpoint non_decreasing (l : list nat) : bool :=
  match l with
  | a :: rest =>
      match rest with
      | b :: _ => Nat.leb a b && non_decreasing rest
      | [] => true
      end
  | [] => true
  end.

Fixpoint increasing (l : list nat) : bool :=
  match l with
  | a :: rest =>
      match rest with
      | b :: _ => Nat.ltb a b && increasing rest
      | [] => true
      end
  | [] => true
  end.

(** What [ast.parse] guarantees about the lines: a definition starts a
    line of its own, so that the lines of the definitions, taken in file
    order, increase. *)
Definition lines_in_source_order (tree : node) : bool :=
  increasing (lineno <$> function_defs_in_file_order tree).

(** [def load(): ...] at line 1 and [def store(): ...] at line 4. *)
Definition flat_tree : node :=
  Node OtherNode
    [ Node (FunctionDef "load" 1 None) [Node OtherNode []; Node OtherNode []];
      Node (FunctionDef "store" 4 None) [Node OtherNode []; Node OtherNode []] ].

(** [def a():] at line 1 holding [def b():] at line 2, then [def c():] at
    line 4. *)
Definition nested_tree : node :=
  Node OtherNode
    [ Node (FunctionDef "a" 1 None)
        [ Node OtherNode [];
          Node (FunctionDef "b" 2 None) [Node OtherNode []; Node OtherNode []] ];
      Node (FunctionDef "c" 4 None) [Node OtherNode []; Node OtherNode []] ].

(** [async def load():] at line 1 with an inline tag in its docstring. *)
Definition async_tree : node :=
  Node OtherNode
    [ Node (AsyncFunctionDef "load" 1
              (Some "Fetch rows; openmetadata:upstream(crm:customer_id)"))
        [Node OtherNode []; Node OtherNode []] ].

(** The resolver as the claim words it: a field present in the column
    mapping gives a column reference, otherwise a configured fully
    qualified name gives the entity-level reference. *)
Definition resolve_as_claimed (cfg : Config) (application field : string)
  : option EntityRef :=
  match default ∅ (applications cfg) !! application with
  | None => None
  | Some app =>
      match default ∅ (app_columns app) !! field with
      | Some q => Some (mkEntityRef "column" q None)
      | None =>
          match app_fqn app with
          | Some q => Some (mkEntityRef (default "table" (app_type app)) q None)
          | None => None
          end
      end
  end.

(** The entity-level fallback of an application entry. *)
Definition entity_level (app : AppConfig) : option EntityRef :=
  match app_fqn app with
  | Some q =>
      if bool_decide (q = "") then None
      else Some (mkEntityRef (default "table" (app_type app)) q None)
  | None => None
  end.

(** The map of the specification's example. *)
Definition billing_config : Config :=
  mkConfig None None
    (Some {[ "billing" :=
               mkAppConfig (Some "table") (Some "db.billing")
                 (Some {[ "amount" := "db.billing.amount" ]}) ]})
    None.

Definition billing_helper : OpenMetadataHelper :=
  mkOpenMetadataHelper billing_config "openmetadata_requests.json" true None.

(** A column mapped to the empty name. *)
Definition blank_column_config : Config :=
  mkConfig None None
    (Some {[ "billing" :=
               mkAppConfig (Some "table") (Some "db.billing")
                 (Some {[ "amount" := "" ]}) ]})
    None.

Definition blank_column_helper : OpenMetadataHelper :=
  mkOpenMetadataHelper blank_column_config "openmetadata_requests.json" true None.

(** The offline record of an edge between two references. *)
Definition edge_record (from_ to_ : EntityRef) : LineageRecord :=
  mkLineageRecord (Some (fqn from_)) (Some (type from_))
                  (Some (fqn to_)) (Some (type to_)).

(** The state after one more lineage record has been logged and flushed. *)
Definition logged (self : OpenMetadataHelper) (rec : LineageRecord) (s : State)
  : State :=
  let r := mkRequests (services (_requests s)) (pipelines (_requests s))
             (lineage (_requests s) ++ [rec]) in
  mkState r (trace s ++ [FlushOffline (requests_path self) r]).

(** Unfolding of the monad's operations in a goal. *)
Ltac run_monad :=
  repeat (progress (unfold bind, ret, raise, emit, get_trace, get_requests,
                      set_requests, lift, try_except; simpl)).

(** A catalog that knows every pipeline and accepts every request. *)
Definition demo_catalog : Catalog :=
  mkCatalog true true true true (λ _ _, true)
    (λ _ name service,
       Some (mkEntity true (service +:+ "." +:+ name) (Some "p-1") []))
    (λ _ entity_type fqn,
       if bool_decide (entity_type = "pipeline")
       then Some (mkEntity true fqn (Some "p-1") []) else None)
    (λ _ _, true)
    (λ _ _, true).

Definition online_helper : OpenMetadataHelper :=
  mkOpenMetadataHelper billing_config "openmetadata_requests.json" false
    (Some demo_catalog).

Definition load_task : EntityRef :=
  mkEntityRef "pipelineTask" "code-service.etl.py.load" None.

Definition amount_column : EntityRef :=
  mkEntityRef "column" "db.billing.amount" None.

(** The name derived from a path relative to the working directory: both
    separators replaced by an underscore. *)
Definition derived_name (rel : Path) : string :=
  replace "/"%char "_"%char (replace "\"%char "_"%char (path_str rel)).

Definition service_of (self : OpenMetadataHelper) : string :=
  default "code-service" (pipelineServiceName (config self)).

(** The state after one more "ensure" record has been logged and flushed. *)
Definition ensured (self : OpenMetadataHelper) (name : string)
    (file_path : Path) (s : State) : State :=
  let r := mkRequests (services (_requests s))
             (pipelines (_requests s)
                ++ [Ensure (service_of self) name (path_str file_path)])
             (lineage (_requests s)) in
  mkState r (trace s ++ [FlushOffline (requests_path self) r]).

Definition is_dunder (file : Path * SourceFile) : bool :=
  startswith "__" (path_name file.1).

(** What scanning one file appends to the trace. *)
Definition scan_events_of (file : Path * SourceFile) : list Event :=
  if is_dunder file then []
  else ReadSource file.1 ::
       match file.2 with
       | Parsed _ => []
       | BadSyntax msg =>
           [Stderr ("Skipping " +:+ path_str file.1 +:+
                    " due to SyntaxError: " +:+ msg)]
       | BadEncoding msg =>
           [Stderr ("Skipping " +:+ path_str file.1 +:+
                    " due to decode error: " +:+ msg)]
       end.

(** What scanning one file appends to the entries. *)
Definition scan_entries_of (file : Path * SourceFile) : list FileEntry :=
  if is_dunder file then []
  else match file.2 with
       | Parsed tree => [extract_functions_from_tree file.1 tree]
       | _ => []
       end.

(** Events that reach the catalog or the offline request log. *)
Definition is_catalog_event (e : Event) : bool :=
  match e with
  | Call _ | FlushOffline _ _ => true
  | _ => false
  end.

Definition is_read_source (e : Event) : bool :=
  match e with ReadSource _ => true | _ => false end.

(** One source file, a configuration without connection settings and the
    catalog package installed. *)
Definition one_file_env : Env :=
  mkEnv ["/"; "repo"] true
    [(["/"; "repo"; "etl.py"], Parsed flat_tree)]
    billing_config true (Some demo_catalog).

Definition live_args : Args := mkArgs "." (Some "om.yml") false None.

(** ** What a pattern matches

    The matches of a pattern as a relation between the state before and
    the state after: the offset, the rest of the subject and the groups. *)
Inductive matches : Re.regex → nat → string → Re.groups →
                    nat → string → Re.groups → Prop :=
| matches_chr p c pos s g :
    p c = true → matches (Re.Chr p) pos (String c s) g (S pos) s g
| matches_eps pos s g : matches Re.Eps pos s g pos s g
| matches_seq r1 r2 pos s g pos1 s1 g1 pos2 s2 g2 :
    matches r1 pos s g pos1 s1 g1 → matches r2 pos1 s1 g1 pos2 s2 g2 →
    matches (Re.Seq r1 r2) pos s g pos2 s2 g2
| matches_alt_l r1 r2 pos s g pos' s' g' :
    matches r1 pos s g pos' s' g' → matches (Re.Alt r1 r2) pos s g pos' s' g'
| matches_alt_r r1 r2 pos s g pos' s' g' :
    matches r2 pos s g pos' s' g' → matches (Re.Alt r1 r2) pos s g pos' s' g'
| matches_star_stop r pos s g : matches (Re.Star r) pos s g pos s g
| matches_star_more r pos s g pos1 s1 g1 pos2 s2 g2 :
    matches r pos s g pos1 s1 g1 → matches (Re.Star r) pos1 s1 g1 pos2 s2 g2 →
    matches (Re.Star r) pos s g pos2 s2 g2
| matches_group n r pos s g pos' s' g' :
    matches r pos s g pos' s' g' →
    matches (Re.Group n r) pos s g pos' s' ((n, take (pos' - pos) s) :: g')
| matches_bol s g : matches Re.Bol 0 s g 0 s g
| matches_eol pos s g :
    s = EmptyString ∨ s = String "010" EmptyString →
    matches Re.Eol pos s g pos s g.

(** Patterns without groups. *)
Fixpoint groupless (r : Re.regex) : bool :=
  match r with
  | Re.Seq r1 r2 | Re.Alt r1 r2 => groupless r1 && groupless r2
  | Re.Star r1 => groupless r1
  | Re.Group _ _ => false
  | _ => true
  end.

(** Every character of a string satisfies a test. *)
Fixpoint all_chars (p : ascii → bool) (s : string) : bool :=
  match s with
  | EmptyString => true
  | String c s' => p c && all_chars p s'
  end.

(** A declaration as the three syntaxes can produce it from a text of
    code points below 256: one of the two directions, an application
    without colon, both names trimmed. *)
Definition well_formed_ref (r : MetadataRef) : Prop :=
  (direction r = "upstream" ∨ direction r = "downstream")
  ∧ find ":"%char (application r) = None
  ∧ strip (application r) = application r
  ∧ strip (field r) = field r.

(** The names of a declaration: an application without colon, and no
    white space around the application or the field. *)
Definition well_named (r : MetadataRef) : Prop :=
  find ":"%char (application r) = None
  ∧ strip (application r) = application r
  ∧ strip (field r) = field r.

Definition label_doc : string :=
  "Compute the total." +:+ nl +:+ nl
  +:+ "  OpenMetadata: upstream: billing:amount" +:+ nl
  +:+ "  downstream: crm:name" +:+ nl +:+ nl +:+ "Returns the total.".

(** The exceptions that the scan catches. *)
Definition is_caught (e : exn) : bool :=
  match e with
  | SyntaxError _ | UnicodeDecodeError _ => true
  | _ => false
  end.

(** A file at which the scan stops: not a dunder file, and reading or
    parsing it raises an exception that the scan does not catch. *)
Definition stops_scan (file : Path * result node) : bool :=
  negb (startswith "__" (path_name file.1))
  && match file.2 with
     | Raise e => negb (is_caught e)
     | Ok _ => false
     end.

(** The entry kept for a file: none for a dunder file or a file that
    could not be read and parsed. *)
Definition kept_entries_of (file : Path * result node) : list FileEntry :=
  if startswith "__" (path_name file.1) then []
  else match file.2 with
       | Ok tree => [extract_functions_from_tree file.1 tree]
       | Raise _ => []
       end.

(** What a file that does not stop the scan adds to the trace: nothing
    for a dunder file, else the read, followed by the report of a caught
    exception. *)
Definition read_events_of (file : Path * result node) : list Event :=
  if startswith "__" (path_name file.1) then []
  else ReadSource file.1 ::
       match file.2 with
       | Raise (SyntaxError msg) =>
           [Stderr ("Skipping " +:+ path_str file.1 +:+
                    " due to SyntaxError: " +:+ msg)]
       | Raise (UnicodeDecodeError msg) =>
           [Stderr ("Skipping " +:+ path_str file.1 +:+
                    " due to decode error: " +:+ msg)]
       | _ => []
       end.

(** Five files: one that parses, a dunder file, one with a syntax error,
    one whose text holds a NUL byte, on which [ast.parse] raises
    [ValueError], and one more that parses. *)
Definition mixed_files : list (Path * result node) :=
  [ (["/"; "repo"; "etl.py"], Ok flat_tree);
    (["/"; "repo"; "__init__.py"], Raise ValueError);
    (["/"; "repo"; "draft.py"], Raise (SyntaxError "invalid syntax"));
    (["/"; "repo"; "blob.py"], Raise ValueError);
    (["/"; "repo"; "late.py"], Ok nested_tree) ].

(** ** The offline log of a run *)

(** Events of an offline run: a snapshot of the request log written to
    disk, or a line on the output stream. *)
Definition offline_event (e : Event) : bool :=
  match e with
  | FlushOffline _ _ | Stdout _ => true
  | _ => false
  end.

(** The last snapshot written by a run of events, if any. *)
Fixpoint last_flush (events : list Event) : option Requests :=
  match events with
  | [] => None
  | e :: events' =>
      match last_flush events' with
      | Some r => Some r
      | None => match e with FlushOffline _ r => Some r | _ => None end
      end
  end.

(** A request log with more pipeline actions and lineage records. *)
Definition grown (r : Requests) (acts : list PipelineAction)
    (recs : list LineageRecord) : Requests :=
  mkRequests (services r) (pipelines r ++ acts) (lineage r ++ recs).

Definition nothing_logged (acts : list PipelineAction)
    (recs : list LineageRecord) : bool :=
  match acts, recs with [], [] => true | _, _ => false end.

(** A computation that ends with [out], appends [acts] and [recs] to the
    request log, does nothing but write snapshots and print, and whose last
    snapshot, when it logs anything, is the log it leaves in memory. *)
Definition logs_offline {A} (m : M A) (s : State) (out : result A)
    (acts : list PipelineAction) (recs : list LineageRecord) : Prop :=
  ∃ events,
    m s = (out, mkState (grown (_requests s) acts recs) (trace s ++ events))
    ∧ forallb offline_event events = true
    ∧ last_flush events
      = if nothing_logged acts recs then None
        else Some (grown (_requests s) acts recs).

(** The task reference of a function in a pipeline. *)
Definition task_of (pipeline : EntityRef) (fn : FunctionEntry) : EntityRef :=
  mkEntityRef "pipelineTask" (fqn pipeline +:+ "." +:+ name fn) None.

(** The lineage records that a run logs for a declaration, a function and
    a file. *)
Definition tag_records (client : OpenMetadataHelper) (task : EntityRef)
    (tag : MetadataRef) : list LineageRecord :=
  match resolve_application_field client (application tag) (field tag) with
  | None => []
  | Some R => [if bool_decide (direction tag = "upstream")
               then edge_record R task else edge_record task R]
  end.

Definition pipeline_of_file (client : OpenMetadataHelper) (rel : Path)
  : EntityRef :=
  mkEntityRef "pipeline" (service_of client +:+ "." +:+ derived_name rel) None.

Definition file_records (cwd' : Path) (client : OpenMetadataHelper)
    (fe : FileEntry) : list LineageRecord :=
  match relative_to (path fe) cwd' with
  | Some rel =>
      functions fe ≫= λ fn,
        tags fn ≫= tag_records client (task_of (pipeline_of_file client rel) fn)
  | None => []
  end.

(** The pipeline actions that a run logs for a file: the pipeline, then
    one task per function. *)
Definition file_actions (cwd' : Path) (client : OpenMetadataHelper)
    (fe : FileEntry) : list PipelineAction :=
  match relative_to (path fe) cwd' with
  | Some rel =>
      Ensure (service_of client) (derived_name rel) (path_str (path fe))
      :: ((λ fn, EnsureTask (fqn (pipeline_of_file client rel)) (name fn)
                   (path_str (path fe)) (lineno fn)) <$> functions fe)
  | None => []
  end.

(** The helper that [__init__] builds when the catalog package cannot be
    imported. *)
Definition offline_helper_of (cfg : Config) : OpenMetadataHelper :=
  mkOpenMetadataHelper cfg
    (default "openmetadata_requests.json" (requestsPath cfg)) true None.

Definition under_cwd (cwd' : Path) (fe : FileEntry) : bool :=
  bool_decide (is_Some (relative_to (path fe) cwd')).

(** [def load():] at line 1, documented with one mapped upstream tag and
    one unmapped downstream tag. *)
Definition tagged_tree : node :=
  Node OtherNode
    [ Node (FunctionDef "load" 1
              (Some ":openmetadata-upstream: billing:amount, crm:name"))
        [Node OtherNode []; Node OtherNode []] ].

(** An environment without the catalog package. *)
Definition offline_env : Env :=
  mkEnv ["/"; "repo"] true
    [(["/"; "repo"; "jobs"; "etl.py"], Parsed tagged_tree)]
    billing_config true None.

Definition etl_entry : FileEntry :=
  extract_functions_from_tree ["/"; "repo"; "jobs"; "etl.py"] tagged_tree.

Definition stray_entry : FileEntry :=
  extract_functions_from_tree ["/"; "srv"; "etl.py"] tagged_tree.

(** A catalog whose pipelines already hold the task "load". *)
Definition stocked_catalog : Catalog :=
  mkCatalog true true true true (λ _ _, true)
    (λ _ name service,
       Some (mkEntity true (service +:+ "." +:+ name) (Some "p-1") ["load"]))
    (λ _ entity_type fqn,
       if bool_decide (entity_type = "pipeline")
       then Some (mkEntity true fqn (Some "p-1") ["load"]) else None)
    (λ _ _, true)
    (λ _ _, true).

Definition stocked_helper : OpenMetadataHelper :=
  mkOpenMetadataHelper billing_config "openmetadata_requests.json" false
    (Some stocked_catalog).

Definition etl_pipeline : EntityRef :=
  mkEntityRef "pipeline" "code-service.jobs_etl.py" (Some "p-1").

(** The characters of an underline. *)
Definition underline_mark (c : ascii) : bool :=
  bool_decide (find c "=~`^#*-" ≠ None).

(** ** Online runs *)

(** Events of an online run: a request to the catalog, or a line on the
    output stream. *)
Definition online_event (e : Event) : bool :=
  match e with
  | Call _ | Stdout _ => true
  | _ => false
  end.

(** A request that is not a lineage edge with an id at both ends. *)
Definition lacks_an_id (e : Event) : bool :=
  match e with
  | Call (AddLineage (Some _) _ (Some _) _) => false
  | _ => true
  end.

Definition online_sent (e : Event) : bool := online_event e && lacks_an_id e.

(** A computation that, however it ends, leaves the request log as it is
    and does nothing but call the catalog and print, no lineage edge it
    asks for having an id at both ends. *)
Definition stays_online {A} (m : M A) (s : State) : Prop :=
  ∃ out events,
    m s = (out, mkState (_requests s) (trace s ++ events))
    ∧ forallb online_sent events = true.

(** A configuration with both connection settings. *)
Definition connected_config : Config :=
  mkConfig None None (applications billing_config)
    (Some (mkConnectionConfig (Some "http://localhost:8585/api") (Some "token"))).

Definition online_env : Env :=
  mkEnv ["/"; "repo"] true
    [(["/"; "repo"; "jobs"; "etl.py"], Parsed tagged_tree)]
    connected_config true (Some demo_catalog).

(** ** Names that survive the parser *)

(** A character of a plain name: no white space, comma, colon or
    parenthesis. *)
Definition name_char (c : ascii) : bool :=
  negb (isspace c) && bool_decide (find c ",:()" = None).

(** A plain name: not empty, made of such characters. *)
Definition is_name (x : string) : bool := truthy x && all_chars name_char x.

(** * Properties *)

(** ** Deduplication of declarations *)

Lemma key_inj (r1 r2 : MetadataRef) : key r1 = key r2 → r1 = r2.
Proof. destruct r1, r2; unfold key; simpl; congruence. Qed.

Lemma setitem_keyed (r : MetadataRef) (l : list MetadataRef) :
  PyDict.setitem (key r) r (keyed l) = keyed (remember_ref l r).
Proof.
  unfold remember_ref, keyed.
  induction l as [|x l IH].
  - reflexivity.
  - rewrite fmap_cons. cbn [PyDict.setitem].
    destruct (decide (key x = key r)) as [Hk|Hk].
    + apply key_inj in Hk as ->.
      rewrite decide_True by apply list_elem_of_here. reflexivity.
    + rewrite IH. destruct (decide (r ∈ l)) as [Hin|Hin].
      * rewrite decide_True by (apply list_elem_of_further, Hin). reflexivity.
      * rewrite decide_False; [reflexivity|].
        intros [->|?]%elem_of_cons; [by apply Hk | by apply Hin].
Qed.

Lemma values_keyed (l : list MetadataRef) : PyDict.values (keyed l) = l.
Proof.
  unfold PyDict.values, keyed.
  induction l as [|x l IH]; [done|]. rewrite !fmap_cons. simpl. by rewrite IH.
Qed.

Lemma foldl_setitem_keyed (refs l : list MetadataRef) :
  foldl (λ unique r, PyDict.setitem (key r) r unique) (keyed l) refs
  = keyed (foldl remember_ref l refs).
Proof.
  revert l. induction refs as [|r refs IH]; intros l; simpl; [done|].
  rewrite setitem_keyed. apply IH.
Qed.

Lemma filter_filter_ref (P Q : MetadataRef → Prop)
    `{∀ x, Decision (P x)} `{∀ x, Decision (Q x)} (l : list MetadataRef) :
  filter P (filter Q l) = filter (λ x, P x ∧ Q x) l.
Proof.
  induction l as [|x l IH]; simpl; [done|].
  rewrite !filter_cons.
  destruct (decide (Q x)) as [HQ|HQ]; simpl.
  - rewrite filter_cons. destruct (decide (P x)) as [HP|HP].
    + rewrite decide_True by done. by rewrite IH.
    + rewrite decide_False by tauto. done.
  - rewrite decide_False by tauto. done.
Qed.

Lemma filter_ext_ref (P Q : MetadataRef → Prop)
    `{∀ x, Decision (P x)} `{∀ x, Decision (Q x)} (l : list MetadataRef) :
  (∀ x, P x ↔ Q x) → filter P l = filter Q l.
Proof.
  intros HPQ. induction l as [|x l IH]; simpl; [done|].
  rewrite !filter_cons, IH.
  destruct (decide (P x)) as [HP|HP].
  - rewrite decide_True by (by apply HPQ). done.
  - rewrite decide_False; [done|]. by rewrite <- HPQ.
Qed.

Lemma foldl_remember_ref (refs acc : list MetadataRef) :
  foldl remember_ref acc refs
  = acc ++ filter (λ r, r ∉ acc) (first_occurrences refs).
Proof.
  revert acc. induction refs as [|x refs IH]; intros acc; simpl.
  - by rewrite filter_nil, app_nil_r.
  - rewrite IH. unfold remember_ref. rewrite filter_cons.
    destruct (decide (x ∈ acc)) as [Hin|Hin].
    + rewrite decide_False by tauto. f_equal.
      rewrite filter_filter_ref. apply filter_ext_ref.
      intros y. split; [|tauto]. intros Hy. split; [done|]. congruence.
    + rewrite decide_True by done. rewrite <- app_assoc. simpl. do 2 f_equal.
      rewrite filter_filter_ref. apply filter_ext_ref.
      intros y. rewrite not_elem_of_app, not_elem_of_cons. 
      split; [intros [? [? _]]; done | intros [? ?]; split_and!; try done].
      apply not_elem_of_nil.
Qed.

Lemma deduplicate_first_occurrences (refs : list MetadataRef) :
  deduplicate refs = first_occurrences refs.
Proof.
  unfold deduplicate. change (@nil (string * string * string * MetadataRef))
    with (keyed []).
  rewrite foldl_setitem_keyed, values_keyed, foldl_remember_ref. simpl.
  induction (first_occurrences refs) as [|y l IH]; [done|].
  rewrite filter_cons, decide_True by apply not_elem_of_nil. by rewrite IH.
Qed.

Lemma first_occurrences_elem (r : MetadataRef) (refs : list MetadataRef) :
  r ∈ first_occurrences refs ↔ r ∈ refs.
Proof.
  induction refs as [|x refs IH]; simpl; [done|].
  rewrite !elem_of_cons, list_elem_of_filter, IH.
  destruct (decide (r = x)); tauto.
Qed.

Lemma first_occurrences_NoDup (refs : list MetadataRef) :
  NoDup (first_occurrences refs).
Proof.
  induction refs as [|x refs IH]; simpl; [constructor|].
  constructor.
  - rewrite list_elem_of_filter. intros [Hne _]. by apply Hne.
  - by apply NoDup_filter.
Qed.

(** C4: whatever the documentation string, no two returned declarations
    share their (direction, application, field) triple, the returned
    declarations are exactly those produced by the three syntaxes, and they
    come in the order in which each was first produced. *)
Theorem parse_docstring_for_tags_unique_stable (docstring : option string) :
  NoDup (key <$> parse_docstring_for_tags docstring)
  ∧ (∀ r, r ∈ parse_docstring_for_tags docstring ↔ r ∈ raw_refs docstring)
  ∧ parse_docstring_for_tags docstring = first_occurrences (raw_refs docstring).
Proof.
  assert (Heq : parse_docstring_for_tags docstring
                = first_occurrences (raw_refs docstring)).
  { unfold parse_docstring_for_tags, raw_refs.
    destruct docstring as [doc|]; [|done].
    destruct (negb (truthy doc)); [done|].
    apply deduplicate_first_occurrences. }
  rewrite Heq. split_and!; [| |done].
  - apply NoDup_fmap_2; [intros ???; by apply key_inj|].
    apply first_occurrences_NoDup.
  - intros r. apply first_occurrences_elem.
Qed.

(** ** The recognizer on the documented samples *)

Lemma recognizer_samples :
  parse_docstring_for_tags None = []
  ∧ parse_docstring_for_tags (Some "") = []
  ∧ parse_docstring_for_tags
      (Some ("OpenMetadata" +:+ nl +:+ "========" +:+ nl
             +:+ "upstream: billing:amount, billing:currency"))
    = [mkMetadataRef "upstream" "billing" "amount";
       mkMetadataRef "upstream" "billing" "currency"]
  ∧ parse_docstring_for_tags (Some ":openmetadata-downstream: reporting:total")
    = [mkMetadataRef "downstream" "reporting" "total"]
  ∧ parse_docstring_for_tags
      (Some "see openmetadata:upstream(crm:customer_id) for details")
    = [mkMetadataRef "upstream" "crm" "customer_id"]
  ∧ parse_docstring_for_tags
      (Some ("OpenMetadata" +:+ nl +:+ "~~~" +:+ nl
             +:+ "- Upstream : crm:customer_id" +:+ nl
             +:+ ":openmetadata-UPSTREAM: crm:customer_id , crm:name" +:+ nl
             +:+ "openmetadata:upstream( crm : customer_id )"))
    = [mkMetadataRef "upstream" "crm" "customer_id";
       mkMetadataRef "upstream" "crm" "name"].
Proof. split_and!; vm_compute; reflexivity. Qed.

(** ** Parts with an empty component *)

(** C9: a part whose text before or after its first colon is empty after
    trimming is kept, not dropped: the part ":x" gives the application ""
    and the field "x", and each of the syntaxes returns such declarations. *)
Theorem empty_component_is_kept :
  _split_app_field ":x" = Some ("", "x")
  ∧ _split_app_field " a : " = Some ("a", "")
  ∧ parse_docstring_for_tags (Some ":openmetadata-upstream: :x")
    = [mkMetadataRef "upstream" "" "x"]
  ∧ parse_docstring_for_tags
      (Some ("OpenMetadata" +:+ nl +:+ "------------" +:+ nl +:+ "- downstream: a:, :"))
    = [mkMetadataRef "downstream" "a" ""; mkMetadataRef "downstream" "" ""]
  ∧ parse_docstring_for_tags (Some "openmetadata:upstream( :x)")
    = [mkMetadataRef "upstream" "" "x"].
Proof. split_and!; vm_compute; reflexivity. Qed.

(** ** The body of a section *)

Lemma rest_section_first (pre : list string) (t u : string) (body : list string) :
  has_section_heading (pre ++ [t]) = false →
  is_title t = true → is_underline u = true →
  rest_section (pre ++ t :: u :: body) = Some (section_body body).
Proof.
  intros Hpre Ht Hu. induction pre as [|x pre IH].
  - simpl. by rewrite Ht, Hu.
  - destruct pre as [|y pre].
    + simpl in Hpre |- *. rewrite orb_false_r in Hpre.
      by rewrite Hpre, Ht, Hu.
    + change ((x :: y :: pre) ++ [t]) with (x :: y :: (pre ++ [t])) in Hpre.
      change ((x :: y :: pre) ++ t :: u :: body)
        with (x :: (y :: pre) ++ t :: u :: body).
      cbn [has_section_heading] in Hpre.
      apply orb_false_iff in Hpre as [Hxy Hrest].
      change (rest_section (x :: (y :: pre) ++ t :: u :: body))
        with (if is_title x && is_underline y
              then Some (section_body (pre ++ t :: u :: body))
              else rest_section ((y :: pre) ++ t :: u :: body)).
      rewrite Hxy. apply IH. exact Hrest.
Qed.

Lemma section_body_prefix (body : list string) :
  ∃ tail, body = section_body body ++ tail
    ∧ (tail = [] ∨ ∃ h u tl, tail = h :: u :: tl ∧ starts_heading h u = true).
Proof.
  induction body as [|l rest IH]; [by exists []; split; [|left]|].
  destruct rest as [|next rest'].
  - exists []. split; [done | by left].
  - cbn [section_body]. fold (starts_heading l next).
    destruct (starts_heading l next) eqn:Hh.
    + exists (l :: next :: rest'). split; [done|]. right. by exists l, next, rest'.
    + destruct IH as (tail & Heq & Htail). exists tail. split; [|done].
      rewrite <- app_comm_cons. f_equal. exact Heq.
Qed.

Lemma section_body_no_heading (body : list string) (i : nat) (l next : string) :
  section_body body !! i = Some l → body !! S i = Some next →
  starts_heading l next = false.
Proof.
  revert i. induction body as [|x rest IH]; intros i Hl Hn; [done|].
  destruct rest as [|y rest']; [done|].
  cbn [section_body] in Hl. fold (starts_heading x y) in Hl.
  destruct (starts_heading x y) eqn:Hh; [done|].
  destruct i as [|i].
  - cbn in Hl, Hn. injection Hl as <-. injection Hn as <-. exact Hh.
  - apply (IH i); [exact Hl | exact Hn].
Qed.

(** C7, as the code has it: after the first title line with its underline,
    the section body is the run of following lines that ends just before
    the first NON-BLANK line that is itself followed by an underline, or at
    the end of the text when there is no such line. *)
Theorem section_body_until_next_heading
    (docstring : string) (pre : list string) (t u : string) (body : list string) :
  splitlines docstring = pre ++ t :: u :: body →
  has_section_heading (pre ++ [t]) = false →
  is_title t = true → is_underline u = true →
  ∃ tail,
    body = _extract_openmetadata_section_lines docstring ++ tail
    ∧ (tail = [] ∨ ∃ h u' tl, tail = h :: u' :: tl ∧ starts_heading h u' = true)
    ∧ ∀ i l next,
        _extract_openmetadata_section_lines docstring !! i = Some l →
        body !! S i = Some next → starts_heading l next = false.
Proof.
  intros Hlines Hpre Ht Hu.
  unfold _extract_openmetadata_section_lines.
  rewrite Hlines, (rest_section_first pre t u body Hpre Ht Hu).
  destruct (section_body_prefix body) as (tail & Heq & Htail).
  exists tail. split_and!; [done | done |].
  intros i l next. apply section_body_no_heading.
Qed.

Lemma section_body_until_next_heading_witness :
  ∃ tail,
    ["upstream: a:b"; ""; "-----"; "downstream: c:d"]
    = _extract_openmetadata_section_lines two_rules_doc ++ tail
    ∧ (tail = [] ∨ ∃ h u' tl, tail = h :: u' :: tl ∧ starts_heading h u' = true)
    ∧ ∀ i l next,
        _extract_openmetadata_section_lines two_rules_doc !! i = Some l →
        ["upstream: a:b"; ""; "-----"; "downstream: c:d"] !! S i = Some next →
        starts_heading l next = false.
Proof.
  apply (section_body_until_next_heading two_rules_doc [] "OpenMetadata" "=====");
    vm_compute; reflexivity.
Defined.

(** The claim's wording fails on a blank line followed by a rule: the code
    keeps the blank line, the rule and what follows in the body, while the
    claim ends the body before the blank line. *)
Lemma section_body_blank_before_rule :
  splitlines two_rules_doc
  = ["OpenMetadata"; "====="; "upstream: a:b"; ""; "-----"; "downstream: c:d"]
  ∧ is_title "OpenMetadata" = true ∧ is_underline "=====" = true
  ∧ _extract_openmetadata_section_lines two_rules_doc
    = ["upstream: a:b"; ""; "-----"; "downstream: c:d"]
  ∧ body_until_underlined ["upstream: a:b"; ""; "-----"; "downstream: c:d"]
    = ["upstream: a:b"]
  ∧ _extract_openmetadata_section_lines two_rules_doc
    ≠ body_until_underlined (skipn 2 (splitlines two_rules_doc)).
Proof. split_and!; vm_compute; try reflexivity. discriminate. Qed.

(** ** Documentation strings without tags *)

Lemma rest_section_none (ls : list string) :
  has_section_heading ls = false → rest_section ls = None.
Proof.
  induction ls as [|l rest IH]; [done|].
  destruct rest as [|u rest']; [done|].
  cbn [has_section_heading rest_section].
  intros [Hlu Hrest]%orb_false_iff. rewrite Hlu. by apply IH.
Qed.

Lemma label_section_none (ls : list string) :
  existsb is_label ls = false → label_section ls = None.
Proof.
  induction ls as [|l rest IH]; [done|].
  cbn [existsb label_section].
  intros [Hl Hrest]%orb_false_iff. rewrite Hl. by apply IH.
Qed.

Lemma field_list_refs_none (ls : list string) :
  existsb (λ raw, bool_decide (is_Some (Re.rematch FIELD_LIST_LINE (strip raw)))) ls
  = false →
  ls ≫= (λ raw, refs_of_line FIELD_LIST_LINE (strip raw)) = [].
Proof.
  induction ls as [|l rest IH]; [done|].
  cbn [existsb]. intros [Hl Hrest]%orb_false_iff.
  rewrite bind_cons, (IH Hrest), app_nil_r.
  unfold refs_of_line.
  destruct (Re.rematch FIELD_LIST_LINE (strip l)) as [m|] eqn:Hm; [|done].
  apply bool_decide_eq_false in Hl. destruct Hl. by exists m.
Qed.

(** C5, as the code has it: a documentation string with no occurrence of
    the section style, of the field-list style, of the inline tag style and
    of the label style (a line starting with "OpenMetadata:") yields no
    declaration. *)
Theorem no_tag_syntax_no_declaration (docstring : string) :
  has_section_style docstring = false →
  has_label_style docstring = false →
  has_field_list_style docstring = false →
  has_inline_style docstring = false →
  parse_docstring_for_tags (Some docstring) = [].
Proof.
  unfold has_section_style, has_label_style, has_field_list_style,
    has_inline_style.
  intros Hsec Hlab Hfl Hin.
  unfold parse_docstring_for_tags.
  destruct (negb (truthy docstring)); [done|].
  assert (collect_refs docstring = []) as ->; [|done].
  unfold collect_refs, section_refs, field_list_refs, inline_refs,
    _extract_openmetadata_section_lines.
  rewrite (rest_section_none _ Hsec), (label_section_none _ Hlab).
  rewrite (field_list_refs_none _ Hfl).
  destruct (Re.finditer TAG_PATTERN docstring); [done | discriminate].
Qed.

Lemma no_tag_syntax_no_declaration_witness :
  parse_docstring_for_tags (Some plain_doc) = [].
Proof.
  apply (no_tag_syntax_no_declaration plain_doc); vm_compute; reflexivity.
Defined.

(** The claim's wording fails on the label style: none of the three
    specified syntaxes occurs, yet a declaration is returned. *)
Lemma label_style_yields_declaration :
  has_section_style "OpenMetadata: upstream: billing:amount" = false
  ∧ has_field_list_style "OpenMetadata: upstream: billing:amount" = false
  ∧ has_inline_style "OpenMetadata: upstream: billing:amount" = false
  ∧ parse_docstring_for_tags (Some "OpenMetadata: upstream: billing:amount")
    = [mkMetadataRef "upstream" "billing" "amount"]
  ∧ parse_docstring_for_tags (Some "OpenMetadata: upstream: billing:amount") ≠ [].
Proof. split_and!; vm_compute; try reflexivity. discriminate. Qed.

(** ** The function extractor *)

Lemma node_forall_ind (P : node → Prop) :
  (∀ k cs, Forall P cs → P (Node k cs)) → ∀ n, P n.
Proof.
  intros H. fix IH 1. intros [k cs]. apply H.
  induction cs as [|c cs IHcs]; constructor; [apply IH | exact IHcs].
Qed.

Lemma preorder_node (k : node_kind) (cs : list node) :
  preorder (Node k cs) = Node k cs :: (cs ≫= preorder).
Proof.
  reflexivity.
Qed.

Lemma count_function_defs_node (k : node_kind) (cs : list node) :
  count_function_defs (Node k cs)
  = length (entries_of_node (Node k cs)) + sum_list (count_function_defs <$> cs).
Proof.
  simpl. f_equal; [by destruct k|].
  induction cs as [|c cs IH]; [done|]. rewrite fmap_cons. simpl. by rewrite IH.
Qed.

Lemma forest_size_app (a b : list node) :
  forest_size (a ++ b) = forest_size a + forest_size b.
Proof. induction a as [|x a IH]; simpl; [done | rewrite IH; lia]. Qed.

Lemma node_size_children (n : node) :
  node_size n = S (forest_size (iter_child_nodes n)).
Proof. destruct n as [k cs]. reflexivity. Qed.

Lemma walk_queue_cons (n : node) (todo : list node) :
  walk_queue (n :: todo) = n :: walk_queue (todo ++ iter_child_nodes n).
Proof. by simp walk_queue. Qed.

(** Induction on the queue of [ast.walk] along its size. *)
Lemma walk_queue_ind (P : list node → Prop) :
  P [] →
  (∀ n todo, P (todo ++ iter_child_nodes n) → P (n :: todo)) →
  ∀ todo, P todo.
Proof.
  intros Hnil Hcons todo.
  remember (forest_size todo) as m eqn:Hm. revert todo Hm.
  induction m as [m IH] using lt_wf_ind. intros [|n todo] Hm; [exact Hnil|].
  apply Hcons. apply (IH (forest_size (todo ++ iter_child_nodes n))); [|done].
  rewrite Hm, forest_size_app. simpl. rewrite (node_size_children n). lia.
Qed.

Lemma walk_queue_preorder (todo : list node) :
  walk_queue todo ≡ₚ todo ≫= preorder.
Proof.
  induction todo as [|n todo IH] using walk_queue_ind; [by simp walk_queue|].
  rewrite walk_queue_cons, IH, bind_app, bind_cons.
  destruct n as [k cs]. rewrite preorder_node. simpl.
  constructor. apply Permutation_app_comm.
Qed.

Lemma walk_queue_app (q r : list node) :
  walk_queue (q ++ r) = q ++ walk_queue (r ++ (q ≫= iter_child_nodes)).
Proof.
  revert r. induction q as [|n q IH]; intros r.
  - simpl. by rewrite app_nil_r.
  - rewrite <- app_comm_cons, walk_queue_cons, <- app_assoc, IH.
    rewrite bind_cons, <- app_comm_cons. by rewrite <- !app_assoc.
Qed.

Lemma length_entries_preorder (n : node) :
  length (preorder n ≫= entries_of_node) = count_function_defs n.
Proof.
  induction n as [k cs IH] using node_forall_ind.
  rewrite preorder_node, count_function_defs_node, bind_cons, length_app.
  f_equal. induction IH as [|c cs Hc _ IHcs]; [done|].
  rewrite bind_cons, bind_app, length_app, fmap_cons. simpl.
  by rewrite Hc, IHcs.
Qed.

Lemma entries_below_nil (gs : list node) :
  forallb (λ g, Nat.eqb (count_function_defs g) 0) gs = true →
  (gs ≫= preorder) ≫= entries_of_node = [].
Proof.
  induction gs as [|g gs IH]; [done|].
  cbn [forallb]. intros [Hg Hgs]%andb_true_iff.
  rewrite bind_cons, bind_app, (IH Hgs), app_nil_r.
  apply Nat.eqb_eq in Hg. apply length_zero_iff_nil.
  by rewrite length_entries_preorder.
Qed.

Lemma walk_queue_forget_async (todo : list node) :
  walk_queue (forget_async <$> todo) = forget_async <$> walk_queue todo.
Proof.
  induction todo as [|n todo IH] using walk_queue_ind; [by simp walk_queue|].
  rewrite fmap_cons, !walk_queue_cons, fmap_cons. f_equal.
  rewrite <- IH, fmap_app. do 2 f_equal. by destruct n.
Qed.

Lemma entries_of_forget_async (n : node) :
  entries_of_node (forget_async n) = entries_of_node n.
Proof. destruct n as [[] cs]; reflexivity. Qed.

Lemma walk_preorder (tree : node) : walk tree ≡ₚ preorder tree.
Proof.
  unfold walk. rewrite walk_queue_preorder, bind_cons. simpl.
  by rewrite app_nil_r.
Qed.

Lemma walk_levels (tree : node) :
  walk tree
  = tree :: iter_child_nodes tree
      ++ walk_queue (iter_child_nodes tree ≫= iter_child_nodes).
Proof.
  unfold walk. rewrite walk_queue_cons. simpl.
  rewrite <- (app_nil_r (iter_child_nodes tree)) at 1.
  by rewrite walk_queue_app.
Qed.

Lemma increasing_lt (a : nat) (l : list nat) :
  increasing (a :: l) = true → Forall (lt a) l ∧ increasing l = true.
Proof.
  revert a. induction l as [|b l IH]; intros a; [done|].
  intros Hl. change (Nat.ltb a b && increasing (b :: l) = true) in Hl.
  apply andb_true_iff in Hl as [Hab Hl].
  apply Nat.ltb_lt in Hab. split; [|exact Hl].
  constructor; [exact Hab|].
  destruct (IH b Hl) as [Hb _].
  apply (Forall_impl _ _ _ Hb). intros x Hx. lia.
Qed.

Lemma increasing_NoDup (l : list nat) : increasing l = true → NoDup l.
Proof.
  induction l as [|a l IH]; [constructor|]. intros Hl.
  destruct (increasing_lt a l Hl) as [Ha Hl'].
  constructor; [|by apply IH]. intros Hin.
  pose proof (proj1 (Forall_forall _ _) Ha a Hin). lia.
Qed.

Lemma increasing_non_decreasing (l : list nat) :
  increasing l = true → non_decreasing l = true.
Proof.
  induction l as [|a l IH]; [done|]. destruct l as [|b l]; [done|].
  intros Hl. change (Nat.ltb a b && increasing (b :: l) = true) in Hl.
  apply andb_true_iff in Hl as [Hab Hl]. apply Nat.ltb_lt in Hab.
  change (Nat.leb a b && non_decreasing (b :: l) = true).
  rewrite (IH Hl), andb_true_r. apply Nat.leb_le. lia.
Qed.

(** C3, as the code has it: for a parsed file with N synchronous function
    definitions at any depth, the extractor returns exactly N entries, one
    per definition, as a rearrangement of the file-order list: the walk is
    breadth first, so the definitions that are top-level statements come
    first, in file order, and all nested ones after them.  The entries are
    in file order when every definition is a top-level statement.  As the
    parser numbers the definitions by increasing line, no two entries share
    a line, and the lines of the entries do not decrease when every
    definition is a top-level statement. *)
Theorem extract_functions_breadth_first (file_path : Path) (tree : node) :
  length (functions (extract_functions_from_tree file_path tree))
  = count_function_defs tree
  ∧ functions (extract_functions_from_tree file_path tree)
    ≡ₚ function_defs_in_file_order tree
  ∧ functions (extract_functions_from_tree file_path tree)
    = entries_of_node tree
        ++ (iter_child_nodes tree ≫= entries_of_node)
        ++ (walk_queue (iter_child_nodes tree ≫= iter_child_nodes)
              ≫= entries_of_node)
  ∧ (top_level_only tree = true →
     functions (extract_functions_from_tree file_path tree)
     = function_defs_in_file_order tree)
  ∧ (lines_in_source_order tree = true →
     NoDup (lineno <$> functions (extract_functions_from_tree file_path tree))
     ∧ (top_level_only tree = true →
        non_decreasing
          (lineno <$> functions (extract_functions_from_tree file_path tree))
        = true)).
Proof.
  assert (Hperm : functions (extract_functions_from_tree file_path tree)
                  ≡ₚ function_defs_in_file_order tree).
  { unfold function_defs_in_file_order. simpl. by rewrite walk_preorder. }
  assert (Hlev : functions (extract_functions_from_tree file_path tree)
    = entries_of_node tree
        ++ (iter_child_nodes tree ≫= entries_of_node)
        ++ (walk_queue (iter_child_nodes tree ≫= iter_child_nodes)
              ≫= entries_of_node)).
  { simpl. by rewrite walk_levels, bind_cons, bind_app. }
  assert (Htop : top_level_only tree = true →
                 functions (extract_functions_from_tree file_path tree)
                 = function_defs_in_file_order tree).
  { intros Htop. rewrite Hlev. unfold function_defs_in_file_order.
    destruct tree as [k cs]. rewrite preorder_node, bind_cons.
    unfold top_level_only in Htop. simpl in Htop |- *. f_equal.
    assert (Hdeep : walk_queue (cs ≫= iter_child_nodes) ≫= entries_of_node = []).
    { apply Permutation_nil_r. rewrite walk_queue_preorder.
      clear Hperm Hlev. induction cs as [|c cs IH]; [done|].
      cbn [forallb] in Htop. apply andb_true_iff in Htop as [Hc Hcs].
      rewrite bind_cons, !bind_app, (entries_below_nil _ Hc), (IH Hcs). done. }
    rewrite Hdeep, app_nil_r. clear Hperm Hlev Hdeep.
    induction cs as [|c cs IH]; [done|].
    cbn [forallb] in Htop. apply andb_true_iff in Htop as [Hc Hcs].
    rewrite !bind_cons, bind_app, (IH Hcs). f_equal.
    destruct c as [kc gs]. rewrite preorder_node, bind_cons.
    simpl in Hc. by rewrite (entries_below_nil _ Hc), app_nil_r. }
  split_and!; [| exact Hperm | exact Hlev | exact Htop |].
  - rewrite Hperm. apply length_entries_preorder.
  - intros Hlines. split.
    + rewrite Hperm. by apply increasing_NoDup.
    + intros Hflat. rewrite (Htop Hflat). by apply increasing_non_decreasing.
Qed.

Lemma extract_functions_breadth_first_witness :
  functions (extract_functions_from_tree ["/"; "app"; "etl.py"] flat_tree)
  = function_defs_in_file_order flat_tree
  ∧ NoDup (lineno <$> functions (extract_functions_from_tree
                                   ["/"; "app"; "etl.py"] flat_tree))
  ∧ non_decreasing
      (lineno <$> functions (extract_functions_from_tree
                               ["/"; "app"; "etl.py"] flat_tree)) = true.
Proof.
  destruct (extract_functions_breadth_first ["/"; "app"; "etl.py"] flat_tree)
    as (_ & _ & _ & Hflat & Hlines).
  destruct (Hlines eq_refl) as [Hnodup Hmono].
  split_and!; [apply Hflat; reflexivity | exact Hnodup
              | apply Hmono; reflexivity].
Defined.

(** The claim's wording fails on a nested definition, in a tree numbered
    as the parser does: the entries are not in file order and their lines
    are not non-decreasing. *)
Lemma nested_definition_out_of_file_order :
  lines_in_source_order nested_tree = true
  ∧ lineno <$> function_defs_in_file_order nested_tree = [1; 2; 4]
  ∧ lineno <$> functions (extract_functions_from_tree ["/"; "app"; "etl.py"]
                            nested_tree) = [1; 4; 2]
  ∧ non_decreasing
      (lineno <$> functions (extract_functions_from_tree ["/"; "app"; "etl.py"]
                               nested_tree)) = false
  ∧ functions (extract_functions_from_tree ["/"; "app"; "etl.py"] nested_tree)
    ≠ function_defs_in_file_order nested_tree.
Proof. split_and!; try reflexivity. vm_compute. discriminate. Qed.

(** C10: every entry comes from a synchronous function definition of the
    tree, whose name, line and docstring it carries; what the async
    definitions of the file are has no influence on the entries, and an
    async definition with a tagged docstring gives no entry. *)
Theorem async_definitions_are_omitted (file_path : Path) (tree : node) :
  Forall (λ e, ∃ n, n ∈ preorder tree
                 ∧ kind_of n = FunctionDef (name e) (lineno e) (docstring e)
                 ∧ tags e = parse_docstring_for_tags (docstring e))
    (functions (extract_functions_from_tree file_path tree))
  ∧ extract_functions_from_tree file_path (forget_async tree)
    = extract_functions_from_tree file_path tree
  ∧ functions (extract_functions_from_tree file_path async_tree) = []
  ∧ parse_docstring_for_tags
      (Some "Fetch rows; openmetadata:upstream(crm:customer_id)")
    = [mkMetadataRef "upstream" "crm" "customer_id"].
Proof.
  split_and!; [| | reflexivity | by vm_compute].
  - simpl. apply Forall_bind, Forall_forall. intros n Hn.
    rewrite walk_preorder in Hn.
    unfold entries_of_node. destruct n as [[nm ln doc| |] cs]; simpl;
      [|by constructor..].
    constructor; [|constructor]. by exists (Node (FunctionDef nm ln doc) cs).
  - unfold extract_functions_from_tree. f_equal. unfold walk.
    change [forget_async tree] with (forget_async <$> [tree]).
    rewrite walk_queue_forget_async.
    induction (walk_queue [tree]) as [|n l IH]; [done|].
    by rewrite fmap_cons, !bind_cons, entries_of_forget_async, IH.
Qed.

(** ** The lineage resolver *)

Lemma truthy_non_empty (q : string) : truthy q = true ↔ q ≠ "".
Proof. destruct q; simpl; split; congruence. Qed.

Lemma if_truthy_Some (o : option string) (q : string) :
  o = Some q → q ≠ "" → if_truthy o = Some q.
Proof. intros -> Hq%truthy_non_empty. simpl. by rewrite Hq. Qed.

Lemma if_truthy_None (o : option string) :
  o = None ∨ o = Some "" → if_truthy o = None.
Proof. by intros [->| ->]. Qed.

Lemma entity_level_if_truthy (app : AppConfig) :
  match if_truthy (app_fqn app) with
  | Some ent_fqn =>
      Some (mkEntityRef (default "table" (app_type app)) ent_fqn None)
  | None => None
  end = entity_level app.
Proof.
  unfold entity_level. destruct (app_fqn app) as [[|c q]|]; reflexivity.
Qed.

Lemma entity_level_falsy_app (app : AppConfig) :
  app_truthy app = false → entity_level app = None.
Proof.
  unfold app_truthy, entity_level. destruct (app_fqn app); [|done].
  rewrite (bool_decide_eq_true_2 (is_Some (Some _))) by eauto.
  by rewrite orb_true_r.
Qed.

(** C2, as the code has it: an application absent from the map resolves to
    nothing; a field mapped to a NON-EMPTY name in the application's column
    mapping resolves to a column reference with that name; otherwise the
    result is the entity-level reference, of the declared kind ("table" by
    default) and the configured name, or nothing when no NON-EMPTY name is
    configured. *)
Theorem resolve_application_field_cases
    (self : OpenMetadataHelper) (application field : string) :
  (default ∅ (applications (config self)) !! application = None →
   resolve_application_field self application field = None)
  ∧ (∀ app q,
       default ∅ (applications (config self)) !! application = Some app →
       default ∅ (app_columns app) !! field = Some q → q ≠ "" →
       resolve_application_field self application field
       = Some (mkEntityRef "column" q None))
  ∧ (∀ app,
       default ∅ (applications (config self)) !! application = Some app →
       default ∅ (app_columns app) !! field = None
       ∨ default ∅ (app_columns app) !! field = Some "" →
       resolve_application_field self application field = entity_level app).
Proof.
  unfold resolve_application_field. split_and!.
  - by intros ->.
  - intros app q -> Hcol Hq.
    assert (app_truthy app = true) as ->.
    { unfold app_truthy. destruct (app_columns app) as [cols|].
      - rewrite (bool_decide_eq_true_2 (is_Some (Some cols))) by eauto.
        by rewrite orb_true_r.
      - simpl in Hcol. by rewrite lookup_empty in Hcol. }
    simpl. by rewrite (if_truthy_Some _ q Hcol Hq).
  - intros app -> Hcol.
    destruct (app_truthy app) eqn:Happ; simpl.
    + rewrite (if_truthy_None _ Hcol). apply entity_level_if_truthy.
    + symmetry. by apply entity_level_falsy_app.
Qed.

Lemma resolve_application_field_cases_witness :
  resolve_application_field billing_helper "unmapped_app" "x" = None
  ∧ resolve_application_field billing_helper "billing" "amount"
    = Some (mkEntityRef "column" "db.billing.amount" None)
  ∧ resolve_application_field billing_helper "billing" "unknown_field"
    = Some (mkEntityRef "table" "db.billing" None).
Proof.
  split_and!.
  - apply (resolve_application_field_cases billing_helper "unmapped_app" "x").
    reflexivity.
  - apply (resolve_application_field_cases billing_helper "billing" "amount"
             ) with (app := mkAppConfig (Some "table") (Some "db.billing")
                              (Some {[ "amount" := "db.billing.amount" ]}));
      [reflexivity | reflexivity | discriminate].
  - apply (proj2 (proj2 (resolve_application_field_cases
                           billing_helper "billing" "unknown_field"))
             (mkAppConfig (Some "table") (Some "db.billing")
                (Some {[ "amount" := "db.billing.amount" ]})));
      [reflexivity | left; reflexivity].
Defined.

(** The claim's wording fails on a field mapped to the empty name: the
    field appears in the column mapping, yet the entity-level reference is
    returned instead of a column reference. *)
Lemma blank_column_falls_back :
  default ∅ (applications blank_column_config) !! "billing"
  = Some (mkAppConfig (Some "table") (Some "db.billing")
            (Some {[ "amount" := "" ]}))
  ∧ ({[ "amount" := "" ]} : gmap string string) !! "amount" = Some ""
  ∧ resolve_application_field blank_column_helper "billing" "amount"
    = Some (mkEntityRef "table" "db.billing" None)
  ∧ resolve_as_claimed blank_column_config "billing" "amount"
    = Some (mkEntityRef "column" "" None)
  ∧ resolve_application_field blank_column_helper "billing" "amount"
    ≠ resolve_as_claimed (config blank_column_helper) "billing" "amount".
Proof. split_and!; try reflexivity. vm_compute. discriminate. Qed.

(** ** Edge orientation *)

Lemma elem_of_two {A} (x a b : A) : x ∈ [a; b] → x = a ∨ x = b.
Proof.
  intros [->|H]%elem_of_cons; [by left|].
  apply elem_of_cons in H as [->|H]; [by right|]. by apply elem_of_nil in H.
Qed.

Lemma elem_of_one {A} (x a : A) : x ∈ [a] → x = a.
Proof.
  intros [->|H]%elem_of_cons; [done|]. by apply elem_of_nil in H.
Qed.

(** What an online [create_lineage] does when one end is the reference R
    and the other end a task: the pipeline of the task is looked up and, if
    it is found, the edge between R and that pipeline is asked for, R
    staying at its end. *)
Lemma create_lineage_online_ends (self : OpenMetadataHelper)
    (task R : EntityRef) (upstream : bool) (s : State) :
  offline self = false →
  ∃ out events,
    (if upstream then create_lineage self (Some R) (Some task) None None
     else create_lineage self None None (Some task) (Some R)) s
    = (out, mkState (_requests s) (trace s ++ events))
    ∧ ∀ from_id from_type to_id to_type,
        Call (AddLineage from_id from_type to_id to_type) ∈ events →
        if upstream
        then from_id = id R ∧ from_type = type R ∧ to_type = "pipeline"
        else to_id = id R ∧ to_type = type R ∧ from_type = "pipeline".
Proof.
  intros Hon. unfold create_lineage. rewrite Hon.
  unfold _entity_ref_from_fqn, _get_entity_by_name, _add_lineage_edge,
    the_client, import_from.
  assert (Hnone : ∀ (st : State) (o : result unit),
            ∃ out events,
              (o, st) = (out, mkState (_requests st) (trace st ++ events))
              ∧ ∀ from_id from_type to_id to_type,
                  Call (AddLineage from_id from_type to_id to_type) ∈ events →
                  if upstream
                  then from_id = id R ∧ from_type = type R ∧ to_type = "pipeline"
                  else to_id = id R ∧ to_type = type R ∧ from_type = "pipeline").
  { intros st o. exists o, []. split; [rewrite app_nil_r; by destruct st|].
    intros ???? H. by apply elem_of_nil in H. }
  destruct (_client self) as [c|] eqn:Hc.
  2:{ destruct upstream; run_monad; apply Hnone. }
  set (lookup := Call (GetByName "pipeline" (pipeline_fqn (fqn task)))).
  assert (Hone : ∀ o : result unit,
            ∃ out events,
              (o, mkState (_requests s) (trace s ++ [lookup]))
              = (out, mkState (_requests s) (trace s ++ events))
              ∧ ∀ from_id from_type to_id to_type,
                  Call (AddLineage from_id from_type to_id to_type) ∈ events →
                  if upstream
                  then from_id = id R ∧ from_type = type R ∧ to_type = "pipeline"
                  else to_id = id R ∧ to_type = type R ∧ from_type = "pipeline").
  { intros o. exists o, [lookup]. split; [done|].
    intros ???? H. apply elem_of_one in H. discriminate. }
  destruct upstream; run_monad; fold lookup;
    (destruct (get_by_name c (trace s) "pipeline" (pipeline_fqn (fqn task)))
       as [e|]; run_monad; [|apply Hone]);
    (destruct (imports_lineage_requests c); run_monad; [|apply Hone]);
    (destruct (accepts_reference c _ _); run_monad; [|apply Hone]);
    (destruct (accepts_reference c _ _); run_monad; [|apply Hone]);
    match goal with
    | |- context [add_lineage c ?h ?r] =>
        destruct (add_lineage c h r);
        (eexists _, [lookup; Call r]; split;
         [by rewrite <- app_assoc
         |intros ???? [H|H]%elem_of_two;
          [discriminate | by injection H as -> -> -> ->]])
    end.
Qed.

(** C1: a declaration that resolves to R is handed to [create_lineage], in
    either mode, with R as the "from" end and the task T as the "to" end
    when its direction is upstream, and with T as "from" and R as "to"
    otherwise.  Offline the edge logged is then R -> T, respectively
    T -> R.  Online, however the call ends, an edge asked of the catalog
    has R at that same end, the other end being the pipeline of T. *)
Theorem link_tag_orientation
    (client : OpenMetadataHelper) (task R : EntityRef) (tag : MetadataRef)
    (s : State) :
  resolve_application_field client (application tag) (field tag) = Some R →
  link_tag client task tag
  = (if bool_decide (direction tag = "upstream")
     then create_lineage client (Some R) (Some task) None None
     else create_lineage client None None (Some task) (Some R))
  ∧ (offline client = true →
     link_tag client task tag s
     = (Ok (), logged client (if bool_decide (direction tag = "upstream")
                              then edge_record R task
                              else edge_record task R) s))
  ∧ (offline client = false →
     ∃ out events,
       link_tag client task tag s
       = (out, mkState (_requests s) (trace s ++ events))
       ∧ ∀ from_id from_type to_id to_type,
           Call (AddLineage from_id from_type to_id to_type) ∈ events →
           if bool_decide (direction tag = "upstream")
           then from_id = id R ∧ from_type = type R ∧ to_type = "pipeline"
           else to_id = id R ∧ to_type = type R ∧ from_type = "pipeline").
Proof.
  intros HR.
  assert (Hhand : link_tag client task tag
                  = (if bool_decide (direction tag = "upstream")
                     then create_lineage client (Some R) (Some task) None None
                     else create_lineage client None None (Some task) (Some R))).
  { unfold link_tag. by rewrite HR. }
  split_and!; [exact Hhand | |].
  - intros Hoff. rewrite Hhand. unfold create_lineage.
    destruct (bool_decide (direction tag = "upstream")); rewrite Hoff;
      reflexivity.
  - intros Hon. rewrite Hhand.
    destruct (create_lineage_online_ends client task R
                (bool_decide (direction tag = "upstream")) s Hon)
      as (out & events & Hrun & Hev).
    exists out, events. split; [|exact Hev].
    by destruct (bool_decide (direction tag = "upstream")).
Qed.

Lemma link_tag_orientation_witness :
  link_tag billing_helper load_task
    (mkMetadataRef "upstream" "billing" "amount") initial_state
  = (Ok (), logged billing_helper (edge_record amount_column load_task)
              initial_state)
  ∧ link_tag billing_helper load_task
      (mkMetadataRef "downstream" "billing" "amount") initial_state
    = (Ok (), logged billing_helper (edge_record load_task amount_column)
                initial_state).
Proof.
  split.
  - destruct (link_tag_orientation billing_helper load_task amount_column
                (mkMetadataRef "upstream" "billing" "amount") initial_state
                eq_refl) as (_ & H & _).
    apply H. reflexivity.
  - destruct (link_tag_orientation billing_helper load_task amount_column
                (mkMetadataRef "downstream" "billing" "amount") initial_state
                eq_refl) as (_ & H & _).
    apply H. reflexivity.
Defined.

(** ** The pipeline of a file *)

Lemma find_replace_None (a b : ascii) (s : string) :
  a ≠ b → find a (replace a b s) = None.
Proof.
  intros Hab. induction s as [|c s IH]; [done|]. simpl.
  destruct (ascii_dec c a) as [->|Hca].
  - destruct (ascii_dec b a); [congruence|]. by rewrite IH.
  - destruct (ascii_dec c a); [congruence|]. by rewrite IH.
Qed.

Lemma find_replace_other (a b x : ascii) (s : string) :
  x ≠ b → find x s = None → find x (replace a b s) = None.
Proof.
  intros Hxb. induction s as [|c s IH]; [done|]. simpl.
  destruct (ascii_dec c x) as [->|Hcx]; [done|].
  destruct (find x s); [done|]. intros _.
  rewrite IH by done. simpl.
  destruct (ascii_dec c a); destruct (ascii_dec _ x); congruence.
Qed.

(** C8, as the code has it.  For a file path under the working directory
    every call computes the same pipeline name, the path relative to the
    working directory with both separators replaced by an underscore, in
    which no separator is left.  Offline, whatever was done before, the
    call returns the pipeline reference named by the service, a dot and
    that name, and logs one more "ensure" record.  Online, however the call
    ends, a pipeline asked of the catalog is asked under that name, and a
    reference returned is the one the catalog reported for it.  For a file
    path that is not under the working directory the call raises
    [ValueError] in either mode and does nothing else. *)
Theorem ensure_pipeline_for_file_stable
    (cwd' : Path) (self : OpenMetadataHelper) (file_path : Path) :
  match relative_to file_path cwd' with
  | Some rel =>
      _pipeline_name_for_file cwd' file_path = Ok (derived_name rel)
      ∧ find "/"%char (derived_name rel) = None
      ∧ find "\"%char (derived_name rel) = None
      ∧ (offline self = true →
         ∀ s, ensure_pipeline_for_file cwd' self file_path s
              = (Ok (mkEntityRef "pipeline"
                       (service_of self +:+ "." +:+ derived_name rel) None),
                 ensured self (derived_name rel) file_path s))
      ∧ (offline self = false →
         ∀ s, ∃ out events,
           ensure_pipeline_for_file cwd' self file_path s
           = (out, mkState (_requests s) (trace s ++ events))
           ∧ (∀ name service,
                Call (CreateOrUpdatePipeline name service) ∈ events →
                name = derived_name rel ∧ service = service_of self)
           ∧ (∀ ref, out = Ok ref →
                ∃ c e,
                  _client self = Some c
                  ∧ create_or_update_pipeline c
                      (trace s ++ [Call (CreateOrUpdateService (service_of self))])
                      (derived_name rel) (service_of self) = Some e
                  ∧ ref = mkEntityRef "pipeline" (fullyQualifiedName e)
                            (entity_id e)
                  ∧ is_Some (entity_id e)))
  | None =>
      ∀ s, ensure_pipeline_for_file cwd' self file_path s
           = (Raise ValueError, s)
  end.
Proof.
  destruct (relative_to file_path cwd') as [rel|] eqn:Hrel.
  2:{ intros s. unfold ensure_pipeline_for_file, _pipeline_name_for_file.
      rewrite Hrel. reflexivity. }
  assert (Hname : _pipeline_name_for_file cwd' file_path = Ok (derived_name rel)).
  { unfold _pipeline_name_for_file. by rewrite Hrel. }
  split_and!; [exact Hname | | | |].
  - by apply find_replace_None.
  - apply find_replace_other; [done|]. by apply find_replace_None.
  - intros Hoff s. unfold ensure_pipeline_for_file.
    rewrite Hname, Hoff. reflexivity.
  - intros Hon s. unfold ensure_pipeline_for_file, the_client, import_from.
    rewrite Hname, Hon. fold (service_of self).
    assert (Hstop : ∀ o : result EntityRef,
              ∃ out events,
                (o, s) = (out, mkState (_requests s) (trace s ++ events))
                ∧ (∀ name service,
                     Call (CreateOrUpdatePipeline name service) ∈ events →
                     name = derived_name rel ∧ service = service_of self)
                ∧ (∀ ref, out = Ok ref → o = Ok ref)).
    { intros o. exists o, []. split_and!; [rewrite app_nil_r; by destruct s| |done].
      intros ?? H. by apply elem_of_nil in H. }
    destruct (_client self) as [c|] eqn:Hc.
    2:{ run_monad. destruct (Hstop (Raise AttributeError))
          as (out & events & Hrun & Hev & Hout).
        exists out, events. split_and!; [exact Hrun | exact Hev |].
        intros ref Href. by specialize (Hout ref Href). }
    run_monad. destruct (imports_pipeline_requests c).
    2:{ run_monad. destruct (Hstop (Raise ImportError))
          as (out & events & Hrun & Hev & Hout).
        exists out, events. split_and!; [exact Hrun | exact Hev |].
        intros ref Href. by specialize (Hout ref Href). }
    run_monad. fold (service_of self).
    set (service_call := Call (CreateOrUpdateService (service_of self))).
    set (pipeline_call := Call (CreateOrUpdatePipeline (derived_name rel)
                                  (service_of self))).
    assert (Hsent : ∀ name service,
              Call (CreateOrUpdatePipeline name service)
              ∈ [service_call; pipeline_call] →
              name = derived_name rel ∧ service = service_of self).
    { intros name service [H|H]%elem_of_two; [discriminate|].
      by injection H as -> ->. }
    destruct (create_or_update_pipeline c (trace s ++ [service_call])
                (derived_name rel) (service_of self)) as [e|] eqn:He;
      run_monad; [destruct (entity_id e) as [i|] eqn:Hi; run_monad|];
      eexists _, [service_call; pipeline_call];
      (split_and!; [by rewrite <- app_assoc | exact Hsent |]);
      intros ref Href; [|done..].
    injection Href as <-. exists c, e. rewrite Hi. by eauto.
Qed.

Lemma ensure_pipeline_for_file_stable_witness :
  ensure_pipeline_for_file ["/"; "repo"] billing_helper
    ["/"; "repo"; "jobs"; "etl.py"] initial_state
  = (Ok (mkEntityRef "pipeline" "code-service.jobs_etl.py" None),
     ensured billing_helper "jobs_etl.py" ["/"; "repo"; "jobs"; "etl.py"]
       initial_state)
  ∧ ensure_pipeline_for_file ["/"; "repo"] online_helper
      ["/"; "srv"; "jobs"; "etl.py"] initial_state
    = (Raise ValueError, initial_state).
Proof.
  split.
  - pose proof (ensure_pipeline_for_file_stable ["/"; "repo"] billing_helper
                  ["/"; "repo"; "jobs"; "etl.py"]) as H.
    simpl in H. destruct H as (_ & _ & _ & H & _). apply H. reflexivity.
  - apply (ensure_pipeline_for_file_stable ["/"; "repo"] online_helper
             ["/"; "srv"; "jobs"; "etl.py"]).
Defined.

(** The claim's wording fails on a file outside the working directory: the
    call raises and yields no name, and nothing is logged. *)
Lemma file_outside_cwd_raises :
  _pipeline_name_for_file ["/"; "repo"] ["/"; "srv"; "jobs"; "etl.py"]
  = Raise ValueError
  ∧ ensure_pipeline_for_file ["/"; "repo"] billing_helper
      ["/"; "srv"; "jobs"; "etl.py"] initial_state
    = (Raise ValueError, initial_state).
Proof. split; reflexivity. Qed.

(** ** Missing connection settings *)

Lemma scan_loop_run (files : list (Path * SourceFile)) (entries : list FileEntry)
    (s : State) :
  scan_loop (outcomes files) entries s
  = (Ok (entries ++ (files ≫= scan_entries_of)),
     mkState (_requests s) (trace s ++ (files ≫= scan_events_of))).
Proof.
  revert entries s. induction files as [|[p src] files IH]; intros entries s.
  - simpl. rewrite !app_nil_r. by destruct s.
  - rewrite !bind_cons. unfold outcomes. rewrite fmap_cons.
    fold (outcomes files). cbn [scan_loop fst snd].
    unfold scan_events_of at 1, scan_entries_of at 1, is_dunder.
    cbn [fst snd]. generalize (startswith "__" (path_name p)). intros [|].
    + apply IH.
    + destruct src as [tree|msg|msg]; run_monad; rewrite IH; simpl;
        by rewrite <- !app_assoc.
Qed.

Lemma scan_events_no_catalog (files : list (Path * SourceFile)) :
  Forall (λ e, is_catalog_event e = false) (files ≫= scan_events_of).
Proof.
  apply Forall_bind, Forall_forall. intros [p src] _.
  unfold scan_events_of. simpl. destruct (is_dunder (p, src)); [constructor|].
  destruct src; repeat constructor.
Qed.

Lemma bind_Ok {A B} (m : M A) (k : A → M B) (s : State) (a : A) (s' : State) :
  m s = (Ok a, s') → bind m k s = k a s'.
Proof. unfold bind. by intros ->. Qed.

Lemma bind_Raise {A B} (m : M A) (k : A → M B) (s : State) (e : exn) (s' : State) :
  m s = (Raise e, s') → bind m k s = (Raise e, s').
Proof. unfold bind. by intros ->. Qed.

Lemma init_helper_missing (pkg : Catalog) (cfg : Config) (s : State) :
  opt_truthy (hostPort (default (mkConnectionConfig None None) (openmetadata cfg)))
  && opt_truthy (jwtToken (default (mkConnectionConfig None None)
                             (openmetadata cfg))) = false →
  init_helper (Some pkg) cfg s
  = (Raise (RuntimeError missing_settings),
     mkState (mkRequests [] [] []) (trace s)).
Proof.
  intros Hmiss. unfold init_helper, _init_client.
  assert (negb (opt_truthy (hostPort (default (mkConnectionConfig None None)
                                        (openmetadata cfg))))
          || negb (opt_truthy (jwtToken (default (mkConnectionConfig None None)
                                           (openmetadata cfg)))) = true) as ->.
  { apply andb_false_iff in Hmiss as [-> | ->]; [done | by rewrite orb_true_r]. }
  reflexivity.
Qed.

(** C6, as the code has it: in a live run (a configuration file given, no
    dry run) with the catalog package importable, a missing host or token
    makes the program raise the configuration error before any request is
    sent to the catalog or logged for it; by then every source file has
    been read and parsed, the configuration loaded and the summary written
    if one was asked for. *)
Theorem missing_settings_abort_after_scan
    (env : Env) (args : Args) (config_path : string) (pkg : Catalog) :
  root_exists env = true →
  arg_dry_run args = false →
  arg_config args = Some config_path → config_path ≠ "" →
  helper_importable env = true →
  metadata_package env = Some pkg →
  opt_truthy (hostPort (default (mkConnectionConfig None None)
                          (openmetadata (yaml_config env))))
  && opt_truthy (jwtToken (default (mkConnectionConfig None None)
                             (openmetadata (yaml_config env)))) = false →
  ∃ events,
    main env args initial_state
    = (Raise (RuntimeError missing_settings),
       mkState (mkRequests [] [] []) events)
    ∧ events = (rglob env ≫= scan_events_of)
               ++ ReadConfig config_path
               :: (if opt_truthy (arg_output args)
                   then [WriteSummary (default "" (arg_output args))
                           (summarize (rglob env ≫= scan_entries_of))]
                   else [])
    ∧ Forall (λ e, is_catalog_event e = false) events.
Proof.
  intros Hroot Hdry Hcfg Hne Himp Hpkg Hmiss.
  eexists. split_and!; [|reflexivity|].
  - apply truthy_non_empty in Hne.
    unfold main, scan_python_files. rewrite Hroot, Hdry, Hcfg.
    cbn [negb opt_truthy orb]. rewrite Hne. cbn [negb].
    rewrite (bind_Ok _ _ _ _ _ (scan_loop_run _ _ _)).
    rewrite (bind_Ok _ _ _ (yaml_config env)
               (mkState (mkRequests [] [] [])
                  ((rglob env ≫= scan_events_of) ++ [ReadConfig config_path])))
      by reflexivity.
    unfold create_openmetadata_entries, ensure_openmetadata_client, from_config.
    rewrite Himp, Hpkg.
    destruct (opt_truthy (arg_output args)).
    + erewrite bind_Ok by reflexivity.
      erewrite bind_Raise by (by apply init_helper_missing).
      cbn [trace]. by rewrite <- ?app_assoc.
    + erewrite bind_Ok by reflexivity.
      erewrite bind_Raise by (by apply init_helper_missing).
      cbn [trace]. by rewrite <- ?app_assoc.
  - apply Forall_app. split; [apply scan_events_no_catalog|].
    destruct (opt_truthy (arg_output args)); repeat constructor.
Qed.

Lemma missing_settings_abort_after_scan_witness :
  ∃ events,
    main one_file_env live_args initial_state
    = (Raise (RuntimeError missing_settings),
       mkState (mkRequests [] [] []) events)
    ∧ events = (rglob one_file_env ≫= scan_events_of)
               ++ ReadConfig "om.yml"
               :: (if opt_truthy (arg_output live_args)
                   then [WriteSummary (default "" (arg_output live_args))
                           (summarize (rglob one_file_env ≫= scan_entries_of))]
                   else [])
    ∧ Forall (λ e, is_catalog_event e = false) events.
Proof.
  apply (missing_settings_abort_after_scan one_file_env live_args "om.yml"
           demo_catalog); (reflexivity || discriminate).
Defined.

(** The claim's wording fails on any run with a source file: the file has
    been read and parsed by the time the configuration error is raised. *)
Lemma source_read_before_settings_error :
  main one_file_env live_args initial_state
  = (Raise (RuntimeError missing_settings),
     mkState (mkRequests [] [] [])
       [ReadSource ["/"; "repo"; "etl.py"]; ReadConfig "om.yml"])
  ∧ existsb is_read_source
      (trace (main one_file_env live_args initial_state).2) = true.
Proof. split; reflexivity. Qed.

(** ** The label line always has its colon *)

Lemma lower_char_colon (c : ascii) :
  lower_char c = ":"%char → c = ":"%char.
Proof. destruct c as [[] [] [] [] [] [] [] []]; vm_compute; congruence. Qed.

Lemma find_colon_lower (s : string) :
  is_Some (find ":"%char (lower s)) → is_Some (find ":"%char s).
Proof.
  induction s as [|c s IH]; [done|]. simpl.
  destruct (ascii_dec (lower_char c) ":"%char) as [Hc|Hc].
  - apply lower_char_colon in Hc as ->. simpl. eauto.
  - destruct (ascii_dec c ":"%char); [eauto|].
    intros [i Hi]. destruct (find ":"%char (lower s)); [|done].
    destruct IH as [j ->]; eauto.
Qed.

Lemma find_lstrip (c : ascii) (s : string) :
  is_Some (find c (lstrip s)) → is_Some (find c s).
Proof.
  induction s as [|a s IH]; [done|]. simpl.
  destruct (isspace a); [|done].
  intros [j ->]%IH. destruct (ascii_dec a c); eauto.
Qed.

Lemma find_rstrip (c : ascii) (s : string) :
  is_Some (find c (rstrip s)) → is_Some (find c s).
Proof.
  induction s as [|a s IH]; [done|]. cbn [rstrip find].
  destruct (ascii_dec a c) as [->|Hac]; [eauto|].
  destruct (rstrip s) as [|b r] eqn:Hr.
  - intros H. exfalso. destruct (isspace a); cbn [find] in H.
    + by destruct H.
    + destruct (ascii_dec a c); [done|]. by destruct H.
  - remember (String b r) as t eqn:Ht. cbn [find].
    destruct (ascii_dec a c); [done|].
    intros [i Hi]. destruct (find c t); [|done].
    destruct IH as [j ->]; eauto.
Qed.

Lemma find_startswith (c : ascii) (p s : string) :
  startswith p s = true → is_Some (find c p) → is_Some (find c s).
Proof.
  revert s. induction p as [|a p IH]; intros s; [by intros _ [? ?]|].
  destruct s as [|b s]; [done|]. simpl.
  destruct (ascii_dec a b) as [->|]; [|done].
  intros Hp. destruct (ascii_dec b c); [eauto|].
  intros [i Hi]. destruct (find c p); [|done].
  destruct (IH s Hp) as [j ->]; eauto.
Qed.

(** The index [1] of [split(":", 1)] exists on every label line: the
    branch of [label_section] without it is never taken. *)
Lemma label_line_has_colon (line : string) :
  is_label line = true → is_Some (split1 ":"%char line !! 1).
Proof.
  intros Hl.
  assert (is_Some (find ":"%char line)) as [i Hi].
  { apply find_lstrip, find_rstrip, find_colon_lower.
    apply (find_startswith _ _ _ Hl). by exists 12. }
  unfold split1. rewrite Hi. simpl. eauto.
Qed.

(** ** Soundness of the matcher *)

Lemma star_loop_matches {A : Type} (r : Re.regex)
    (IH : ∀ (pos : nat) (s : string) (g : Re.groups)
            (k : nat → string → Re.groups → option A) (a : A),
            Re.run r pos s g k = Some a →
            ∃ pos' s' g', matches r pos s g pos' s' g' ∧ k pos' s' g' = Some a)
    (k : nat → string → Re.groups → option A) :
  ∀ (fuel pos : nat) (s : string) (g : Re.groups) (a : A),
    (fix star (fuel : nat) (pos : nat) (s : string) (g : Re.groups)
       : option A :=
       match fuel with
       | O => k pos s g
       | S fuel' =>
           match Re.run r pos s g
                   (λ pos' s' g',
                      if Nat.ltb pos pos' then star fuel' pos' s' g'
                      else None) with
           | Some a => Some a
           | None => k pos s g
           end
       end) fuel pos s g = Some a →
    ∃ pos' s' g', matches (Re.Star r) pos s g pos' s' g' ∧ k pos' s' g' = Some a.
Proof.
  induction fuel as [|fuel IHf]; intros pos s g a Hrun.
  - exists pos, s, g. split; [apply matches_star_stop | done].
  - simpl in Hrun.
    match type of Hrun with
    | match ?x with _ => _ end = _ => destruct x as [a'|] eqn:H1
    end.
    + injection Hrun as ->.
      apply IH in H1 as (pos1 & s1 & g1 & H1 & Hk).
      destruct (Nat.ltb pos pos1); [|done].
      apply IHf in Hk as (pos2 & s2 & g2 & H2 & Hk).
      exists pos2, s2, g2. split; [by eapply matches_star_more | done].
    + exists pos, s, g. split; [apply matches_star_stop | done].
Qed.

Lemma run_matches {A : Type} (r : Re.regex) :
  ∀ (pos : nat) (s : string) (g : Re.groups)
    (k : nat → string → Re.groups → option A) (a : A),
    Re.run r pos s g k = Some a →
    ∃ pos' s' g', matches r pos s g pos' s' g' ∧ k pos' s' g' = Some a.
Proof.
  induction r as [p| |r1 IH1 r2 IH2|r1 IH1 r2 IH2|r IH|n r IH| |];
    intros pos s g k a Hrun; [simpl in Hrun..| |simpl in Hrun|simpl in Hrun|simpl in Hrun].
  - destruct s as [|c s]; [done|]. destruct (p c) eqn:Hp; [|done].
    exists (S pos), s, g. split; [by constructor | done].
  - exists pos, s, g. split; [constructor | done].
  - apply IH1 in Hrun as (pos1 & s1 & g1 & H1 & Hrun).
    apply IH2 in Hrun as (pos2 & s2 & g2 & H2 & Hk).
    exists pos2, s2, g2. split; [by econstructor | done].
  - destruct (Re.run r1 pos s g k) as [a'|] eqn:H1.
    + injection Hrun as ->. apply IH1 in H1 as (pos' & s' & g' & H1 & Hk).
      exists pos', s', g'. split; [by apply matches_alt_l | done].
    + apply IH2 in Hrun as (pos' & s' & g' & H2 & Hk).
      exists pos', s', g'. split; [by apply matches_alt_r | done].
  - exact (star_loop_matches r IH k (S (String.length s)) pos s g a Hrun).
  - apply IH in Hrun as (pos' & s' & g' & H1 & Hk).
    eexists _, _, _. split; [by constructor | exact Hk].
  - destruct (Nat.eqb pos 0) eqn:Hp; [|done]. apply Nat.eqb_eq in Hp as ->.
    exists 0, s, g. split; [constructor | done].
  - destruct s as [|c [|c' s]]; [| |done].
    + exists pos, "", g. split; [constructor; by left | done].
    + destruct (ord c =? 10)%N eqn:Hc; [|done].
      assert (c = "010"%char) as ->.
      { apply N.eqb_eq in Hc. unfold ord in Hc.
        rewrite <- (ascii_N_embedding c), Hc. reflexivity. }
      exists pos, (String "010" ""), g. split; [constructor; by right | done].
Qed.

Lemma append_cons (x : ascii) (a b : string) :
  String x a +:+ b = String x (a +:+ b).
Proof. reflexivity. Qed.

Lemma append_assoc (a b c : string) : a +:+ b +:+ c = (a +:+ b) +:+ c.
Proof. induction a as [|x a IH]; [done|]. by rewrite !append_cons, IH. Qed.

Lemma length_append (a b : string) :
  String.length (a +:+ b) = String.length a + String.length b.
Proof.
  induction a as [|x a IH]; [done|]. rewrite append_cons.
  cbn [String.length]. by rewrite IH.
Qed.

Lemma matches_extent (r : Re.regex) (pos : nat) (s : string) (g : Re.groups)
    (pos' : nat) (s' : string) (g' : Re.groups) :
  matches r pos s g pos' s' g' →
  ∃ w, s = w +:+ s' ∧ pos' = pos + String.length w.
Proof.
  induction 1 as [p c pos s g Hp|pos s g|r1 r2 pos s g pos1 s1 g1 pos2 s2 g2 _ IH1 _ IH2
                 |r1 r2 pos s g pos' s' g' _ IH|r1 r2 pos s g pos' s' g' _ IH
                 |r pos s g|r pos s g pos1 s1 g1 pos2 s2 g2 _ IH1 _ IH2
                 |n r pos s g pos' s' g' _ IH|s g|pos s g Hs].
  - exists (String c ""). split; [done | simpl; lia].
  - exists "". split; [done | simpl; lia].
  - destruct IH1 as (w1 & -> & ->), IH2 as (w2 & -> & ->).
    exists (w1 +:+ w2). split; [apply append_assoc | rewrite length_append; lia].
  - exact IH.
  - exact IH.
  - exists "". split; [done | simpl; lia].
  - destruct IH1 as (w1 & -> & ->), IH2 as (w2 & -> & ->).
    exists (w1 +:+ w2). split; [apply append_assoc | rewrite length_append; lia].
  - exact IH.
  - exists "". split; [done | simpl; lia].
  - exists "". split; [done | simpl; lia].
Qed.

Lemma matches_groupless (r : Re.regex) (pos : nat) (s : string) (g : Re.groups)
    (pos' : nat) (s' : string) (g' : Re.groups) :
  groupless r = true → matches r pos s g pos' s' g' → g' = g.
Proof.
  intros Hr Hm. induction Hm; simpl in Hr; try done.
  - apply andb_true_iff in Hr as [H1 H2].
    rewrite IHHm2, IHHm1 by done. done.
  - apply andb_true_iff in Hr as [H1 H2]. by apply IHHm.
  - apply andb_true_iff in Hr as [H1 H2]. by apply IHHm.
  - rewrite IHHm2, IHHm1 by done. done.
Qed.

Lemma take_append_length (w s : string) : take (String.length w) (w +:+ s) = w.
Proof. induction w as [|c w IH]; simpl; [by destruct s | by rewrite IH]. Qed.

(** The text recorded by a group is the text its pattern consumed. *)
Lemma matches_group_text (n : nat) (r : Re.regex) (pos : nat) (s : string)
    (g : Re.groups) (pos' : nat) (s' : string) (g' : Re.groups) :
  matches (Re.Group n r) pos s g pos' s' g' →
  ∃ w g1, s = w +:+ s' ∧ pos' = pos + String.length w
          ∧ matches r pos s g pos' s' g1 ∧ g' = (n, w) :: g1.
Proof.
  inversion 1 as [| | | | | | |n' r' p0 s0 g0 p1 s1 g1 Hm| |]; subst.
  destruct (matches_extent _ _ _ _ _ _ _ Hm) as (w & -> & ->).
  exists w, g1. split_and!; [done | done | done |].
  replace (pos + String.length w - pos) with (String.length w) by lia.
  by rewrite take_append_length.
Qed.

Lemma matches_chr_inv (p : ascii → bool) (pos : nat) (s : string) (g : Re.groups)
    (pos' : nat) (s' : string) (g' : Re.groups) :
  matches (Re.Chr p) pos s g pos' s' g' →
  ∃ c, s = String c s' ∧ p c = true ∧ pos' = S pos ∧ g' = g.
Proof. inversion 1; subst. eauto. Qed.

Lemma matches_seq_inv (r1 r2 : Re.regex) (pos : nat) (s : string) (g : Re.groups)
    (pos' : nat) (s' : string) (g' : Re.groups) :
  matches (Re.Seq r1 r2) pos s g pos' s' g' →
  ∃ pos1 s1 g1, matches r1 pos s g pos1 s1 g1 ∧ matches r2 pos1 s1 g1 pos' s' g'.
Proof. inversion 1; subst. eauto. Qed.

Lemma matches_star_chars (p : ascii → bool) (pos : nat) (s : string)
    (g : Re.groups) (pos' : nat) (s' : string) (g' : Re.groups) :
  matches (Re.Star (Re.Chr p)) pos s g pos' s' g' →
  ∃ w, s = w +:+ s' ∧ all_chars p w = true
       ∧ pos' = pos + String.length w ∧ g' = g.
Proof.
  intros Hm. remember (Re.Star (Re.Chr p)) as r eqn:Hr.
  induction Hm; try discriminate.
  - exists "". split_and!; [done | done | simpl; lia | done].
  - injection Hr as ->. destruct (IHHm2 eq_refl) as (w & -> & Hw & -> & ->).
    apply matches_chr_inv in Hm1 as (c & -> & Hc & -> & ->).
    exists (String c w). split_and!; [done | | simpl; lia | done].
    simpl. by rewrite Hc, Hw.
Qed.

Lemma matches_plus_chars (p : ascii → bool) (pos : nat) (s : string)
    (g : Re.groups) (pos' : nat) (s' : string) (g' : Re.groups) :
  matches (Re.plus (Re.Chr p)) pos s g pos' s' g' →
  ∃ w, s = w +:+ s' ∧ all_chars p w = true ∧ w ≠ ""
       ∧ pos' = pos + String.length w ∧ g' = g.
Proof.
  intros (pos1 & s1 & g1 & H1 & H2)%matches_seq_inv.
  apply matches_chr_inv in H1 as (c & -> & Hc & -> & ->).
  apply matches_star_chars in H2 as (w & -> & Hw & -> & ->).
  exists (String c w). split_and!; [done | | done | simpl; lia | done].
  simpl. by rewrite Hc, Hw.
Qed.

(** A literal word under case folding consumes a text equal to it up to
    case. *)
Lemma matches_word_i (w : string) (pos : nat) (s : string) (g : Re.groups)
    (pos' : nat) (s' : string) (g' : Re.groups) :
  matches (Re.word_i w) pos s g pos' s' g' →
  ∃ x, s = x +:+ s' ∧ lower x = lower w
       ∧ pos' = pos + String.length x ∧ g' = g.
Proof.
  revert pos s g. induction w as [|c w IH]; intros pos s g Hm.
  - inversion Hm; subst. exists "". split_and!; [done | done | simpl; lia | done].
  - destruct w as [|c' w].
    + apply matches_chr_inv in Hm as (x & -> & Hx & -> & ->).
      apply bool_decide_eq_true in Hx. exists (String x "").
      split_and!; [done | | simpl; lia | done].
      simpl. by rewrite Hx.
    + change (Re.word_i (String c (String c' w)))
        with (Re.Seq (Re.lit_i c) (Re.word_i (String c' w))) in Hm.
      apply matches_seq_inv in Hm as (pos1 & s1 & g1 & H1 & H2).
      apply matches_chr_inv in H1 as (x & -> & Hx & -> & ->).
      apply bool_decide_eq_true in Hx.
      apply IH in H2 as (y & -> & Hy & -> & ->).
      exists (String x y). split_and!; [done | | simpl; lia | done].
      change (lower (String x y)) with (String (lower_char x) (lower y)).
      by rewrite Hx, Hy.
Qed.

(** A literal word consumes exactly itself. *)
Lemma matches_word (w : string) (pos : nat) (s : string) (g : Re.groups)
    (pos' : nat) (s' : string) (g' : Re.groups) :
  matches (Re.word w) pos s g pos' s' g' →
  s = w +:+ s' ∧ pos' = pos + String.length w ∧ g' = g.
Proof.
  revert pos s g. induction w as [|c w IH]; intros pos s g Hm.
  - inversion Hm; subst. split_and!; [done | simpl; lia | done].
  - destruct w as [|c' w].
    + apply matches_chr_inv in Hm as (x & -> & Hx & -> & ->).
      apply bool_decide_eq_true in Hx. subst x.
      split_and!; [done | simpl; lia | done].
    + change (Re.word (String c (String c' w)))
        with (Re.Seq (Re.lit c) (Re.word (String c' w))) in Hm.
      apply matches_seq_inv in Hm as (pos1 & s1 & g1 & H1 & H2).
      apply matches_chr_inv in H1 as (x & -> & Hx & -> & ->).
      apply bool_decide_eq_true in Hx. subst x.
      apply IH in H2 as (-> & -> & ->).
      split_and!; [done | simpl; lia | done].
Qed.

Lemma matches_group_inv (n : nat) (r : Re.regex) (pos : nat) (s : string)
    (g : Re.groups) (pos' : nat) (s' : string) (g' : Re.groups) :
  matches (Re.Group n r) pos s g pos' s' g' →
  ∃ g1, matches r pos s g pos' s' g1 ∧ g' = (n, take (pos' - pos) s) :: g1.
Proof. inversion 1; subst. eauto. Qed.

Lemma take_consumed (pos : nat) (w s : string) :
  take (pos + String.length w - pos) (w +:+ s) = w.
Proof.
  replace (pos + String.length w - pos) with (String.length w) by lia.
  apply take_append_length.
Qed.

(** The direction group of the two line patterns records "upstream" or
    "downstream" up to case. *)
Lemma matches_direction_i (pos : nat) (s : string) (g : Re.groups)
    (pos' : nat) (s' : string) (g' : Re.groups) :
  matches (Re.Group 1 (Re.Alt (Re.word_i "upstream") (Re.word_i "downstream")))
    pos s g pos' s' g' →
  ∃ d, g' = (1, d) :: g ∧ (lower d = "upstream" ∨ lower d = "downstream").
Proof.
  intros (g1 & Hm & ->)%matches_group_inv.
  inversion Hm as [| | |r1 r2 p0 s0 g0 p1 s1 g2 Hw|r1 r2 p0 s0 g0 p1 s1 g2 Hw| | | | |];
    subst;
    [apply (matches_word_i "upstream") in Hw as (x & -> & Hx & -> & ->)
    |apply (matches_word_i "downstream") in Hw as (x & -> & Hx & -> & ->)];
    exists x; rewrite take_consumed; (split; [done|]); [by left | by right].
Qed.

(** The direction group of the inline pattern records exactly "upstream"
    or "downstream". *)
Lemma matches_direction (pos : nat) (s : string) (g : Re.groups)
    (pos' : nat) (s' : string) (g' : Re.groups) :
  matches (Re.Group 1 (Re.Alt (Re.word "upstream") (Re.word "downstream")))
    pos s g pos' s' g' →
  ∃ d, g' = (1, d) :: g ∧ (d = "upstream" ∨ d = "downstream").
Proof.
  intros (g1 & Hm & ->)%matches_group_inv.
  inversion Hm as [| | |r1 r2 p0 s0 g0 p1 s1 g2 Hw|r1 r2 p0 s0 g0 p1 s1 g2 Hw| | | | |];
    subst;
    [apply (matches_word "upstream") in Hw as (-> & -> & ->)
    |apply (matches_word "downstream") in Hw as (-> & -> & ->)];
    eexists; rewrite take_consumed; (split; [done|]); [by left | by right].
Qed.

Lemma matches_group_chars (n : nat) (p : ascii → bool) (pos : nat) (s : string)
    (g : Re.groups) (pos' : nat) (s' : string) (g' : Re.groups) :
  matches (Re.Group n (Re.plus (Re.Chr p))) pos s g pos' s' g' →
  ∃ w, g' = (n, w) :: g ∧ all_chars p w = true ∧ w ≠ "".
Proof.
  intros (g1 & Hm & ->)%matches_group_inv.
  apply matches_plus_chars in Hm as (w & -> & Hw & Hne & -> & ->).
  exists w. by rewrite take_consumed.
Qed.

Lemma rematch_matches (r : Re.regex) (s : string) (m : Re.groups) :
  Re.rematch r s = Some m → ∃ pos' s', matches r 0 s [] pos' s' m.
Proof.
  unfold Re.rematch, Re.match_at. intros Hm.
  destruct (Re.run r 0 s [] _) as [[m' len]|] eqn:Hrun; [|done].
  injection Hm as <-.
  apply run_matches in Hrun as (pos' & s' & g' & Hmat & Hk).
  injection Hk as -> _. eauto.
Qed.

(** Both line patterns record a direction, "upstream" or "downstream" up
    to case, and a rest. *)
Lemma line_pattern_groups (pat : Re.regex) (line : string) (m : Re.groups) :
  pat = DIRECTIVE_LINE ∨ pat = FIELD_LIST_LINE →
  Re.rematch pat line = Some m →
  ∃ d rest, Re.group 1 m = Some d ∧ Re.group 2 m = Some rest
            ∧ (lower d = "upstream" ∨ lower d = "downstream").
Proof.
  intros Hpat (pos' & s' & Hm)%rematch_matches.
  destruct Hpat as [-> | ->]; unfold DIRECTIVE_LINE, FIELD_LIST_LINE in Hm;
    cbn [Re.seqs] in Hm;
    repeat match goal with
    | H : matches (Re.Seq _ _) _ _ _ _ _ _ |- _ =>
        apply matches_seq_inv in H as (? & ? & ? & ? & H)
    end;
    repeat match goal with
    | H : matches (Re.Group 1 _) _ _ _ _ _ _ |- _ =>
        apply matches_direction_i in H as (d & -> & Hd)
    | H : matches (Re.Group 2 _) _ _ _ _ _ _ |- _ =>
        apply matches_group_chars in H as (rest & -> & _ & _)
    | H : matches ?r _ _ _ _ _ _ |- _ =>
        apply (matches_groupless r) in H; [subst | reflexivity]
    end;
    exists d, rest; done.
Qed.

Lemma match_at_matches (r : Re.regex) (pos : nat) (s : string)
    (m : Re.groups) (len : nat) :
  Re.match_at r pos s = Some (m, len) → ∃ pos' s', matches r pos s [] pos' s' m.
Proof.
  unfold Re.match_at. intros Hrun.
  apply run_matches in Hrun as (pos' & s' & g' & Hmat & Hk).
  injection Hk as -> _. eauto.
Qed.

Lemma finditer_from_match (r : Re.regex) (s : string) :
  ∀ pos skip m, m ∈ Re.finditer_from r pos skip s →
  ∃ pos0 s0 len, Re.match_at r pos0 s0 = Some (m, len).
Proof.
  induction s as [|c s IH]; intros pos skip m Hm.
  - destruct skip; simpl in Hm; [|by apply elem_of_nil in Hm].
    destruct (Re.match_at r pos "") as [[g len]|] eqn:Hat;
      [|by apply elem_of_nil in Hm].
    apply list_elem_of_singleton in Hm as ->. eauto.
  - destruct skip as [|skip]; cbn [Re.finditer_from] in Hm; [|by eapply IH].
    destruct (Re.match_at r pos (String c s)) as [[g len]|] eqn:Hat;
      [|by eapply IH].
    apply elem_of_cons in Hm as [-> | Hm]; [eauto | by eapply IH].
Qed.

(** Each match of the inline pattern records a direction that is exactly
    "upstream" or "downstream", an application without colon or
    parenthesis, and a field. *)
Lemma tag_pattern_groups (docstring : string) (m : Re.groups) :
  m ∈ Re.finditer TAG_PATTERN docstring →
  ∃ d app fld,
    Re.group 1 m = Some d ∧ Re.group 2 m = Some app ∧ Re.group 3 m = Some fld
    ∧ (d = "upstream" ∨ d = "downstream")
    ∧ all_chars (λ x, bool_decide (find x ":()" = None)) app = true.
Proof.
  intros (pos0 & s0 & len & Hat)%finditer_from_match.
  apply match_at_matches in Hat as (pos' & s' & Hm).
  unfold TAG_PATTERN in Hm. cbn [Re.seqs] in Hm.
  repeat match goal with
  | H : matches (Re.Seq _ _) _ _ _ _ _ _ |- _ =>
      apply matches_seq_inv in H as (? & ? & ? & ? & H)
  end.
  repeat match goal with
  | H : matches (Re.Group 1 _) _ _ _ _ _ _ |- _ =>
      apply matches_direction in H as (d & -> & Hd)
  | H : matches (Re.Group 2 _) _ _ _ _ _ _ |- _ =>
      apply matches_group_chars in H as (app & -> & Happ & _)
  | H : matches (Re.Group 3 _) _ _ _ _ _ _ |- _ =>
      apply matches_group_chars in H as (fld & -> & _ & _)
  | H : matches ?r _ _ _ _ _ _ |- _ =>
      apply (matches_groupless r) in H; [subst | reflexivity]
  end.
  exists d, app, fld. done.
Qed.

(** ** Colons and white space in the parts *)

Lemma find_none_of (cs w : string) (c : ascii) :
  all_chars (λ x, bool_decide (find x cs = None)) w = true →
  is_Some (find c cs) → find c w = None.
Proof.
  intros Hw [i Hc]. induction w as [|x w IH]; [done|].
  cbn [all_chars] in Hw. apply andb_true_iff in Hw as [Hx Hw].
  apply bool_decide_eq_true in Hx. cbn [find].
  destruct (ascii_dec x c) as [->|_]; [congruence|]. by rewrite IH.
Qed.

Lemma find_strip_None (c : ascii) (s : string) :
  find c s = None → find c (strip s) = None.
Proof.
  intros Hs. destruct (find c (strip s)) as [i|] eqn:Hf; [|done].
  assert (is_Some (find c s)) as [j Hj]; [|congruence].
  apply find_lstrip, find_rstrip. unfold strip in Hf. eauto.
Qed.

Lemma find_lstrip_Some (c : ascii) (s : string) :
  isspace c = false → is_Some (find c s) → is_Some (find c (lstrip s)).
Proof.
  intros Hc. induction s as [|a s IH]; [done|]. cbn [lstrip find].
  destruct (ascii_dec a c) as [->|Hac].
  - intros _. rewrite Hc. cbn [find]. destruct (ascii_dec c c); [eauto|done].
  - intros [i Hi]. destruct (find c s) as [j|] eqn:Hj; [|done].
    destruct (isspace a); [by apply IH|].
    cbn [find]. destruct (ascii_dec a c); [done|]. rewrite Hj. eauto.
Qed.

Lemma find_rstrip_Some (c : ascii) (s : string) :
  isspace c = false → is_Some (find c s) → is_Some (find c (rstrip s)).
Proof.
  intros Hc. induction s as [|a s IH]; [done|]. cbn [rstrip find].
  destruct (ascii_dec a c) as [->|Hac].
  - intros _. destruct (rstrip s) as [|b r]; [rewrite Hc|];
      cbn [find]; destruct (ascii_dec c c); eauto; done.
  - intros [i Hi]. destruct (find c s) as [j|] eqn:Hj; [|done].
    destruct (IH ltac:(eauto)) as [k Hk].
    destruct (rstrip s) as [|b r] eqn:Hr; [done|].
    remember (String b r) as t. cbn [find].
    destruct (ascii_dec a c); [done|]. rewrite Hk. eauto.
Qed.

Lemma find_take (c : ascii) (s : string) (i : nat) :
  find c s = Some i → find c (take i s) = None.
Proof.
  revert i. induction s as [|a s IH]; intros i; [done|]. cbn [find].
  destruct (ascii_dec a c) as [->|Hac].
  - by intros [= <-].
  - destruct (find c s) as [j|]; [|done]. intros [= <-].
    cbn [take find]. destruct (ascii_dec a c); [done|]. by rewrite IH.
Qed.

Lemma lstrip_head (s : string) :
  match lstrip s with
  | EmptyString => True
  | String c _ => isspace c = false
  end.
Proof.
  induction s as [|a s IH]; [done|]. cbn [lstrip].
  destruct (isspace a) eqn:Ha; [exact IH | exact Ha].
Qed.

Lemma rstrip_rstrip (s : string) : rstrip (rstrip s) = rstrip s.
Proof.
  induction s as [|a s IH]; [done|]. cbn [rstrip].
  destruct (rstrip s) as [|b r] eqn:Hr.
  - destruct (isspace a) eqn:Ha; [done|]. cbn [rstrip]. by rewrite Ha.
  - remember (String b r) as t. cbn [rstrip]. rewrite IH. by subst t.
Qed.

Lemma lstrip_rstrip (s : string) :
  match s with EmptyString => True | String c _ => isspace c = false end →
  lstrip (rstrip s) = rstrip s.
Proof.
  destruct s as [|a s]; [done|]. intros Ha. cbn [rstrip].
  destruct (rstrip s) as [|b r]; rewrite ?Ha; cbn [lstrip]; by rewrite Ha.
Qed.

(** Trimming twice is trimming once. *)
Lemma strip_strip (s : string) : strip (strip s) = strip s.
Proof.
  unfold strip. rewrite (lstrip_rstrip (lstrip s)) by apply lstrip_head.
  apply rstrip_rstrip.
Qed.

Lemma isspace_colon : isspace ":"%char = false.
Proof. reflexivity. Qed.

Lemma find_split (c : ascii) (s : string) (i : nat) :
  find c s = Some i → s = take i s +:+ String c (drop (S i) s).
Proof.
  revert i. induction s as [|a s IH]; intros i; [done|]. cbn [find].
  destruct (ascii_dec a c) as [->|Hac].
  - by intros [= <-].
  - destruct (find c s) as [j|] eqn:Hj; [|done]. intros [= <-].
    cbn [take drop]. rewrite append_cons. f_equal. by apply IH.
Qed.

Lemma split_app_field_Some (text app fld : string) :
  _split_app_field text = Some (app, fld) →
  ∃ before after,
    strip text = before +:+ String ":" after
    ∧ find ":"%char before = None
    ∧ app = strip before ∧ fld = strip after.
Proof.
  unfold _split_app_field. destruct (negb (truthy (strip text))); [done|].
  destruct (find ":"%char (strip text)) as [idx|] eqn:Hidx; [|done].
  intros [= <- <-]. exists (take idx (strip text)), (drop (S idx) (strip text)).
  split_and!; [by apply find_split | by apply find_take | done | done].
Qed.

Lemma split_app_field_None (text : string) :
  _split_app_field text = None ↔ find ":"%char text = None.
Proof.
  unfold _split_app_field. split.
  - intros H. destruct (find ":"%char text) as [i|] eqn:Hi; [|done].
    destruct (find_rstrip_Some ":" (lstrip text) isspace_colon
                (find_lstrip_Some ":" text isspace_colon ltac:(eauto)))
      as [j Hj].
    fold (strip text) in Hj. rewrite Hj in H.
    destruct (strip text); [done|]. done.
  - intros H%find_strip_None. rewrite H. by destruct (negb _).
Qed.

(** X1: a comma-separated part is dropped exactly when it has no colon;
    otherwise it is cut at its first colon, so that the application never
    holds a colon, and both names come out trimmed. *)
Theorem split_app_field_first_colon (text : string) :
  match _split_app_field text with
  | None => find ":"%char text = None
  | Some (app, fld) =>
      is_Some (find ":"%char text)
      ∧ (∃ before after,
           strip text = before +:+ String ":" after
           ∧ find ":"%char before = None
           ∧ app = strip before ∧ fld = strip after)
      ∧ find ":"%char app = None
      ∧ strip app = app ∧ strip fld = fld
  end.
Proof.
  destruct (_split_app_field text) as [[app fld]|] eqn:Hs.
  - destruct (split_app_field_Some _ _ _ Hs) as (b & a & Ht & Hb & -> & ->).
    split_and!.
    + destruct (find ":"%char text) eqn:Hf; [eauto|].
      apply split_app_field_None in Hf. congruence.
    + by exists b, a.
    + by apply find_strip_None.
    + apply strip_strip.
    + apply strip_strip.
  - by apply split_app_field_None.
Qed.

Lemma refs_of_rest_well_formed (d rest : string) :
  d = "upstream" ∨ d = "downstream" →
  Forall well_formed_ref (refs_of_rest d rest).
Proof.
  intros Hd. unfold refs_of_rest. apply Forall_bind, Forall_forall.
  intros part _. simpl.
  destruct (_split_app_field part) as [[app fld]|] eqn:Hs; [|constructor].
  destruct (split_app_field_Some _ _ _ Hs) as (b & a & Ht & Hb & -> & ->).
  constructor; [|constructor]. unfold well_formed_ref. simpl.
  split_and!; [done | by apply find_strip_None | apply strip_strip..].
Qed.

Lemma refs_of_line_well_formed (pat : Re.regex) (line : string) :
  pat = DIRECTIVE_LINE ∨ pat = FIELD_LIST_LINE →
  Forall well_formed_ref (refs_of_line pat line).
Proof.
  intros Hpat. unfold refs_of_line.
  destruct (Re.rematch pat line) as [m|] eqn:Hm; [|constructor].
  destruct (line_pattern_groups pat line m Hpat Hm) as (d & rest & -> & -> & Hd).
  by apply refs_of_rest_well_formed.
Qed.

Lemma collect_refs_well_formed (doc : string) :
  Forall well_formed_ref (collect_refs doc).
Proof.
  unfold collect_refs. rewrite !Forall_app. split_and!.
  - unfold section_refs. apply Forall_bind, Forall_forall. intros raw _. simpl.
    destruct (negb (truthy (strip raw))); [constructor|].
    apply refs_of_line_well_formed. by left.
  - unfold field_list_refs. apply Forall_bind, Forall_forall. intros raw _.
    apply refs_of_line_well_formed. by right.
  - unfold inline_refs. apply Forall_bind, Forall_forall. intros m Hm. simpl.
    destruct (tag_pattern_groups doc m Hm)
      as (d & app & fld & -> & -> & -> & Hd & Happ).
    constructor; [|constructor]. unfold well_formed_ref. simpl.
    split_and!; [done | | apply strip_strip..].
    apply find_strip_None. apply (find_none_of ":()" app); [done | by exists 0].
Qed.

Lemma deduplicate_Forall (P : MetadataRef → Prop) (refs : list MetadataRef) :
  Forall P refs → Forall P (deduplicate refs).
Proof.
  intros Hall. rewrite deduplicate_first_occurrences. apply Forall_forall.
  intros r Hr. apply (proj1 (first_occurrences_elem _ _)) in Hr.
  by apply (proj1 (Forall_forall _ _) Hall).
Qed.

Lemma parsed_refs_well_formed (docstring : option string) :
  Forall well_formed_ref (parse_docstring_for_tags docstring).
Proof.
  unfold parse_docstring_for_tags. destruct docstring as [doc|]; [|constructor].
  destruct (negb (truthy doc)); [constructor|].
  apply deduplicate_Forall, collect_refs_well_formed.
Qed.

(** X2: whatever the documentation string and whichever syntax a
    declaration is written in, the declaration returned has an application
    without a colon, and an application and a field without white space
    around. *)
Theorem declarations_well_formed (docstring : option string) :
  Forall well_named (parse_docstring_for_tags docstring).
Proof.
  apply (Forall_impl _ _ _ (parsed_refs_well_formed docstring)).
  by intros r (_ & Hns).
Qed.

(** X3: in a documentation string of code points below 256, the range of
    the strings here, every declaration returned has the direction
    "upstream" or "downstream", in lower case, however the direction is
    capitalised in the text.  (Beyond that range the case folding of
    [re.IGNORECASE] accepts more than [str.lower] normalises.) *)
Theorem directions_lower_case (docstring : option string) :
  Forall (λ r, direction r = "upstream" ∨ direction r = "downstream")
    (parse_docstring_for_tags docstring).
Proof.
  apply (Forall_impl _ _ _ (parsed_refs_well_formed docstring)).
  by intros r (Hd & _).
Qed.

(** ** The label style *)

Lemma label_section_first (pre : list string) (l : string) (rest : list string)
    (after : string) :
  existsb is_label pre = false → is_label l = true →
  split1 ":"%char l !! 1 = Some after →
  label_section (pre ++ l :: rest)
  = Some ((if truthy (strip after) then [after] else []) ++ label_block rest).
Proof.
  intros Hpre Hl Hafter. induction pre as [|x pre IH].
  - simpl. by rewrite Hl, Hafter.
  - cbn [existsb] in Hpre. apply orb_false_iff in Hpre as [Hx Hpre].
    rewrite <- app_comm_cons. cbn [label_section]. rewrite Hx. by apply IH.
Qed.

Lemma label_block_prefix (rest : list string) :
  ∃ tail, rest = label_block rest ++ tail
    ∧ Forall (λ b, truthy (strip b) = true) (label_block rest)
    ∧ (tail = [] ∨ ∃ b tl, tail = b :: tl ∧ truthy (strip b) = false).
Proof.
  induction rest as [|b rest IH].
  - exists []. split_and!; [done | constructor | by left].
  - cbn [label_block]. destruct (truthy (strip b)) eqn:Hb.
    + destruct IH as (tail & Heq & Hall & Htail). exists tail.
      split_and!; [by rewrite <- app_comm_cons, <- Heq | by constructor | done].
    + exists (b :: rest). split_and!; [done | constructor | right; eauto].
Qed.

Lemma split1_colon (l after : string) :
  split1 ":"%char l !! 1 = Some after →
  ∃ before, l = before +:+ String ":" after ∧ find ":"%char before = None.
Proof.
  unfold split1. destruct (find ":"%char l) as [i|] eqn:Hi; [|done].
  intros [= <-]. exists (take i l). split; [by apply find_split | by apply find_take].
Qed.

(** X4: without a section heading, the first line starting with
    "OpenMetadata:" opens a block: the text after the first colon of that
    line, kept when it is not blank, then the lines that follow up to, not
    including, the first blank line. *)
Theorem label_block_until_blank
    (docstring : string) (pre : list string) (l : string) (rest : list string) :
  splitlines docstring = pre ++ l :: rest →
  has_section_heading (splitlines docstring) = false →
  existsb is_label pre = false → is_label l = true →
  ∃ before after block tail,
    l = before +:+ String ":" after ∧ find ":"%char before = None
    ∧ _extract_openmetadata_section_lines docstring
      = (if truthy (strip after) then [after] else []) ++ block
    ∧ rest = block ++ tail
    ∧ Forall (λ b, truthy (strip b) = true) block
    ∧ (tail = [] ∨ ∃ b tl, tail = b :: tl ∧ truthy (strip b) = false).
Proof.
  intros Hlines Hsec Hpre Hl.
  destruct (label_line_has_colon l Hl) as [after Hafter].
  destruct (split1_colon l after Hafter) as (before & Hbefore & Hnone).
  destruct (label_block_prefix rest) as (tail & Hrest & Hall & Htail).
  exists before, after, (label_block rest), tail.
  split_and!; [done | done | | done | done | done].
  unfold _extract_openmetadata_section_lines.
  rewrite (rest_section_none _ Hsec), Hlines.
  by rewrite (label_section_first pre l rest after Hpre Hl Hafter).
Qed.

Lemma label_block_until_blank_witness :
  ∃ before after block tail,
    "  OpenMetadata: upstream: billing:amount"
    = before +:+ String ":" after ∧ find ":"%char before = None
    ∧ _extract_openmetadata_section_lines label_doc
      = (if truthy (strip after) then [after] else []) ++ block
    ∧ ["  downstream: crm:name"; ""; "Returns the total."] = block ++ tail
    ∧ Forall (λ b, truthy (strip b) = true) block
    ∧ (tail = [] ∨ ∃ b tl, tail = b :: tl ∧ truthy (strip b) = false).
Proof.
  apply (label_block_until_blank label_doc ["Compute the total."; ""]);
    vm_compute; reflexivity.
Defined.

(** ** The scan *)

Lemma scan_loop_returns (files : list (Path * result node))
    (entries : list FileEntry) (s : State) :
  forallb (λ f, negb (stops_scan f)) files = true →
  scan_loop files entries s
  = (Ok (entries ++ (files ≫= kept_entries_of)),
     mkState (_requests s) (trace s ++ (files ≫= read_events_of))).
Proof.
  revert entries s. induction files as [|[p src] files IH]; intros entries s Hgo.
  - simpl. rewrite !app_nil_r. by destruct s.
  - cbn [forallb] in Hgo. apply andb_true_iff in Hgo as [Hf Hgo].
    rewrite !bind_cons. cbn [scan_loop].
    unfold stops_scan in Hf. unfold kept_entries_of at 1, read_events_of at 1.
    cbn [fst snd] in Hf |- *. revert Hf.
    generalize (startswith "__" (path_name p)). intros [|] Hf.
    + by apply IH.
    + cbn [negb andb] in Hf. destruct src as [tree|e].
      * run_monad. rewrite (IH _ _ Hgo). simpl. by rewrite <- !app_assoc.
      * destruct e; try discriminate; run_monad; rewrite (IH _ _ Hgo); simpl;
          by rewrite <- !app_assoc.
Qed.

Lemma scan_loop_stops (pre post : list (Path * result node)) (p : Path)
    (e : exn) (entries : list FileEntry) (s : State) :
  forallb (λ f, negb (stops_scan f)) pre = true →
  stops_scan (p, Raise e) = true →
  scan_loop (pre ++ (p, Raise e) :: post) entries s
  = (Raise e,
     mkState (_requests s)
       (trace s ++ (pre ≫= read_events_of) ++ [ReadSource p])).
Proof.
  revert entries s. induction pre as [|[q src] pre IH]; intros entries s Hgo Hstop.
  - unfold stops_scan in Hstop. cbn [fst snd] in Hstop.
    apply andb_true_iff in Hstop as [Hp He]. apply negb_true_iff in Hp, He.
    cbn [List.app scan_loop]. rewrite Hp.
    destruct e; try discriminate; reflexivity.
  - cbn [forallb] in Hgo. apply andb_true_iff in Hgo as [Hf Hgo].
    rewrite <- app_comm_cons, bind_cons. cbn [scan_loop].
    unfold stops_scan in Hf. unfold read_events_of at 1.
    cbn [fst snd] in Hf |- *. revert Hf.
    generalize (startswith "__" (path_name q)). intros [|] Hf.
    + by apply IH.
    + cbn [negb andb] in Hf. destruct src as [tree|e'].
      * run_monad. rewrite (IH _ _ Hgo Hstop). simpl. by rewrite <- !app_assoc.
      * destruct e'; try discriminate; run_monad; rewrite (IH _ _ Hgo Hstop);
          simpl; by rewrite <- !app_assoc.
Qed.

(** X5: the scan catches a syntax error and a decoding error, nothing
    else.  When no file that is read raises anything else, the scan
    returns one entry, in enumeration order, for each file that is not a
    dunder file and parses; a file with a caught error is read, reported on
    the error stream and left out, and the files after it are still
    scanned; dunder files are not even read.  Any other exception raised by
    the reading or the parsing of a file leaves the scan at that file: the
    files after it are not read and no entry is returned.  In either case
    the request log is left alone. *)
Theorem scan_python_files_keeps_going
    (files : list (Path * result node)) (s : State) :
  (forallb (λ f, negb (stops_scan f)) files = true →
   scan_loop files [] s
   = (Ok (files ≫= kept_entries_of),
      mkState (_requests s) (trace s ++ (files ≫= read_events_of))))
  ∧ (∀ pre p e post,
       files = pre ++ (p, Raise e) :: post →
       forallb (λ f, negb (stops_scan f)) pre = true →
       stops_scan (p, Raise e) = true →
       scan_loop files [] s
       = (Raise e,
          mkState (_requests s)
            (trace s ++ (pre ≫= read_events_of) ++ [ReadSource p]))).
Proof.
  split.
  - intros Hgo. by rewrite scan_loop_returns.
  - intros pre p e post -> Hgo Hstop. by apply scan_loop_stops.
Qed.

Lemma scan_python_files_keeps_going_witness :
  scan_loop (firstn 3 mixed_files) [] initial_state
  = (Ok [extract_functions_from_tree ["/"; "repo"; "etl.py"] flat_tree],
     mkState (mkRequests [] [] [])
       [ ReadSource ["/"; "repo"; "etl.py"];
         ReadSource ["/"; "repo"; "draft.py"];
         Stderr "Skipping /repo/draft.py due to SyntaxError: invalid syntax" ])
  ∧ scan_loop mixed_files [] initial_state
    = (Raise ValueError,
       mkState (mkRequests [] [] [])
         [ ReadSource ["/"; "repo"; "etl.py"];
           ReadSource ["/"; "repo"; "draft.py"];
           Stderr "Skipping /repo/draft.py due to SyntaxError: invalid syntax";
           ReadSource ["/"; "repo"; "blob.py"] ]).
Proof.
  split.
  - apply (scan_python_files_keeps_going (firstn 3 mixed_files) initial_state).
    reflexivity.
  - apply (scan_python_files_keeps_going mixed_files initial_state)
      with (pre := firstn 3 mixed_files) (post := skipn 4 mixed_files);
      reflexivity.
Defined.

(** ** The dry run *)

(** X6: when the dry-run flag is set or no configuration file is given,
    then however the run ends it sends nothing to the catalog and logs no
    request; when it ends normally, the last thing it does is print the
    summary of the scanned files. *)
Theorem dry_run_leaves_catalog_alone (env : Env) (args : Args) :
  arg_dry_run args = true ∨ opt_truthy (arg_config args) = false →
  ∃ out events,
    main env args initial_state
    = (out, mkState (mkRequests [] [] []) events)
    ∧ Forall (λ e, is_catalog_event e = false) events
    ∧ (out = Ok () →
       last events
       = Some (PrintSummary (summarize (rglob env ≫= scan_entries_of)))).
Proof.
  intros Hdry.
  assert (Hflag : arg_dry_run args || negb (opt_truthy (arg_config args)) = true).
  { destruct Hdry as [-> | ->]; [done | by rewrite orb_true_r]. }
  unfold main. destruct (root_exists env); cbn [negb].
  2:{ run_monad. eexists _, _. split_and!; [reflexivity | | done].
      repeat constructor. }
  unfold scan_python_files. rewrite Hflag.
  rewrite (bind_Ok _ _ _ _ _ (scan_loop_run _ _ _)).
  unfold create_openmetadata_entries, load_config.
  pose proof (scan_events_no_catalog (rglob env)) as Hscan.
  destruct (arg_config args) as [p|]; cbn [opt_truthy];
    [destruct (truthy p)|]; destruct (opt_truthy (arg_output args));
    run_monad; eexists _, _; (split_and!; [reflexivity | |intros _]);
    rewrite ?app_nil_r, <- ?app_assoc;
    try (rewrite !Forall_app; split_and!; [exact Hscan | repeat constructor..]);
    try (rewrite !last_app; reflexivity).
Qed.

Lemma dry_run_leaves_catalog_alone_witness :
  ∃ out events,
    main one_file_env (mkArgs "." (Some "om.yml") true None) initial_state
    = (out, mkState (mkRequests [] [] []) events)
    ∧ Forall (λ e, is_catalog_event e = false) events
    ∧ (out = Ok () →
       last events
       = Some (PrintSummary (summarize (rglob one_file_env ≫= scan_entries_of)))).
Proof.
  apply (dry_run_leaves_catalog_alone one_file_env
           (mkArgs "." (Some "om.yml") true None)).
  left. reflexivity.
Defined.

(** ** The offline log *)

Lemma grown_nil (r : Requests) : grown r [] [] = r.
Proof. destruct r. unfold grown. simpl. by rewrite !app_nil_r. Qed.

Lemma grown_grown (r : Requests) (a1 a2 : list PipelineAction)
    (r1 r2 : list LineageRecord) :
  grown (grown r a1 r1) a2 r2 = grown r (a1 ++ a2) (r1 ++ r2).
Proof. unfold grown. simpl. by rewrite !app_assoc. Qed.

Lemma last_flush_app (e1 e2 : list Event) :
  last_flush (e1 ++ e2)
  = match last_flush e2 with Some r => Some r | None => last_flush e1 end.
Proof.
  induction e1 as [|e e1 IH]; [simpl; by destruct (last_flush e2)|].
  rewrite <- app_comm_cons. cbn [last_flush]. rewrite IH.
  by destruct (last_flush e2).
Qed.

Lemma nothing_logged_true (acts : list PipelineAction) (recs : list LineageRecord) :
  nothing_logged acts recs = true → acts = [] ∧ recs = [].
Proof. by destruct acts, recs. Qed.

Lemma nothing_logged_app_false (a1 a2 : list PipelineAction)
    (r1 r2 : list LineageRecord) :
  nothing_logged a2 r2 = false → nothing_logged (a1 ++ a2) (r1 ++ r2) = false.
Proof. destruct a1, a2, r1, r2; done. Qed.

Lemma logs_offline_ret {A} (a : A) (s : State) :
  logs_offline (ret a) s (Ok a) [] [].
Proof.
  exists []. split_and!; [|done..].
  unfold ret. rewrite grown_nil, app_nil_r. by destruct s.
Qed.

Lemma logs_offline_bind {A B} (m : M A) (k : A → M B) (s : State) (a : A)
    (out : result B) (a1 a2 : list PipelineAction) (r1 r2 : list LineageRecord) :
  logs_offline m s (Ok a) a1 r1 →
  (∀ s1, logs_offline (k a) s1 out a2 r2) →
  logs_offline (bind m k) s out (a1 ++ a2) (r1 ++ r2).
Proof.
  intros (e1 & Hm & He1 & Hf1) Hk.
  destruct (Hk (mkState (grown (_requests s) a1 r1) (trace s ++ e1)))
    as (e2 & Hk2 & He2 & Hf2).
  cbn [_requests trace] in Hk2, Hf2. rewrite grown_grown in Hk2, Hf2.
  exists (e1 ++ e2). split_and!.
  - unfold bind. rewrite Hm, Hk2. by rewrite app_assoc.
  - by rewrite forallb_app, He1, He2.
  - rewrite last_flush_app, Hf2.
    destruct (nothing_logged a2 r2) eqn:Hn.
    + apply nothing_logged_true in Hn as [-> ->]. by rewrite !app_nil_r.
    + by rewrite (nothing_logged_app_false a1 a2 r1 r2 Hn).
Qed.

Lemma logs_offline_raise {A B} (m : M A) (k : A → M B) (s : State) (e : exn)
    (acts : list PipelineAction) (recs : list LineageRecord) :
  logs_offline m s (Raise e) acts recs →
  logs_offline (bind m k) s (Raise e) acts recs.
Proof.
  intros (e1 & Hm & He1 & Hf1). exists e1. split_and!; [|done..].
  unfold bind. by rewrite Hm.
Qed.

Lemma logs_offline_for_each {A} (body : A → M unit)
    (fa : A → list PipelineAction) (fr : A → list LineageRecord) (xs : list A) :
  Forall (λ x, ∀ s, logs_offline (body x) s (Ok ()) (fa x) (fr x)) xs →
  ∀ s, logs_offline (for_each xs body) s (Ok ()) (xs ≫= fa) (xs ≫= fr).
Proof.
  induction 1 as [|x xs Hx _ IH]; intros s; [apply logs_offline_ret|].
  rewrite !bind_cons. cbn [for_each].
  apply (logs_offline_bind _ _ _ ()); [apply Hx | apply IH].
Qed.

(** A loop whose body raises on some element stops there: what was logged
    for the elements before it stays, the elements after it are not
    touched. *)
Lemma logs_offline_for_each_abort {A} (body : A → M unit)
    (fa : A → list PipelineAction) (fr : A → list LineageRecord)
    (pre : list A) (x : A) (post : list A) (e : exn) :
  Forall (λ x, ∀ s, logs_offline (body x) s (Ok ()) (fa x) (fr x)) pre →
  (∀ s, logs_offline (body x) s (Raise e) [] []) →
  ∀ s, logs_offline (for_each (pre ++ x :: post) body) s (Raise e)
         (pre ≫= fa) (pre ≫= fr).
Proof.
  intros Hpre Hx. induction Hpre as [|y pre Hy _ IH]; intros s.
  - simpl. apply logs_offline_raise, Hx.
  - rewrite !bind_cons, <- app_comm_cons. cbn [for_each].
    apply (logs_offline_bind _ _ _ ()); [apply Hy | apply IH].
Qed.

Lemma logs_offline_ensure_pipeline (cwd' : Path) (self : OpenMetadataHelper)
    (file_path rel : Path) (s : State) :
  offline self = true → relative_to file_path cwd' = Some rel →
  logs_offline (ensure_pipeline_for_file cwd' self file_path) s
    (Ok (pipeline_of_file self rel))
    [Ensure (service_of self) (derived_name rel) (path_str file_path)] [].
Proof.
  intros Hoff Hrel. eexists. split_and!.
  - unfold ensure_pipeline_for_file, _pipeline_name_for_file.
    rewrite Hrel, Hoff. unfold _flush_offline. run_monad.
    unfold grown. rewrite app_nil_r. reflexivity.
  - reflexivity.
  - unfold grown. by rewrite app_nil_r.
Qed.

Lemma logs_offline_outside (cwd' : Path) (self : OpenMetadataHelper)
    (file_path : Path) (s : State) :
  relative_to file_path cwd' = None →
  logs_offline (ensure_pipeline_for_file cwd' self file_path) s
    (Raise ValueError) [] [].
Proof.
  intros Hrel. exists []. split_and!; [|done..].
  unfold ensure_pipeline_for_file, _pipeline_name_for_file.
  rewrite Hrel. run_monad. rewrite grown_nil, app_nil_r. by destruct s.
Qed.

Lemma logs_offline_ensure_task (self : OpenMetadataHelper) (pipeline : EntityRef)
    (file_path : Path) (fn : FunctionEntry) (s : State) :
  offline self = true →
  logs_offline
    (ensure_task_for_function self pipeline file_path (name fn) (lineno fn)) s
    (Ok (task_of pipeline fn))
    [EnsureTask (fqn pipeline) (name fn) (path_str file_path) (lineno fn)] [].
Proof.
  intros Hoff. eexists. split_and!.
  - unfold ensure_task_for_function. rewrite Hoff.
    unfold _flush_offline. run_monad.
    unfold grown. rewrite app_nil_r. reflexivity.
  - reflexivity.
  - unfold grown. by rewrite app_nil_r.
Qed.

Lemma logs_offline_link_tag (client : OpenMetadataHelper) (task : EntityRef)
    (tag : MetadataRef) (s : State) :
  offline client = true →
  logs_offline (link_tag client task tag) s (Ok ())
    [] (tag_records client task tag).
Proof.
  intros Hoff. unfold link_tag, tag_records.
  destruct (resolve_application_field client (application tag) (field tag))
    as [R|].
  - unfold create_lineage. rewrite Hoff.
    destruct (bool_decide (direction tag = "upstream"));
      (eexists; split_and!;
       [unfold _flush_offline; run_monad; unfold grown, edge_record;
        rewrite app_nil_r; reflexivity
       |reflexivity
       |unfold grown; by rewrite app_nil_r]).
  - eexists. split_and!;
      [run_monad; rewrite grown_nil; reflexivity | reflexivity | reflexivity].
Qed.

Lemma logs_offline_link_file (env : Env) (client : OpenMetadataHelper)
    (fe : FileEntry) (s : State) :
  offline client = true → under_cwd (cwd env) fe = true →
  logs_offline (link_file env client fe) s (Ok ())
    (file_actions (cwd env) client fe) (file_records (cwd env) client fe).
Proof.
  intros Hoff [rel Hrel]%bool_decide_eq_true.
  unfold link_file, file_actions, file_records. rewrite Hrel.
  apply (logs_offline_bind _ _ _ (pipeline_of_file client rel) _ [_] _ [] _);
    [by apply logs_offline_ensure_pipeline|].
  intros s1.
  replace ((λ fn, EnsureTask (fqn (pipeline_of_file client rel)) (name fn)
                    (path_str (path fe)) (lineno fn)) <$> functions fe)
    with (functions fe ≫= λ fn,
            [EnsureTask (fqn (pipeline_of_file client rel)) (name fn)
               (path_str (path fe)) (lineno fn)] ++ (tags fn ≫= λ _, []));
    last first.
  { induction (functions fe) as [|fn fns IH]; [done|].
    rewrite bind_cons, fmap_cons, IH. f_equal.
    induction (tags fn) as [|t ts IHt]; [done|]. by rewrite bind_cons. }
  apply logs_offline_for_each, Forall_forall. intros fn _ s2.
  unfold link_function.
  apply (logs_offline_bind _ _ _ (task_of (pipeline_of_file client rel) fn)
           _ [_] _ [] _); [by apply logs_offline_ensure_task|].
  intros s3. apply logs_offline_for_each, Forall_forall. intros tag _ s4.
  by apply logs_offline_link_tag.
Qed.

Lemma init_helper_offline (cfg : Config) (s : State) :
  init_helper None cfg s
  = (Ok (offline_helper_of cfg), mkState (mkRequests [] [] []) (trace s)).
Proof. reflexivity. Qed.

(** X7: a live run without the catalog package works offline whatever the
    configuration holds.  When every file lies under the working directory
    it succeeds and leaves a fresh log with, per file in order, the
    pipeline followed by one task per function, and one lineage record per
    declaration that resolves; it sends nothing to the catalog, and the
    last snapshot written to disk is the log left in memory. *)
Theorem offline_run_log (env : Env) (entries : list FileEntry) (cfg : Config)
    (s : State) :
  helper_importable env = true → metadata_package env = None →
  forallb (under_cwd (cwd env)) entries = true →
  ∃ events,
    create_openmetadata_entries env entries cfg false s
    = (Ok (),
       mkState
         (mkRequests []
            (entries ≫= file_actions (cwd env) (offline_helper_of cfg))
            (entries ≫= file_records (cwd env) (offline_helper_of cfg)))
         (trace s ++ events))
    ∧ forallb offline_event events = true
    ∧ last_flush events
      = if nothing_logged
             (entries ≫= file_actions (cwd env) (offline_helper_of cfg))
             (entries ≫= file_records (cwd env) (offline_helper_of cfg))
        then None
        else Some (mkRequests []
                     (entries ≫= file_actions (cwd env) (offline_helper_of cfg))
                     (entries ≫= file_records (cwd env) (offline_helper_of cfg))).
Proof.
  intros Himp Hpkg Hunder.
  unfold create_openmetadata_entries, ensure_openmetadata_client, from_config.
  rewrite Himp, Hpkg.
  rewrite (bind_Ok _ _ _ _ _ (init_helper_offline cfg s)).
  destruct (logs_offline_for_each
              (link_file env (offline_helper_of cfg))
              (file_actions (cwd env) (offline_helper_of cfg))
              (file_records (cwd env) (offline_helper_of cfg)) entries)
    with (s := mkState (mkRequests [] [] []) (trace s))
    as (events & Hrun & Hev & Hlast).
  { apply Forall_forall. intros fe Hfe s1.
    apply logs_offline_link_file; [done|].
    by apply (proj1 (forallb_forall _ _) Hunder), list_elem_of_In. }
  exists events. split_and!; [exact Hrun | exact Hev | exact Hlast].
Qed.

Lemma offline_run_log_witness :
  ∃ events,
    create_openmetadata_entries offline_env [etl_entry] billing_config false
      initial_state
    = (Ok (),
       mkState
         (mkRequests []
            ([etl_entry] ≫= file_actions (cwd offline_env)
                              (offline_helper_of billing_config))
            ([etl_entry] ≫= file_records (cwd offline_env)
                              (offline_helper_of billing_config)))
         (trace initial_state ++ events))
    ∧ forallb offline_event events = true
    ∧ last_flush events
      = if nothing_logged
             ([etl_entry] ≫= file_actions (cwd offline_env)
                               (offline_helper_of billing_config))
             ([etl_entry] ≫= file_records (cwd offline_env)
                               (offline_helper_of billing_config))
        then None
        else Some (mkRequests []
                     ([etl_entry] ≫= file_actions (cwd offline_env)
                                       (offline_helper_of billing_config))
                     ([etl_entry] ≫= file_records (cwd offline_env)
                                       (offline_helper_of billing_config))).
Proof.
  apply (offline_run_log offline_env [etl_entry] billing_config initial_state);
    reflexivity.
Defined.

(** X8: in such a run the first file that does not lie under the working
    directory stops everything with a [ValueError]: what was logged for the
    files before it stays, nothing is logged for it, and the files after it
    are not processed. *)
Theorem offline_run_stops_at_outside_file
    (env : Env) (pre : list FileEntry) (fe : FileEntry) (post : list FileEntry)
    (cfg : Config) (s : State) :
  helper_importable env = true → metadata_package env = None →
  forallb (under_cwd (cwd env)) pre = true →
  relative_to (path fe) (cwd env) = None →
  ∃ events,
    create_openmetadata_entries env (pre ++ fe :: post) cfg false s
    = (Raise ValueError,
       mkState
         (mkRequests []
            (pre ≫= file_actions (cwd env) (offline_helper_of cfg))
            (pre ≫= file_records (cwd env) (offline_helper_of cfg)))
         (trace s ++ events))
    ∧ forallb offline_event events = true.
Proof.
  intros Himp Hpkg Hunder Hout.
  unfold create_openmetadata_entries, ensure_openmetadata_client, from_config.
  rewrite Himp, Hpkg.
  rewrite (bind_Ok _ _ _ _ _ (init_helper_offline cfg s)).
  destruct (logs_offline_for_each_abort
              (link_file env (offline_helper_of cfg))
              (file_actions (cwd env) (offline_helper_of cfg))
              (file_records (cwd env) (offline_helper_of cfg))
              pre fe post ValueError)
    with (s := mkState (mkRequests [] [] []) (trace s))
    as (events & Hrun & Hev & _).
  { apply Forall_forall. intros fe' Hfe s1.
    apply logs_offline_link_file; [done|].
    by apply (proj1 (forallb_forall _ _) Hunder), list_elem_of_In. }
  { intros s1. unfold link_file.
    by apply logs_offline_raise, logs_offline_outside. }
  exists events. split; [exact Hrun | exact Hev].
Qed.

Lemma offline_run_stops_at_outside_file_witness :
  ∃ events,
    create_openmetadata_entries offline_env
      ([etl_entry] ++ stray_entry :: [etl_entry]) billing_config false
      initial_state
    = (Raise ValueError,
       mkState
         (mkRequests []
            ([etl_entry] ≫= file_actions (cwd offline_env)
                              (offline_helper_of billing_config))
            ([etl_entry] ≫= file_records (cwd offline_env)
                              (offline_helper_of billing_config)))
         (trace initial_state ++ events))
    ∧ forallb offline_event events = true.
Proof.
  apply (offline_run_stops_at_outside_file offline_env [etl_entry] stray_entry
           [etl_entry] billing_config initial_state); reflexivity.
Defined.

(** ** Tasks *)

Lemma ensure_task_result (self : OpenMetadataHelper) (pipeline : EntityRef)
    (file_path : Path) (func_name : string) (lineno : nat) (s : State) :
  match (ensure_task_for_function self pipeline file_path func_name lineno s).1
  with
  | Ok ref =>
      ref = mkEntityRef "pipelineTask" (fqn pipeline +:+ "." +:+ func_name) None
  | Raise e =>
      offline self = false
      ∧ (is_Some (_client self) → e = ImportError ∨ e = ClientError)
  end.
Proof.
  unfold ensure_task_for_function. destruct (offline self); [done|].
  unfold _get_entity_by_name, the_client, import_from.
  destruct (_client self) as [c|] eqn:Hc; run_monad.
  2:{ split; [done|]. by intros [? [=]]. }
  destruct (imports_pipeline c); run_monad; [|by eauto].
  destruct (get_by_name c (trace s) "pipeline" (fqn pipeline)) as [cur|];
    [|done].
  destruct (is_pipeline cur); [|done].
  destruct (bool_decide (func_name ∈ task_names cur)); run_monad; [done|].
  destruct (imports_pipeline_task c); run_monad; [|by eauto].
  match goal with |- context [update_entity ?a ?b ?d] =>
    destruct (update_entity a b d) end; simpl; by eauto.
Qed.

(** X9: whenever [ensure_task_for_function] returns, it returns the task
    reference named by the pipeline, a dot and the function, without id;
    offline it never raises, and online it raises only because an import
    fails or the catalog refuses the update.  Online, however the call
    ends, it sends at most one lookup and then at most one update, the
    update only when the lookup found a pipeline that does not list the
    function.  When the package has the class [Pipeline], a function that
    the catalog lists among the tasks of the pipeline costs one lookup and
    no update; one that it does not list is sent as an update after the
    lookup when the package has [PipelineTask]. *)
Theorem ensure_task_for_function_idempotent
    (self : OpenMetadataHelper) (pipeline : EntityRef) (file_path : Path)
    (func_name : string) (lineno : nat) (s : State) :
  match (ensure_task_for_function self pipeline file_path func_name lineno s).1
  with
  | Ok ref =>
      ref = mkEntityRef "pipelineTask" (fqn pipeline +:+ "." +:+ func_name) None
  | Raise e =>
      offline self = false
      ∧ (is_Some (_client self) → e = ImportError ∨ e = ClientError)
  end
  ∧ (offline self = false →
     ∃ out events,
       ensure_task_for_function self pipeline file_path func_name lineno s
       = (out, mkState (_requests s) (trace s ++ events))
       ∧ (events = []
          ∨ events = [Call (GetByName "pipeline" (fqn pipeline))]
          ∨ events = [Call (GetByName "pipeline" (fqn pipeline));
                      Call (UpdateEntity (fqn pipeline) func_name
                              (fqn pipeline +:+ "." +:+ func_name))]
            ∧ ∃ c cur,
                _client self = Some c
                ∧ get_by_name c (trace s) "pipeline" (fqn pipeline) = Some cur
                ∧ func_name ∉ task_names cur))
  ∧ (∀ c cur,
       offline self = false → _client self = Some c →
       imports_pipeline c = true →
       get_by_name c (trace s) "pipeline" (fqn pipeline) = Some cur →
       is_pipeline cur = true →
       (func_name ∈ task_names cur →
        ensure_task_for_function self pipeline file_path func_name lineno s
        = (Ok (mkEntityRef "pipelineTask"
                 (fqn pipeline +:+ "." +:+ func_name) None),
           mkState (_requests s)
             (trace s ++ [Call (GetByName "pipeline" (fqn pipeline))])))
       ∧ (func_name ∉ task_names cur → imports_pipeline_task c = true →
          trace (ensure_task_for_function self pipeline file_path func_name
                   lineno s).2
          = trace s ++ [Call (GetByName "pipeline" (fqn pipeline));
                        Call (UpdateEntity (fqn pipeline) func_name
                                (fqn pipeline +:+ "." +:+ func_name))])).
Proof.
  split_and!; [apply ensure_task_result | |].
  - intros Hon. unfold ensure_task_for_function, _get_entity_by_name,
      the_client, import_from. rewrite Hon.
    assert (Hnone : ∀ o : result EntityRef,
              (o, s) = (o, mkState (_requests s) (trace s ++ []))).
    { intros o. rewrite app_nil_r. by destruct s. }
    destruct (_client self) as [c|] eqn:Hc; run_monad;
      [|eexists _, []; split; [apply Hnone | by left]].
    destruct (imports_pipeline c); run_monad;
      [|eexists _, []; split; [apply Hnone | by left]].
    destruct (get_by_name c (trace s) "pipeline" (fqn pipeline)) as [cur|]
      eqn:Hget; [|eexists _, [_]; split; [done | right; by left]].
    destruct (is_pipeline cur);
      [|eexists _, [_]; split; [done | right; by left]].
    destruct (bool_decide (func_name ∈ task_names cur)) eqn:Hin; run_monad;
      [eexists _, [_]; split; [done | right; by left]|].
    apply bool_decide_eq_false in Hin.
    destruct (imports_pipeline_task c); run_monad;
      [|eexists _, [_]; split; [done | right; by left]].
    match goal with |- context [update_entity ?a ?b ?d] =>
      destruct (update_entity a b d) end; simpl;
      (eexists _, [_; _]; split; [by rewrite <- app_assoc|]);
      right; right; (split; [done|]); by exists c, cur.
  - intros c cur Hon Hc Himp Hget Hpipe.
    unfold ensure_task_for_function, _get_entity_by_name, the_client,
      import_from.
    rewrite Hon, Hc. run_monad. rewrite Himp. run_monad.
    rewrite Hget, Hpipe. split.
    + intros Hin. rewrite (bool_decide_eq_true_2 _ Hin). reflexivity.
    + intros Hnin Htask. rewrite (bool_decide_eq_false_2 _ Hnin). run_monad.
      rewrite Htask. run_monad.
      match goal with |- context [update_entity ?a ?b ?d] =>
        destruct (update_entity a b d) end; simpl; by rewrite <- app_assoc.
Qed.

Lemma ensure_task_for_function_idempotent_witness :
  ensure_task_for_function stocked_helper etl_pipeline
    ["/"; "repo"; "jobs"; "etl.py"] "load" 1 initial_state
  = (Ok (mkEntityRef "pipelineTask" "code-service.jobs_etl.py.load" None),
     mkState (mkRequests [] [] [])
       [Call (GetByName "pipeline" "code-service.jobs_etl.py")])
  ∧ trace (ensure_task_for_function stocked_helper etl_pipeline
             ["/"; "repo"; "jobs"; "etl.py"] "store" 4 initial_state).2
    = [Call (GetByName "pipeline" "code-service.jobs_etl.py");
       Call (UpdateEntity "code-service.jobs_etl.py" "store"
               "code-service.jobs_etl.py.store")].
Proof.
  split.
  - apply (ensure_task_for_function_idempotent stocked_helper etl_pipeline
             ["/"; "repo"; "jobs"; "etl.py"] "load" 1 initial_state)
      with (c := stocked_catalog)
           (cur := mkEntity true "code-service.jobs_etl.py" (Some "p-1") ["load"]);
      try reflexivity. apply list_elem_of_here.
  - apply (ensure_task_for_function_idempotent stocked_helper etl_pipeline
             ["/"; "repo"; "jobs"; "etl.py"] "store" 4 initial_state)
      with (c := stocked_catalog)
           (cur := mkEntity true "code-service.jobs_etl.py" (Some "p-1") ["load"]);
      try reflexivity.
    intros [H|H]%elem_of_cons; [discriminate | by apply elem_of_nil in H].
Defined.

Lemma rfind_None (c : ascii) (s : string) : find c s = None → rfind c s = None.
Proof.
  induction s as [|a s IH]; [done|]. cbn [find rfind].
  destruct (ascii_dec a c); [done|].
  destruct (find c s); [done|]. intros _. by rewrite IH.
Qed.

Lemma rfind_append (c : ascii) (p f : string) :
  find c f = None → rfind c (p +:+ String c f) = Some (String.length p).
Proof.
  intros Hf%rfind_None. induction p as [|a p IH].
  - change ("" +:+ String c f) with (String c f). cbn [rfind]. rewrite Hf.
    by destruct (ascii_dec c c).
  - rewrite append_cons. cbn [rfind String.length]. by rewrite IH.
Qed.

Lemma pipeline_fqn_append (p f : string) :
  find "."%char f = None → pipeline_fqn (p +:+ "." +:+ f) = p.
Proof.
  intros Hf. unfold pipeline_fqn, rsplit1.
  change (p +:+ "." +:+ f) with (p +:+ String "." f).
  rewrite (rfind_append _ p f Hf). apply take_append_length.
Qed.

(** X10: for a function name without a dot, the pipeline name that online
    lineage cuts out of a task name, the text before its last dot, is the
    name of the pipeline the task was made for. *)
Theorem task_name_leads_back_to_pipeline
    (self : OpenMetadataHelper) (pipeline : EntityRef) (file_path : Path)
    (func_name : string) (lineno : nat) (s : State) (task : EntityRef) :
  find "."%char func_name = None →
  (ensure_task_for_function self pipeline file_path func_name lineno s).1
  = Ok task →
  pipeline_fqn (fqn task) = fqn pipeline.
Proof.
  intros Hdot Htask.
  pose proof (ensure_task_result self pipeline file_path func_name lineno s)
    as Hres.
  rewrite Htask in Hres. subst task. simpl. by apply pipeline_fqn_append.
Qed.

Lemma task_name_leads_back_to_pipeline_witness :
  pipeline_fqn (fqn (mkEntityRef "pipelineTask" "code-service.jobs_etl.py.load"
                       None))
  = fqn etl_pipeline.
Proof.
  apply (task_name_leads_back_to_pipeline billing_helper etl_pipeline
           ["/"; "repo"; "jobs"; "etl.py"] "load" 1 initial_state);
    reflexivity.
Defined.

(** ** Resolved references *)

Lemma if_truthy_inv (o : option string) (q : string) :
  if_truthy o = Some q → o = Some q ∧ q ≠ "".
Proof.
  destruct o as [x|]; [|done]. simpl. destruct x as [|c x]; [done|].
  intros [= <-]. done.
Qed.

(** X11: a reference that [resolve_application_field] returns never has an
    id and never has an empty name; its name is one configured for that
    application: the name mapped to the field by the columns, with the
    kind "column", or the name of the application, with the kind of the
    application or "table". *)
Theorem resolved_reference_shape
    (self : OpenMetadataHelper) (application field : string) :
  match resolve_application_field self application field with
  | None => True
  | Some R =>
      id R = None ∧ fqn R ≠ ""
      ∧ ∃ app,
          default ∅ (applications (config self)) !! application = Some app
          ∧ ((type R = "column"
              ∧ default ∅ (app_columns app) !! field = Some (fqn R))
             ∨ (type R = default "table" (app_type app)
                ∧ app_fqn app = Some (fqn R)))
  end.
Proof.
  unfold resolve_application_field.
  destruct (default ∅ (applications (config self)) !! application)
    as [app|] eqn:Happ; [|done].
  destruct (negb (app_truthy app)); [done|].
  destruct (if_truthy (default ∅ (app_columns app) !! field)) as [q|] eqn:Hcol.
  - apply if_truthy_inv in Hcol as [Hcol Hq]. simpl.
    split_and!; [done | done |]. exists app. split; [done|]. by left.
  - destruct (if_truthy (app_fqn app)) as [q|] eqn:Hfqn; [|done].
    apply if_truthy_inv in Hfqn as [Hfqn Hq]. simpl.
    split_and!; [done | done |]. exists app. split; [done|]. by right.
Qed.

(** ** Underlines *)

Lemma star_loop_greedy {A : Type} (p : ascii → bool)
    (k : nat → string → Re.groups → option A) (a : A) (s' : string)
    (g : Re.groups) :
  match s' with EmptyString => True | String c _ => p c = false end →
  ∀ (w : string) (pos fuel : nat),
    all_chars p w = true → String.length w ≤ fuel →
    k (pos + String.length w) s' g = Some a →
    (fix star (fuel : nat) (pos : nat) (s : string) (g : Re.groups)
       : option A :=
       match fuel with
       | O => k pos s g
       | S fuel' =>
           match Re.run (Re.Chr p) pos s g
                   (λ pos' s' g',
                      if Nat.ltb pos pos' then star fuel' pos' s' g'
                      else None) with
           | Some a => Some a
           | None => k pos s g
           end
       end) fuel pos (w +:+ s') g = Some a.
Proof.
  intros Hs'. induction w as [|c w IH]; intros pos fuel Hw Hfuel Hk.
  - change ("" +:+ s') with s'. rewrite Nat.add_0_r in Hk.
    destruct fuel as [|fuel]; [exact Hk|]. simpl.
    destruct s' as [|c s']; [exact Hk|]. by rewrite Hs'.
  - cbn [all_chars] in Hw. apply andb_true_iff in Hw as [Hc Hw].
    destruct fuel as [|fuel]; [cbn [String.length] in Hfuel; lia|].
    rewrite append_cons. simpl. rewrite Hc.
    assert (Hlt : (pos <? S pos) = true) by (apply Nat.ltb_lt; lia).
    rewrite Hlt.
    match goal with
    | |- match ?x with _ => _ end = _ => replace x with (Some a); [done|]
    end.
    symmetry. apply (IH (S pos) fuel Hw);
      [cbn [String.length] in Hfuel; lia|].
    cbn [String.length] in Hk. by replace (S pos + String.length w)
      with (pos + S (String.length w)) by lia.
Qed.

(** A repeated character class takes its longest run first. *)
Lemma run_star_greedy {A : Type} (p : ascii → bool)
    (k : nat → string → Re.groups → option A) (a : A) (w s' : string)
    (pos : nat) (g : Re.groups) :
  match s' with EmptyString => True | String c _ => p c = false end →
  all_chars p w = true →
  k (pos + String.length w) s' g = Some a →
  Re.run (Re.Star (Re.Chr p)) pos (w +:+ s') g k = Some a.
Proof.
  intros Hs' Hw Hk.
  apply (star_loop_greedy p k a s' g Hs' w pos
           (S (String.length (w +:+ s'))) Hw); [|exact Hk].
  rewrite length_append. lia.
Qed.

Lemma mark_not_space (c : ascii) : isspace c = true → underline_mark c = false.
Proof. destruct c as [[] [] [] [] [] [] [] []]; vm_compute; congruence. Qed.

Lemma all_chars_append (p : ascii → bool) (a b : string) :
  all_chars p (a +:+ b) = all_chars p a && all_chars p b.
Proof.
  induction a as [|c a IH]; [done|]. rewrite append_cons. cbn [all_chars].
  by rewrite IH, andb_assoc.
Qed.

Lemma is_underline_sound (line : string) :
  is_underline line = true →
  ∃ u w, line = u +:+ w ∧ 3 ≤ String.length u
         ∧ all_chars underline_mark u = true ∧ all_chars isspace w = true.
Proof.
  unfold is_underline. intros [m Hm]%bool_decide_eq_true.
  apply rematch_matches in Hm as (pos' & s' & Hm).
  unfold SECTION_UNDERLINE, Re.at_least3, Re.one_of, Re.space in Hm.
  cbn [Re.seqs] in Hm. fold underline_mark in Hm.
  repeat match goal with
  | H : matches (Re.Seq _ _) _ _ _ _ _ _ |- _ =>
      apply matches_seq_inv in H as (? & ? & ? & ? & H)
  end.
  repeat match goal with
  | H : matches (Re.Chr _) _ _ _ _ _ _ |- _ =>
      apply matches_chr_inv in H as (? & -> & ? & -> & ->)
  | H : matches (Re.Star (Re.Chr _)) _ _ _ _ _ _ |- _ =>
      apply matches_star_chars in H as (? & -> & ? & -> & ->)
  | H : matches Re.Bol _ _ _ _ _ _ |- _ => inversion H; subst; clear H
  end.
  match goal with
  | H : matches Re.Eol _ _ _ _ _ _ |- _ => inversion H as [| | | | | | | | |? ? ? Hend]; subst; clear H
  end.
  match goal with
  | H1 : underline_mark ?c1 = true, H2 : underline_mark ?c2 = true,
    H3 : underline_mark ?c3 = true, Hu : all_chars underline_mark ?u = true,
    Hw : all_chars isspace ?w = true |- _ =>
      exists (String c1 (String c2 (String c3 u))), (w +:+ s');
      split_and!;
      [ | cbn [String.length]; lia
        | cbn [all_chars]; by rewrite H1, H2, H3, Hu
        | rewrite all_chars_append, Hw; by destruct Hend as [-> | ->] ]
  end.
  rewrite !append_cons. reflexivity.
Qed.

Lemma append_nil_r (s : string) : s +:+ "" = s.
Proof. induction s as [|c s IH]; [done|]. by rewrite append_cons, IH. Qed.

Lemma run_seq {A : Type} (r1 r2 : Re.regex) (pos : nat) (s : string)
    (g : Re.groups) (k : nat → string → Re.groups → option A) :
  Re.run (Re.Seq r1 r2) pos s g k
  = Re.run r1 pos s g (λ pos' s' g', Re.run r2 pos' s' g' k).
Proof. reflexivity. Qed.

Lemma run_chr {A : Type} (p : ascii → bool) (c : ascii) (pos : nat) (s : string)
    (g : Re.groups) (k : nat → string → Re.groups → option A) :
  p c = true → Re.run (Re.Chr p) pos (String c s) g k = k (S pos) s g.
Proof. intros Hc. simpl. by rewrite Hc. Qed.

Lemma run_star_spaces_to_end {A : Type} (w : string) (pos : nat) (g : Re.groups)
    (k : nat → string → Re.groups → option A) (a : A) :
  all_chars isspace w = true →
  k (pos + String.length w) "" g = Some a →
  Re.run (Re.Star (Re.Chr isspace)) pos w g k = Some a.
Proof.
  intros Hw Hk.
  pose proof (run_star_greedy isspace k a w "" pos g I Hw Hk) as H.
  by rewrite append_nil_r in H.
Qed.

Lemma is_underline_complete (u w : string) :
  3 ≤ String.length u →
  all_chars underline_mark u = true → all_chars isspace w = true →
  is_underline (u +:+ w) = true.
Proof.
  intros Hlen Hu Hw.
  destruct u as [|c1 [|c2 [|c3 u]]]; cbn [String.length] in Hlen; try lia.
  cbn [all_chars] in Hu.
  apply andb_true_iff in Hu as [H1 Hu]. apply andb_true_iff in Hu as [H2 Hu].
  apply andb_true_iff in Hu as [H3 Hu].
  unfold is_underline. apply bool_decide_eq_true.
  exists []. unfold Re.rematch, Re.match_at.
  assert (Re.run SECTION_UNDERLINE 0
            (String c1 (String c2 (String c3 u)) +:+ w) []
            (λ pos' _ g, Some (g, pos' - 0))
          = Some ([], 3 + String.length u + String.length w - 0)) as ->;
    [|done].
  unfold SECTION_UNDERLINE, Re.at_least3, Re.one_of, Re.space.
  cbn [Re.seqs]. fold underline_mark. rewrite !append_cons, !run_seq.
  change (Re.run Re.Bol 0 ?s ?g ?k) with (k 0 s g). cbv beta.
  rewrite !run_seq, (run_chr underline_mark c1) by done. cbv beta.
  rewrite !run_seq, (run_chr underline_mark c2) by done. cbv beta.
  rewrite !run_seq, (run_chr underline_mark c3) by done. cbv beta.
  apply run_star_greedy; [|exact Hu|].
  - destruct w as [|c w]; [done|]. cbn [all_chars] in Hw.
    apply andb_true_iff in Hw as [Hc _]. by apply mark_not_space.
  - rewrite run_seq. apply run_star_spaces_to_end; [exact Hw|]. reflexivity.
Qed.

(** X12: a line counts as an underline exactly when it is made of three or
    more of the characters = ~ ` ^ # * - (mixed at will) followed by
    nothing but white space; white space in front of it, or any other
    character, rules it out. *)
Theorem is_underline_exactly (line : string) :
  is_underline line = true
  ↔ ∃ u w, line = u +:+ w ∧ 3 ≤ String.length u
           ∧ all_chars underline_mark u = true ∧ all_chars isspace w = true.
Proof.
  split; [apply is_underline_sound|].
  intros (u & w & -> & Hlen & Hu & Hw). by apply is_underline_complete.
Qed.

(** ** Online runs *)

Lemma stays_online_ret {A} (a : A) (s : State) : stays_online (ret a) s.
Proof.
  exists (Ok a), []. split; [|done]. unfold ret. rewrite app_nil_r. by destruct s.
Qed.

Lemma stays_online_raise {A} (e : exn) (s : State) :
  stays_online (raise e : M A) s.
Proof.
  exists (Raise e), []. split; [|done]. unfold raise. rewrite app_nil_r.
  by destruct s.
Qed.

Lemma stays_online_emit (e : Event) (s : State) :
  online_sent e = true → stays_online (emit e) s.
Proof.
  intros He. exists (Ok ()), [e]. split; [done|]. simpl. by rewrite He.
Qed.

Lemma stays_online_bind {A B} (m : M A) (k : A → M B) (s : State) :
  stays_online m s → (∀ a s1, stays_online (k a) s1) →
  stays_online (bind m k) s.
Proof.
  intros (out & e1 & Hm & He1) Hk. unfold stays_online, bind. rewrite Hm.
  destruct out as [a|e].
  - destruct (Hk a (mkState (_requests s) (trace s ++ e1)))
      as (out2 & e2 & Hk2 & He2).
    exists out2, (e1 ++ e2). split.
    + rewrite Hk2. simpl. by rewrite app_assoc.
    + by rewrite forallb_app, He1, He2.
  - by exists (Raise e), e1.
Qed.

Lemma stays_online_for_each {A} (body : A → M unit) (xs : list A) :
  (∀ x s, stays_online (body x) s) → ∀ s, stays_online (for_each xs body) s.
Proof.
  intros Hbody. induction xs as [|x xs IH]; intros s; [apply stays_online_ret|].
  cbn [for_each]. apply stays_online_bind; [apply Hbody | intros _; apply IH].
Qed.

Lemma stays_online_get_trace (s : State) : stays_online get_trace s.
Proof.
  exists (Ok (trace s)), []. split; [|done]. unfold get_trace.
  rewrite app_nil_r. by destruct s.
Qed.

Lemma stays_online_the_client (self : OpenMetadataHelper) (s : State) :
  stays_online (the_client self) s.
Proof.
  unfold the_client. destruct (_client self);
    [apply stays_online_ret | apply stays_online_raise].
Qed.

Lemma stays_online_lift {A} (r : result A) (s : State) :
  stays_online (lift r) s.
Proof. destruct r; [apply stays_online_ret | apply stays_online_raise]. Qed.

Lemma stays_online_import (available : bool) (s : State) :
  stays_online (import_from available) s.
Proof.
  destruct available; [apply stays_online_ret | apply stays_online_raise].
Qed.

Lemma stays_online_get_entity (self : OpenMetadataHelper)
    (entity_type fqn : string) (s : State) :
  stays_online (_get_entity_by_name self entity_type fqn) s.
Proof.
  unfold _get_entity_by_name. destruct (_client self); [|apply stays_online_ret].
  apply stays_online_bind; [apply stays_online_get_trace|]. intros h s1.
  apply stays_online_bind; [by apply stays_online_emit|]. intros _ s2.
  apply stays_online_ret.
Qed.

Lemma stays_online_entity_ref (self : OpenMetadataHelper)
    (entity_type fqn : string) (s : State) :
  stays_online (_entity_ref_from_fqn self entity_type fqn) s.
Proof.
  unfold _entity_ref_from_fqn.
  apply stays_online_bind; [apply stays_online_get_entity|].
  intros [e|] s1; apply stays_online_ret.
Qed.

Lemma stays_online_bind_ret {A B} (a : A) (k : A → M B) (s : State) :
  stays_online (k a) s → stays_online (bind (ret a) k) s.
Proof. intros H. exact H. Qed.

Lemma stays_online_add_edge (self : OpenMetadataHelper) (f t : EntityRef)
    (s : State) :
  id f = None ∨ id t = None →
  stays_online (_add_lineage_edge self f t) s.
Proof.
  intros Hid. unfold _add_lineage_edge.
  apply stays_online_bind; [apply stays_online_the_client|]. intros c s1.
  apply stays_online_bind; [apply stays_online_import|]. intros _ s1a.
  apply stays_online_bind.
  { destruct (accepts_reference c _ _);
      [apply stays_online_ret | apply stays_online_raise]. }
  intros _ s1b. apply stays_online_bind.
  { destruct (accepts_reference c _ _);
      [apply stays_online_ret | apply stays_online_raise]. }
  intros _ s1c.
  apply stays_online_bind; [apply stays_online_get_trace|]. intros h s2.
  apply stays_online_bind.
  { apply stays_online_emit. unfold online_sent, lacks_an_id.
    destruct Hid as [-> | ->]; [done | by destruct (id f)]. }
  intros _ s3.
  destruct (add_lineage c h _); [apply stays_online_ret | apply stays_online_raise].
Qed.

Lemma stays_online_create_lineage (self : OpenMetadataHelper)
    (from_ref to_task from_task to_ref : option EntityRef) (s : State) :
  offline self = false →
  (∃ r, (from_ref = Some r ∨ to_ref = Some r) ∧ id r = None) →
  stays_online (create_lineage self from_ref to_task from_task to_ref) s.
Proof.
  intros Hon (r & [-> | ->] & Hr); unfold create_lineage; rewrite Hon.
  - assert (∀ k : option EntityRef → M unit,
              stays_online (k (Some r)) s →
              stays_online
                (bind match from_task, Some r with
                      | Some t, None =>
                          _entity_ref_from_fqn self "pipeline" (pipeline_fqn (fqn t))
                      | _, _ => ret (Some r)
                      end k) s) as Hfirst.
    { intros k Hk. destruct from_task; by apply stays_online_bind_ret. }
    apply Hfirst. apply stays_online_bind.
    { destruct to_task, to_ref;
        (apply stays_online_entity_ref || apply stays_online_ret). }
    intros [t|] s2; [|apply stays_online_ret].
    apply stays_online_add_edge. by left.
  - apply stays_online_bind.
    { destruct from_task, from_ref;
        (apply stays_online_entity_ref || apply stays_online_ret). }
    intros f s1.
    assert (∀ k : option EntityRef → M unit,
              stays_online (k (Some r)) s1 →
              stays_online
                (bind match to_task, Some r with
                      | Some t, None =>
                          _entity_ref_from_fqn self "pipeline" (pipeline_fqn (fqn t))
                      | _, _ => ret (Some r)
                      end k) s1) as Hsecond.
    { intros k Hk. destruct to_task; by apply stays_online_bind_ret. }
    apply Hsecond. destruct f as [f|]; [|apply stays_online_ret].
    apply stays_online_add_edge. by right.
Qed.

Lemma resolved_without_id (self : OpenMetadataHelper) (application field : string)
    (R : EntityRef) :
  resolve_application_field self application field = Some R → id R = None.
Proof.
  unfold resolve_application_field.
  destruct (default ∅ (applications (config self)) !! application)
    as [app|]; [|done].
  destruct (negb (app_truthy app)); [done|].
  destruct (if_truthy (default ∅ (app_columns app) !! field)); [by intros [= <-]|].
  destruct (if_truthy (app_fqn app)); [by intros [= <-] | done].
Qed.

Lemma stays_online_ensure_task (self : OpenMetadataHelper) (pipeline : EntityRef)
    (file_path : Path) (func_name : string) (lineno : nat) (s : State) :
  offline self = false →
  stays_online (ensure_task_for_function self pipeline file_path func_name lineno) s.
Proof.
  intros Hon. unfold ensure_task_for_function. rewrite Hon.
  apply stays_online_bind; [apply stays_online_the_client|]. intros c s0.
  apply stays_online_bind; [apply stays_online_import|]. intros _ s0a.
  apply stays_online_bind; [apply stays_online_get_entity|].
  intros [cur|] s1; [|apply stays_online_ret].
  destruct (is_pipeline cur); [|apply stays_online_ret].
  apply stays_online_bind; [|intros; apply stays_online_ret].
  destruct (bool_decide _); [apply stays_online_ret|].
  apply stays_online_bind; [apply stays_online_import|]. intros _ s2.
  apply stays_online_bind; [apply stays_online_get_trace|]. intros h s3.
  apply stays_online_bind; [by apply stays_online_emit|]. intros _ s4.
  destruct (update_entity c h _); [apply stays_online_ret | apply stays_online_raise].
Qed.

Lemma stays_online_ensure_pipeline (cwd' : Path) (self : OpenMetadataHelper)
    (file_path : Path) (s : State) :
  offline self = false →
  stays_online (ensure_pipeline_for_file cwd' self file_path) s.
Proof.
  intros Hon. unfold ensure_pipeline_for_file.
  apply stays_online_bind; [apply stays_online_lift|]. intros nm s1.
  rewrite Hon.
  apply stays_online_bind; [apply stays_online_the_client|]. intros c s2.
  apply stays_online_bind; [apply stays_online_import|]. intros _ s2a.
  apply stays_online_bind; [by apply stays_online_emit|]. intros _ s3.
  apply stays_online_bind; [apply stays_online_get_trace|]. intros h s4.
  apply stays_online_bind; [by apply stays_online_emit|]. intros _ s5.
  destruct (create_or_update_pipeline c h nm _) as [p|];
    [|apply stays_online_raise].
  destruct (entity_id p); [apply stays_online_ret | apply stays_online_raise].
Qed.

Lemma stays_online_link_file (env : Env) (client : OpenMetadataHelper)
    (fe : FileEntry) (s : State) :
  offline client = false → stays_online (link_file env client fe) s.
Proof.
  intros Hon. unfold link_file.
  apply stays_online_bind; [by apply stays_online_ensure_pipeline|].
  intros pipeline s1. apply stays_online_for_each. intros fn s2.
  unfold link_function.
  apply stays_online_bind; [by apply stays_online_ensure_task|].
  intros task s3. apply stays_online_for_each. intros tag s4.
  unfold link_tag.
  destruct (resolve_application_field _ _ _) as [R|] eqn:HR;
    [|by apply stays_online_emit].
  apply resolved_without_id in HR.
  destruct (bool_decide _); apply stays_online_create_lineage; eauto.
Qed.

Lemma online_run_events (env : Env) (entries : list FileEntry)
    (cfg : Config) (pkg : Catalog) (s : State) :
  helper_importable env = true → metadata_package env = Some pkg →
  ∃ out events,
    create_openmetadata_entries env entries cfg false s
    = (out, mkState (mkRequests [] [] []) (trace s ++ events))
    ∧ forallb online_sent events = true.
Proof.
  intros Himp Hpkg.
  unfold create_openmetadata_entries, ensure_openmetadata_client, from_config,
    init_helper.
  rewrite Himp, Hpkg. unfold _init_client.
  destruct (negb _ || negb _).
  - exists (Raise (RuntimeError missing_settings)), []. split; [|done].
    run_monad. by rewrite app_nil_r.
  - run_monad.
    set (client := mkOpenMetadataHelper cfg
           (default "openmetadata_requests.json" (requestsPath cfg))
           false (Some pkg)).
    assert (Hbody : ∀ fe s1, stays_online (link_file env client fe) s1).
    { intros fe s1. by apply stays_online_link_file. }
    destruct (stays_online_for_each (link_file env client) entries Hbody
                (mkState (mkRequests [] [] []) (trace s)))
      as (out & events & Hrun & Hev).
    exists out, events. split; [exact Hrun | exact Hev].
Qed.

Lemma forallb_impl {A} (p q : A → bool) (xs : list A) :
  (∀ x, p x = true → q x = true) → forallb p xs = true → forallb q xs = true.
Proof.
  intros Hpq. induction xs as [|x xs IH]; [done|]. cbn [forallb].
  intros [Hx Hxs]%andb_true_iff. by rewrite (Hpq x Hx), IH.
Qed.

(** X13: a live run with the catalog package never writes the offline
    request file and leaves the in-memory request log empty, however the
    run ends and whatever the catalog answers: all it does after the scan
    is call the catalog and print warnings. *)
Theorem online_run_writes_no_log (env : Env) (entries : list FileEntry)
    (cfg : Config) (pkg : Catalog) (s : State) :
  helper_importable env = true → metadata_package env = Some pkg →
  ∃ out events,
    create_openmetadata_entries env entries cfg false s
    = (out, mkState (mkRequests [] [] []) (trace s ++ events))
    ∧ forallb online_event events = true.
Proof.
  intros Himp Hpkg.
  destruct (online_run_events env entries cfg pkg s Himp Hpkg)
    as (out & events & Hrun & Hev).
  exists out, events. split; [exact Hrun|]. revert Hev. apply forallb_impl.
  by intros e [He _]%andb_true_iff.
Qed.

Lemma online_run_writes_no_log_witness :
  ∃ out events,
    create_openmetadata_entries online_env [etl_entry] connected_config false
      initial_state
    = (out, mkState (mkRequests [] [] []) (trace initial_state ++ events))
    ∧ forallb online_event events = true.
Proof.
  apply (online_run_writes_no_log online_env [etl_entry] connected_config
           demo_catalog initial_state); reflexivity.
Defined.

(** X17: no lineage edge that such a run asks the catalog for has an id at
    both ends: the end that stands for the entity of the application is
    the reference built from the configuration, which carries none. *)
Theorem online_lineage_lacks_an_id (env : Env) (entries : list FileEntry)
    (cfg : Config) (pkg : Catalog) (s : State) :
  helper_importable env = true → metadata_package env = Some pkg →
  ∃ out events,
    create_openmetadata_entries env entries cfg false s
    = (out, mkState (mkRequests [] [] []) (trace s ++ events))
    ∧ ∀ from_id from_type to_id to_type,
        Call (AddLineage from_id from_type to_id to_type) ∈ events →
        from_id = None ∨ to_id = None.
Proof.
  intros Himp Hpkg.
  destruct (online_run_events env entries cfg pkg s Himp Hpkg)
    as (out & events & Hrun & Hev).
  exists out, events. split; [exact Hrun|].
  intros fi ft ti tt Hin.
  pose proof (proj1 (forallb_forall _ _) Hev _
                (proj1 (list_elem_of_In _ _) Hin)) as He.
  apply andb_true_iff in He as [_ He].
  destruct fi, ti; (by left) || (by right) || done.
Qed.

Lemma online_lineage_lacks_an_id_witness :
  ∃ out events,
    create_openmetadata_entries online_env [etl_entry] connected_config false
      initial_state
    = (out, mkState (mkRequests [] [] []) (trace initial_state ++ events))
    ∧ ∀ from_id from_type to_id to_type,
        Call (AddLineage from_id from_type to_id to_type) ∈ events →
        from_id = None ∨ to_id = None.
Proof.
  apply (online_lineage_lacks_an_id online_env [etl_entry] connected_config
           demo_catalog initial_state); reflexivity.
Defined.

(** ** Writing a field-list line and reading it back *)

Lemma rev_app_append (a b s : string) :
  String.rev_app a b +:+ s = String.rev_app a (b +:+ s).
Proof.
  revert b. induction a as [|c a IH]; intros b; [done|].
  cbn [String.rev_app]. by rewrite IH, append_cons.
Qed.

Lemma splitlines_from_plain (s cur : string) :
  all_chars (λ c, negb (is_linebreak c)) s = true →
  truthy cur || truthy s = true →
  splitlines_from cur false s = [String.rev cur +:+ s].
Proof.
  revert cur. induction s as [|c s IH]; intros cur Hs Hne.
  - rewrite append_nil_r. cbn [splitlines_from].
    destruct cur; [done|]. done.
  - cbn [all_chars] in Hs. apply andb_true_iff in Hs as [Hc Hs].
    apply negb_true_iff in Hc. cbn [splitlines_from andb]. rewrite Hc.
    rewrite IH; [|done|done]. f_equal. unfold String.rev.
    cbn [String.rev_app]. by rewrite !rev_app_append.
Qed.

(** A non-empty text without line break is a single line. *)
Lemma splitlines_single (s : string) :
  truthy s = true → all_chars (λ c, negb (is_linebreak c)) s = true →
  splitlines s = [s].
Proof.
  intros Hne Hs. unfold splitlines. by rewrite splitlines_from_plain.
Qed.

Lemma name_char_facts (c : ascii) :
  name_char c = true →
  isspace c = false ∧ is_linebreak c = false ∧ (ord c =? 10)%N = false
  ∧ c ≠ ","%char ∧ c ≠ ":"%char ∧ c ≠ "("%char ∧ c ≠ ")"%char.
Proof.
  destruct c as [[] [] [] [] [] [] [] []]; vm_compute; intros H;
    repeat split; congruence.
Qed.

Lemma all_chars_impl (p q : ascii → bool) (s : string) :
  (∀ c, p c = true → q c = true) → all_chars p s = true → all_chars q s = true.
Proof.
  intros Hpq. induction s as [|c s IH]; [done|]. cbn [all_chars].
  intros [Hc Hs]%andb_true_iff. by rewrite (Hpq c Hc), IH.
Qed.

Lemma all_chars_find_None (p : ascii → bool) (c : ascii) (s : string) :
  p c = false → all_chars p s = true → find c s = None.
Proof.
  intros Hc. induction s as [|a s IH]; [done|]. cbn [all_chars find].
  intros [Ha Hs]%andb_true_iff.
  destruct (ascii_dec a c) as [->|_]; [congruence|]. by rewrite IH.
Qed.

Lemma find_append_None (c : ascii) (a b : string) :
  find c a = None → find c b = None → find c (a +:+ b) = None.
Proof.
  intros Ha Hb. induction a as [|x a IH]; [done|]. rewrite append_cons.
  cbn [find] in Ha |- *. destruct (ascii_dec x c); [done|].
  destruct (find c a); [done|]. by rewrite IH.
Qed.

Lemma find_append_Some (c : ascii) (a b : string) :
  is_Some (find c b) → is_Some (find c (a +:+ b)).
Proof.
  intros Hb. induction a as [|x a [i Hi]]; [done|]. rewrite append_cons.
  cbn [find]. destruct (ascii_dec x c); [eauto|]. rewrite Hi. eauto.
Qed.

Lemma find_append_first (c : ascii) (a b : string) :
  find c a = None → find c (a +:+ String c b) = Some (String.length a).
Proof.
  induction a as [|x a IH].
  - intros _. change ("" +:+ String c b) with (String c b). cbn [find].
    by destruct (ascii_dec c c).
  - rewrite append_cons. cbn [find String.length].
    destruct (ascii_dec x c); [done|].
    destruct (find c a); [done|]. intros _. by rewrite IH.
Qed.

Lemma drop_append_length (a : string) (c : ascii) (b : string) :
  drop (S (String.length a)) (a +:+ String c b) = b.
Proof. induction a as [|x a IH]; [done|]. rewrite append_cons. exact IH. Qed.

Lemma split_no_sep (c : ascii) (s : string) :
  find c s = None → split c s = [s].
Proof.
  induction s as [|a s IH]; [done|]. cbn [find split].
  destruct (ascii_dec a c); [done|].
  destruct (find c s); [done|]. intros _. by rewrite IH.
Qed.

Lemma rstrip_plain (b : string) :
  all_chars (λ c, negb (isspace c)) b = true → rstrip b = b.
Proof.
  induction b as [|c b IH]; [done|]. cbn [all_chars rstrip].
  intros [Hc Hb]%andb_true_iff. apply negb_true_iff in Hc.
  rewrite (IH Hb). destruct b; [by rewrite Hc | done].
Qed.

Lemma rstrip_append_plain (a b : string) :
  truthy b = true → all_chars (λ c, negb (isspace c)) b = true →
  rstrip (a +:+ b) = a +:+ b.
Proof.
  intros Hne Hb. induction a as [|x a IH]; [by apply rstrip_plain|].
  rewrite append_cons. cbn [rstrip]. rewrite IH.
  destruct (a +:+ b) eqn:Hab; [|done].
  destruct a, b; done.
Qed.

Lemma name_plain (x : string) :
  all_chars name_char x = true →
  all_chars (λ c, negb (isspace c)) x = true.
Proof.
  apply all_chars_impl. intros c Hc.
  destruct (name_char_facts c Hc) as (-> & _). done.
Qed.

(** Trimming leaves a plain name as it is. *)
Lemma strip_name (x : string) : is_name x = true → strip x = x.
Proof.
  intros [Hne Hx]%andb_true_iff. unfold strip.
  destruct x as [|c x]; [done|]. cbn [lstrip].
  cbn [all_chars] in Hx. apply andb_true_iff in Hx as [Hc Hx'].
  destruct (name_char_facts c Hc) as (-> & _).
  apply rstrip_plain. cbn [all_chars].
  destruct (name_char_facts c Hc) as (-> & _). simpl. by apply name_plain.
Qed.

Lemma split_app_field_names (app fld : string) :
  is_name app = true → is_name fld = true →
  _split_app_field (app +:+ String ":" fld) = Some (app, fld).
Proof.
  intros Happ Hfld.
  pose proof (strip_name app Happ) as Hsa.
  pose proof (strip_name fld Hfld) as Hsf.
  apply andb_true_iff in Happ as [Hane Happ].
  apply andb_true_iff in Hfld as [Hfne Hfld].
  assert (Hstrip : strip (app +:+ String ":" fld) = app +:+ String ":" fld).
  { unfold strip. destruct app as [|c app]; [done|].
    rewrite append_cons. cbn [lstrip]. cbn [all_chars] in Happ.
    apply andb_true_iff in Happ as [Hc _].
    destruct (name_char_facts c Hc) as (-> & _).
    rewrite <- append_cons.
    change (String c app +:+ String ":" fld)
      with (String c app +:+ (String ":" "" +:+ fld)).
    rewrite append_assoc.
    by apply rstrip_append_plain; [|apply name_plain]. }
  unfold _split_app_field. rewrite Hstrip.
  assert (find ":"%char app = None) as Hcolon.
  { apply (all_chars_find_None name_char); [done | exact Happ]. }
  rewrite (find_append_first _ _ _ Hcolon).
  destruct (app +:+ String ":" fld) eqn:Hline at 1.
  { destruct app; discriminate. }
  cbn [truthy negb].
  by rewrite take_append_length, drop_append_length, Hsa, Hsf.
Qed.

Lemma run_chr_false {A : Type} (p : ascii → bool) (c : ascii) (pos : nat)
    (s : string) (g : Re.groups) (k : nat → string → Re.groups → option A) :
  p c = false → Re.run (Re.Chr p) pos (String c s) g k = None.
Proof. intros Hc. simpl. by rewrite Hc. Qed.

(** A word under case folding accepts itself. *)
Lemma run_word_i_self {A : Type} (w : string) (pos : nat) (s : string)
    (g : Re.groups) (k : nat → string → Re.groups → option A) :
  Re.run (Re.word_i w) pos (w +:+ s) g k = k (pos + String.length w) s g.
Proof.
  revert pos. induction w as [|c w IH]; intros pos.
  - simpl. by rewrite Nat.add_0_r.
  - destruct w as [|c' w].
    + rewrite append_cons. change (Re.word_i (String c "")) with (Re.lit_i c).
      unfold Re.lit_i. rewrite run_chr by (by apply bool_decide_eq_true).
      change ("" +:+ s) with s. cbn [String.length]. f_equal. lia.
    + change (Re.word_i (String c (String c' w)))
        with (Re.Seq (Re.lit_i c) (Re.word_i (String c' w))).
      rewrite append_cons, run_seq. unfold Re.lit_i at 1.
      rewrite run_chr by (by apply bool_decide_eq_true).
      rewrite IH. cbn [String.length]. f_equal. lia.
Qed.

Lemma run_alt_l {A : Type} (r1 r2 : Re.regex) (pos : nat) (s : string)
    (g : Re.groups) (k : nat → string → Re.groups → option A) (a : A) :
  Re.run r1 pos s g k = Some a → Re.run (Re.Alt r1 r2) pos s g k = Some a.
Proof. intros H. simpl. by rewrite H. Qed.

Lemma run_alt_r {A : Type} (r1 r2 : Re.regex) (pos : nat) (s : string)
    (g : Re.groups) (k : nat → string → Re.groups → option A) :
  Re.run r1 pos s g k = None →
  Re.run (Re.Alt r1 r2) pos s g k = Re.run r2 pos s g k.
Proof. intros H. simpl. by rewrite H. Qed.

Lemma run_group {A : Type} (n : nat) (r : Re.regex) (pos : nat) (s : string)
    (g : Re.groups) (k : nat → string → Re.groups → option A) :
  Re.run (Re.Group n r) pos s g k
  = Re.run r pos s g
      (λ pos' s' g', k pos' s' ((n, take (pos' - pos) s) :: g')).
Proof. reflexivity. Qed.

Lemma take_length (x : string) : take (String.length x) x = x.
Proof. induction x as [|c x IH]; [done|]. cbn [String.length take]. by rewrite IH. Qed.

(** The rest of a line pattern: a colon, white space, and everything up to
    the end of a text that has no line feed and starts with a character
    that is not white space. *)
Lemma run_rest_of_line {A : Type} (pos : nat) (c : ascii) (rest : string)
    (g : Re.groups) (k : nat → string → Re.groups → option A) (a : A) :
  isspace c = false →
  all_chars (λ x, negb (ord x =? 10)%N) (String c rest) = true →
  k (pos + 2 + String.length (String c rest)) ""
    ((2, String c rest) :: g) = Some a →
  Re.run (Re.seqs [Re.lit_i ":"%char; Re.Star Re.space;
                   Re.Group 2 (Re.plus Re.dot); Re.Eol])
    pos (": " +:+ String c rest) g k = Some a.
Proof.
  intros Hc Hrest Hk. cbn [Re.seqs]. rewrite !append_cons, run_seq.
  unfold Re.lit_i. rewrite run_chr by reflexivity. cbv beta.
  rewrite run_seq. unfold Re.space.
  change (String " " ("" +:+ String c rest))
    with (String " " "" +:+ String c rest).
  apply run_star_greedy; [exact Hc | reflexivity |]. cbv beta.
  rewrite run_seq, run_group. unfold Re.plus, Re.dot. rewrite run_seq.
  cbn [all_chars] in Hrest. apply andb_true_iff in Hrest as [Hc10 Hrest].
  rewrite run_chr by exact Hc10. cbv beta.
  rewrite <- (append_nil_r rest) at 1.
  apply run_star_greedy; [done | exact Hrest |]. cbv beta.
  change (Re.run Re.Eol ?p "" ?g' ?k') with (k' p "" g').
  cbv beta. cbn [String.length] in Hk |- *.
  replace (S (S pos + 1) + String.length rest - (S pos + 1))
    with (String.length (String c rest)) by (cbn [String.length]; lia).
  rewrite take_length. rewrite <- Hk. f_equal. lia.
Qed.

Lemma field_list_rematch (d : string) (c : ascii) (rest : string) :
  d = "upstream" ∨ d = "downstream" →
  isspace c = false →
  all_chars (λ x, negb (ord x =? 10)%N) (String c rest) = true →
  Re.rematch FIELD_LIST_LINE
    (":openmetadata-" +:+ d +:+ ": " +:+ String c rest)
  = Some [(2, String c rest); (1, d)].
Proof.
  intros Hd Hc Hrest. unfold Re.rematch, Re.match_at.
  assert (Re.run FIELD_LIST_LINE 0
            (":openmetadata-" +:+ d +:+ ": " +:+ String c rest) []
            (λ pos' _ g, Some (g, pos' - 0))
          = Some ([(2, String c rest); (1, d)],
                  14 + String.length d + 2 + String.length (String c rest) - 0))
    as ->; [|done].
  unfold FIELD_LIST_LINE.
  change (Re.seqs (Re.Bol :: Re.word_i ":openmetadata-" :: ?g1 :: ?tl))
    with (Re.Seq Re.Bol (Re.Seq (Re.word_i ":openmetadata-")
                           (Re.Seq g1 (Re.seqs tl)))).
  rewrite run_seq.
  change (Re.run Re.Bol 0 ?s ?g ?k) with (k 0 s g). cbv beta.
  rewrite run_seq, run_word_i_self. cbv beta.
  rewrite run_seq, run_group.
  destruct Hd as [-> | ->].
  - apply run_alt_l. rewrite run_word_i_self. cbv beta.
    rewrite take_consumed.
    apply run_rest_of_line; [exact Hc | exact Hrest | reflexivity].
  - rewrite run_alt_r.
    + rewrite run_word_i_self. cbv beta. rewrite take_consumed.
      apply run_rest_of_line; [exact Hc | exact Hrest | reflexivity].
    + change (Re.word_i "upstream")
        with (Re.Seq (Re.lit_i "u") (Re.word_i "pstream")).
      change "downstream" with (String "d" "ownstream").
      rewrite append_cons, run_seq. by apply run_chr_false.
Qed.

Lemma tag_match_has_paren (pos : nat) (s : string) (m : Re.groups) (len : nat) :
  Re.match_at TAG_PATTERN pos s = Some (m, len) → is_Some (find "("%char s).
Proof.
  intros (pos' & s' & Hm)%match_at_matches.
  unfold TAG_PATTERN in Hm. cbn [Re.seqs] in Hm.
  apply matches_seq_inv in Hm as (p1 & s1 & g1 & Hw & Hm).
  apply matches_seq_inv in Hm as (p2 & s2 & g2 & Hg & Hm).
  apply matches_seq_inv in Hm as (p3 & s3 & g3 & Hp & _).
  apply matches_word in Hw as (-> & _ & _).
  apply matches_extent in Hg as (w & -> & _).
  apply matches_chr_inv in Hp as (c & -> & Hc & _ & _).
  apply bool_decide_eq_true in Hc as ->.
  apply find_append_Some, find_append_Some. cbn [find].
  destruct (ascii_dec "(" "("); [eauto | done].
Qed.

(** Without an opening parenthesis there is no inline tag. *)
Lemma finditer_no_paren (s : string) :
  find "("%char s = None →
  ∀ pos skip, Re.finditer_from TAG_PATTERN pos skip s = [].
Proof.
  induction s as [|c s IH]; intros Hs pos skip.
  - destruct skip; [|done]. cbn [Re.finditer_from].
    destruct (Re.match_at TAG_PATTERN pos "") as [[m len]|] eqn:Hat; [|done].
    apply tag_match_has_paren in Hat as [i Hi]. congruence.
  - assert (find "("%char s = None) as Hs'.
    { cbn [find] in Hs. destruct (ascii_dec c "("); [done|].
      by destruct (find "("%char s). }
    destruct skip as [|skip]; cbn [Re.finditer_from]; [|by apply IH].
    destruct (Re.match_at TAG_PATTERN pos (String c s)) as [[m len]|] eqn:Hat;
      [|by apply IH].
    apply tag_match_has_paren in Hat as [i Hi]. congruence.
Qed.

Lemma name_no (c : ascii) (x : string) :
  is_Some (find c ",:()") → all_chars name_char x = true → find c x = None.
Proof.
  intros Hc. apply all_chars_find_None. unfold name_char.
  destruct Hc as [i Hi]. rewrite (bool_decide_eq_false_2 (find c ",:()" = None));
    [apply andb_false_r | congruence].
Qed.

Lemma separator_facts (c : ascii) :
  is_Some (find c ",()") → is_Some (find c ",:()") ∧ c ≠ ":"%char.
Proof.
  destruct c as [[] [] [] [] [] [] [] []]; vm_compute; intros [i Hi];
    try discriminate; (split; [eauto | discriminate]).
Qed.

(** X14: a documentation string that is one field-list line, written with
    either direction, one blank and plain names, is read back as exactly
    the declaration that was written. *)
Theorem field_list_line_round_trip (d app fld : string) :
  d = "upstream" ∨ d = "downstream" →
  is_name app = true → is_name fld = true →
  parse_docstring_for_tags
    (Some (":openmetadata-" +:+ d +:+ ": " +:+ app +:+ ":" +:+ fld))
  = [mkMetadataRef d app fld].
Proof.
  intros Hd Happ Hfld.
  pose proof (split_app_field_names app fld Happ Hfld) as Hsplit.
  apply andb_true_iff in Happ as [Hane Happ].
  apply andb_true_iff in Hfld as [Hfne Hfld].
  set (rest := app +:+ ":" +:+ fld).
  set (line := ":openmetadata-" +:+ d +:+ ": " +:+ rest).
  assert (Hrest_no : ∀ c, is_Some (find c ",()") → find c rest = None).
  { intros c Hc. apply separator_facts in Hc as [Hc Hne]. unfold rest.
    apply find_append_None; [by apply name_no|].
    change (":" +:+ fld) with (String ":" fld). cbn [find].
    destruct (ascii_dec ":" c) as [<-|_]; [done|].
    by rewrite name_no. }
  assert (Hrest_plain : all_chars (λ c, negb (is_linebreak c)) rest = true
                        ∧ all_chars (λ x, negb (ord x =? 10)%N) rest = true).
  { unfold rest. change (":" +:+ fld) with (String ":" "" +:+ fld).
    rewrite !all_chars_append. split.
    - rewrite (all_chars_impl name_char _ app), (all_chars_impl name_char _ fld);
        try done; intros c Hc;
        by destruct (name_char_facts c Hc) as (_ & -> & _).
    - rewrite (all_chars_impl name_char _ app), (all_chars_impl name_char _ fld);
        try done; intros c Hc;
        by destruct (name_char_facts c Hc) as (_ & _ & -> & _). }
  destruct Hrest_plain as [Hlb Hnl].
  assert (Hhead : ∃ c r, rest = String c r ∧ isspace c = false) .
  { unfold rest. destruct app as [|c app]; [done|]. rewrite append_cons.
    exists c, (app +:+ ":" +:+ fld). split; [done|].
    cbn [all_chars] in Happ. apply andb_true_iff in Happ as [Hc _].
    by destruct (name_char_facts c Hc) as (-> & _). }
  destruct Hhead as (c & r & Hrest & Hc).
  assert (Hlines : splitlines line = [line]).
  { apply splitlines_single.
    - unfold line. by destruct Hd as [-> | ->].
    - unfold line. destruct Hd as [-> | ->];
        rewrite !all_chars_append, Hlb; reflexivity. }
  assert (Hstrip : strip line = line).
  { unfold strip.
    assert (lstrip line = line) as ->.
    { unfold line. by destruct Hd as [-> | ->]. }
    unfold line, rest. rewrite !append_assoc.
    by apply rstrip_append_plain; [|apply name_plain]. }
  unfold parse_docstring_for_tags.
  assert (truthy line = true) as ->.
  { unfold line. by destruct Hd as [-> | ->]. }
  cbn [negb].
  assert (section_refs line = []) as Hsec.
  { unfold section_refs, _extract_openmetadata_section_lines.
    rewrite Hlines. cbn [rest_section label_section].
    assert (is_label line = false) as ->; [|done].
    unfold is_label. rewrite Hstrip. unfold line.
    by destruct Hd as [-> | ->]. }
  assert (field_list_refs line = [mkMetadataRef d app fld]) as Hfl.
  { unfold field_list_refs. rewrite Hlines, bind_cons, Hstrip. simpl.
    rewrite app_nil_r. unfold refs_of_line, line. rewrite Hrest.
    rewrite (field_list_rematch d c r Hd Hc) by (by rewrite <- Hrest).
    cbn [Re.group Nat.eqb]. rewrite <- Hrest.
    assert (lower d = d) as -> by (by destruct Hd as [-> | ->]).
    unfold refs_of_rest.
    rewrite (split_no_sep _ rest) by (apply Hrest_no; by exists 0).
    rewrite bind_cons. unfold rest at 1. simpl.
    change (":" +:+ fld) with (String ":" fld). by rewrite Hsplit. }
  assert (inline_refs line = []) as Hin.
  { unfold inline_refs, Re.finditer. rewrite finditer_no_paren; [done|].
    unfold line. apply find_append_None; [done|].
    apply find_append_None; [by destruct Hd as [-> | ->]|].
    apply find_append_None; [done|]. apply Hrest_no. by exists 1. }
  unfold collect_refs. rewrite Hsec, Hfl, Hin. reflexivity.
Qed.

Lemma field_list_line_round_trip_witness :
  parse_docstring_for_tags
    (Some (":openmetadata-" +:+ "downstream" +:+ ": " +:+ "reporting"
           +:+ ":" +:+ "total"))
  = [mkMetadataRef "downstream" "reporting" "total"].
Proof.
  apply (field_list_line_round_trip "downstream" "reporting" "total");
    [right; reflexivity | reflexivity | reflexivity].
Defined.

(** ** Writing a section and reading it back *)

Lemma run_colon_rest {A : Type} (p : ascii → bool) (pos : nat) (c : ascii)
    (rest : string) (g : Re.groups) (k : nat → string → Re.groups → option A)
    (a : A) :
  p ":"%char = true → isspace c = false →
  all_chars (λ x, negb (ord x =? 10)%N) (String c rest) = true →
  k (pos + 2 + String.length (String c rest)) ""
    ((2, String c rest) :: g) = Some a →
  Re.run (Re.Seq (Re.Chr p)
            (Re.seqs [Re.Star Re.space; Re.Group 2 (Re.plus Re.dot); Re.Eol]))
    pos (": " +:+ String c rest) g k = Some a.
Proof.
  intros Hp Hc Hrest Hk. cbn [Re.seqs]. rewrite !append_cons, run_seq.
  rewrite run_chr by exact Hp. cbv beta.
  rewrite run_seq. unfold Re.space.
  change (String " " ("" +:+ String c rest))
    with (String " " "" +:+ String c rest).
  apply run_star_greedy; [exact Hc | reflexivity |]. cbv beta.
  rewrite run_seq, run_group. unfold Re.plus, Re.dot. rewrite run_seq.
  cbn [all_chars] in Hrest. apply andb_true_iff in Hrest as [Hc10 Hrest].
  rewrite run_chr by exact Hc10. cbv beta.
  rewrite <- (append_nil_r rest) at 1.
  apply run_star_greedy; [done | exact Hrest |]. cbv beta.
  change (Re.run Re.Eol ?p "" ?g' ?k') with (k' p "" g').
  cbv beta. cbn [String.length] in Hk |- *.
  replace (S (S pos + 1) + String.length rest - (S pos + 1))
    with (String.length (String c rest)) by (cbn [String.length]; lia).
  rewrite take_length. rewrite <- Hk. f_equal. lia.
Qed.

Lemma directive_rematch (d : string) (c : ascii) (rest : string) :
  d = "upstream" ∨ d = "downstream" →
  isspace c = false →
  all_chars (λ x, negb (ord x =? 10)%N) (String c rest) = true →
  Re.rematch DIRECTIVE_LINE (d +:+ ": " +:+ String c rest)
  = Some [(2, String c rest); (1, d)].
Proof.
  intros Hd Hc Hrest. unfold Re.rematch, Re.match_at.
  assert (Re.run DIRECTIVE_LINE 0 (d +:+ ": " +:+ String c rest) []
            (λ pos' _ g, Some (g, pos' - 0))
          = Some ([(2, String c rest); (1, d)],
                  0 + String.length d + 2 + String.length (String c rest) - 0))
    as ->; [|done].
  unfold DIRECTIVE_LINE.
  change (Re.seqs (Re.Bol :: ?o :: ?g1 :: ?sp :: Re.lit ":" :: ?tl))
    with (Re.Seq Re.Bol (Re.Seq o (Re.Seq g1 (Re.Seq sp
            (Re.Seq (Re.lit ":") (Re.seqs tl)))))).
  rewrite run_seq.
  change (Re.run Re.Bol 0 ?s ?g ?k) with (k 0 s g). cbv beta.
  rewrite run_seq. unfold Re.opt. rewrite run_alt_r; last first.
  { rewrite run_seq. destruct Hd as [-> | ->]; rewrite append_cons;
      by apply run_chr_false. }
  change (Re.run Re.Eps ?p ?s ?g ?k) with (k p s g). cbv beta.
  rewrite run_seq, run_group.
  assert (Hcolon : ∀ pos,
    Re.run (Re.Seq (Re.Star Re.space)
              (Re.Seq (Re.lit ":")
                 (Re.seqs [Re.Star Re.space; Re.Group 2 (Re.plus Re.dot);
                           Re.Eol])))
      pos (": " +:+ String c rest) [(1, d)]
      (λ pos' _ g, Some (g, pos' - 0))
    = Some ([(2, String c rest); (1, d)],
            pos + 2 + String.length (String c rest) - 0)).
  { intros pos. rewrite run_seq. unfold Re.space at 1.
    change (": " +:+ String c rest) with ("" +:+ (": " +:+ String c rest)).
    apply run_star_greedy; [reflexivity | reflexivity |]. cbv beta.
    apply run_colon_rest; [reflexivity | exact Hc | exact Hrest |].
    cbn [String.length]. f_equal. f_equal. lia. }
  destruct Hd as [-> | ->].
  - apply run_alt_l. rewrite run_word_i_self. cbv beta.
    rewrite take_consumed. apply Hcolon.
  - rewrite run_alt_r.
    + rewrite run_word_i_self. cbv beta. rewrite take_consumed. apply Hcolon.
    + change (Re.word_i "upstream")
        with (Re.Seq (Re.lit_i "u") (Re.word_i "pstream")).
      change "downstream" with (String "d" "ownstream").
      rewrite append_cons, run_seq. by apply run_chr_false.
Qed.

Lemma splitlines_from_line (a b cur : string) :
  all_chars (λ c, negb (is_linebreak c)) a = true →
  splitlines_from cur false (a +:+ nl +:+ b)
  = (String.rev cur +:+ a) :: splitlines b.
Proof.
  revert cur. induction a as [|c a IH]; intros cur Ha.
  - change ("" +:+ nl +:+ b) with (String "010" b).
    cbn [splitlines_from]. by rewrite append_nil_r.
  - cbn [all_chars] in Ha. apply andb_true_iff in Ha as [Hc Ha].
    apply negb_true_iff in Hc. rewrite append_cons.
    cbn [splitlines_from andb]. rewrite Hc, IH by done. f_equal.
    unfold String.rev. cbn [String.rev_app]. by rewrite !rev_app_append.
Qed.

(** A line without line break, a line feed, and what follows. *)
Lemma splitlines_line (a b : string) :
  all_chars (λ c, negb (is_linebreak c)) a = true →
  splitlines (a +:+ nl +:+ b) = a :: splitlines b.
Proof. intros Ha. unfold splitlines at 1. by rewrite splitlines_from_line. Qed.

Lemma field_list_needs_colon (c : ascii) (s : string) :
  c ≠ ":"%char → Re.rematch FIELD_LIST_LINE (String c s) = None.
Proof.
  intros Hc. unfold Re.rematch, Re.match_at, FIELD_LIST_LINE.
  change (Re.seqs (Re.Bol :: Re.word_i ":openmetadata-" :: ?tl))
    with (Re.Seq Re.Bol (Re.Seq (Re.Seq (Re.lit_i ":")
                                   (Re.word_i "openmetadata-"))
                           (Re.seqs tl))).
  rewrite run_seq.
  change (Re.run Re.Bol 0 ?s ?g ?k) with (k 0 s g). cbv beta.
  rewrite !run_seq. unfold Re.lit_i at 1. rewrite run_chr_false; [done|].
  apply bool_decide_eq_false. intros H. by apply lower_char_colon in H.
Qed.

Lemma mark_facts (c : ascii) :
  underline_mark c = true →
  c ≠ ":"%char ∧ c ≠ "("%char ∧ is_linebreak c = false ∧ isspace c = false.
Proof.
  destruct c as [[] [] [] [] [] [] [] []]; vm_compute; intros H;
    repeat split; congruence.
Qed.

Lemma strip_plain (x : string) :
  all_chars (λ c, negb (isspace c)) x = true → strip x = x.
Proof.
  intros Hx. unfold strip.
  assert (lstrip x = x) as ->; [|by apply rstrip_plain].
  destruct x as [|c x]; [done|]. cbn [all_chars] in Hx.
  apply andb_true_iff in Hx as [Hc _]. apply negb_true_iff in Hc.
  cbn [lstrip]. by rewrite Hc.
Qed.

(** X15: a documentation string made of the title "OpenMetadata", an
    underline of three or more marks, and one directive line written with
    either direction, one blank and plain names, is read back as exactly
    the declaration that was written. *)
Theorem section_round_trip (u d app fld : string) :
  3 ≤ String.length u → all_chars underline_mark u = true →
  d = "upstream" ∨ d = "downstream" →
  is_name app = true → is_name fld = true →
  parse_docstring_for_tags
    (Some ("OpenMetadata" +:+ nl +:+ u +:+ nl
           +:+ d +:+ ": " +:+ app +:+ ":" +:+ fld))
  = [mkMetadataRef d app fld].
Proof.
  intros Hlen Hu Hd Happ Hfld.
  pose proof (split_app_field_names app fld Happ Hfld) as Hsplit.
  apply andb_true_iff in Happ as [Hane Happ].
  apply andb_true_iff in Hfld as [Hfne Hfld].
  set (rest := app +:+ ":" +:+ fld).
  set (dline := d +:+ ": " +:+ rest).
  assert (Hrest_no : ∀ c, is_Some (find c ",()") → find c rest = None).
  { intros c Hc. apply separator_facts in Hc as [Hc Hne]. unfold rest.
    apply find_append_None; [by apply name_no|].
    change (":" +:+ fld) with (String ":" fld). cbn [find].
    destruct (ascii_dec ":" c) as [<-|_]; [done|].
    by rewrite name_no. }
  assert (Hrest_plain : all_chars (λ c, negb (is_linebreak c)) rest = true
                        ∧ all_chars (λ x, negb (ord x =? 10)%N) rest = true).
  { unfold rest. change (":" +:+ fld) with (String ":" "" +:+ fld).
    rewrite !all_chars_append. split.
    - rewrite (all_chars_impl name_char _ app), (all_chars_impl name_char _ fld);
        try done; intros c Hc;
        by destruct (name_char_facts c Hc) as (_ & -> & _).
    - rewrite (all_chars_impl name_char _ app), (all_chars_impl name_char _ fld);
        try done; intros c Hc;
        by destruct (name_char_facts c Hc) as (_ & _ & -> & _). }
  destruct Hrest_plain as [Hlb Hnl].
  assert (Hhead : ∃ c r, rest = String c r ∧ isspace c = false).
  { unfold rest. destruct app as [|c app]; [done|]. rewrite append_cons.
    exists c, (app +:+ ":" +:+ fld). split; [done|].
    cbn [all_chars] in Happ. apply andb_true_iff in Happ as [Hc _].
    by destruct (name_char_facts c Hc) as (-> & _). }
  destruct Hhead as (c & r & Hrest & Hc).
  assert (Hu_lb : all_chars (λ c, negb (is_linebreak c)) u = true).
  { revert Hu. apply all_chars_impl. intros x Hx.
    by destruct (mark_facts x Hx) as (_ & _ & -> & _). }
  assert (Hu_plain : all_chars (λ c, negb (isspace c)) u = true).
  { revert Hu. apply all_chars_impl. intros x Hx.
    by destruct (mark_facts x Hx) as (_ & _ & _ & ->). }
  assert (Hu_head : ∃ x u', u = String x u' ∧ x ≠ ":"%char).
  { destruct u as [|x u']; [cbn [String.length] in Hlen; lia|].
    exists x, u'. split; [done|]. cbn [all_chars] in Hu.
    apply andb_true_iff in Hu as [Hx _]. by destruct (mark_facts x Hx). }
  assert (Hu_paren : find "("%char u = None).
  { apply (all_chars_find_None underline_mark); [done | exact Hu]. }
  assert (Hdl_lines : splitlines dline = [dline]).
  { apply splitlines_single.
    - unfold dline. by destruct Hd as [-> | ->].
    - unfold dline. destruct Hd as [-> | ->];
        rewrite !all_chars_append, Hlb; reflexivity. }
  assert (Hlines : splitlines ("OpenMetadata" +:+ nl +:+ u +:+ nl +:+ dline)
                   = ["OpenMetadata"; u; dline]).
  { rewrite splitlines_line by reflexivity.
    rewrite splitlines_line by exact Hu_lb. by rewrite Hdl_lines. }
  assert (Hstrip : strip dline = dline).
  { unfold strip.
    assert (lstrip dline = dline) as ->.
    { unfold dline. by destruct Hd as [-> | ->]. }
    unfold dline, rest. rewrite !append_assoc.
    by apply rstrip_append_plain; [|apply name_plain]. }
  assert (Hund : is_underline u = true).
  { rewrite <- (append_nil_r u). by apply is_underline_complete. }
  unfold parse_docstring_for_tags. fold rest. fold dline.
  assert (truthy ("OpenMetadata" +:+ nl +:+ u +:+ nl +:+ dline) = true) as ->
    by reflexivity.
  cbn [negb].
  assert (Hdir : refs_of_line DIRECTIVE_LINE dline = [mkMetadataRef d app fld]).
  { unfold refs_of_line, dline. rewrite Hrest.
    rewrite (directive_rematch d c r Hd Hc) by (by rewrite <- Hrest).
    cbn [Re.group Nat.eqb]. rewrite <- Hrest.
    assert (lower d = d) as -> by (by destruct Hd as [-> | ->]).
    unfold refs_of_rest.
    rewrite (split_no_sep _ rest) by (apply Hrest_no; by exists 0).
    rewrite bind_cons. unfold rest at 1. simpl.
    change (":" +:+ fld) with (String ":" fld). by rewrite Hsplit. }
  assert (Hsec : section_refs ("OpenMetadata" +:+ nl +:+ u +:+ nl +:+ dline)
                 = [mkMetadataRef d app fld]).
  { unfold section_refs, _extract_openmetadata_section_lines.
    rewrite Hlines. cbn [rest_section].
    assert (is_title "OpenMetadata" = true) as -> by reflexivity.
    rewrite Hund. cbn [andb section_body]. rewrite bind_cons, Hstrip.
    assert (truthy dline = true) as ->.
    { unfold dline. by destruct Hd as [-> | ->]. }
    cbn [negb]. rewrite Hdir. reflexivity. }
  assert (Hfl : field_list_refs ("OpenMetadata" +:+ nl +:+ u +:+ nl +:+ dline)
                = []).
  { unfold field_list_refs. rewrite Hlines, !bind_cons.
    rewrite (strip_plain u Hu_plain), Hstrip.
    destruct Hu_head as (x & u' & -> & Hx).
    unfold refs_of_line at 2. rewrite (field_list_needs_colon x u' Hx).
    unfold refs_of_line at 2, dline.
    destruct Hd as [-> | ->]; rewrite append_cons;
      rewrite field_list_needs_colon by discriminate; reflexivity. }
  assert (Hin : inline_refs ("OpenMetadata" +:+ nl +:+ u +:+ nl +:+ dline) = []).
  { unfold inline_refs, Re.finditer. rewrite finditer_no_paren; [done|].
    apply find_append_None; [done|]. apply find_append_None; [done|].
    apply find_append_None; [exact Hu_paren|].
    apply find_append_None; [done|]. unfold dline.
    apply find_append_None; [by destruct Hd as [-> | ->]|].
    apply find_append_None; [done|]. apply Hrest_no. by exists 1. }
  unfold collect_refs. rewrite Hsec, Hfl, Hin. reflexivity.
Qed.

Lemma section_round_trip_witness :
  parse_docstring_for_tags
    (Some ("OpenMetadata" +:+ nl +:+ "=~=~" +:+ nl
           +:+ "upstream" +:+ ": " +:+ "billing" +:+ ":" +:+ "amount"))
  = [mkMetadataRef "upstream" "billing" "amount"].
Proof.
  apply (section_round_trip "=~=~" "upstream" "billing" "amount");
    [vm_compute; lia | reflexivity | left; reflexivity
    | reflexivity | reflexivity].
Defined.

(** ** Writing an inline tag and reading it back *)

Lemma finditer_skip_all (s : string) (pos : nat) :
  Re.finditer_from TAG_PATTERN pos (String.length s) s = [].
Proof.
  revert pos. induction s as [|c s IH]; intros pos; [reflexivity|].
  cbn [String.length Re.finditer_from]. apply IH.
Qed.

(** A run of name characters closed by [stop] is taken whole by a class
    that excludes [stop] and accepts the name characters. *)
Lemma run_plus_name {A : Type} (p : ascii → bool) (stop : ascii) (n : nat)
    (x rest : string) (pos : nat) (g : Re.groups)
    (k : nat → string → Re.groups → option A) (a : A) :
  (∀ c, name_char c = true → p c = true) → p stop = false →
  is_name x = true →
  k (pos + String.length x) (String stop rest) ((n, x) :: g) = Some a →
  Re.run (Re.Group n (Re.plus (Re.Chr p))) pos (x +:+ String stop rest) g k
  = Some a.
Proof.
  intros Hp Hstop [Hne Hx]%andb_true_iff Hk.
  destruct x as [|c x]; [done|]. cbn [all_chars] in Hx.
  apply andb_true_iff in Hx as [Hc Hx].
  rewrite run_group. unfold Re.plus. rewrite run_seq, append_cons.
  rewrite run_chr by (by apply Hp). cbv beta.
  apply run_star_greedy; [exact Hstop | by apply (all_chars_impl name_char) |].
  replace (S pos + String.length x - pos) with (String.length (String c x))
    by (cbn [String.length]; lia).
  rewrite <- append_cons, take_append_length.
  replace (S pos + String.length x) with (pos + String.length (String c x))
    by (cbn [String.length]; lia).
  exact Hk.
Qed.

Lemma run_word_self {A : Type} (w : string) (pos : nat) (s : string)
    (g : Re.groups) (k : nat → string → Re.groups → option A) :
  Re.run (Re.word w) pos (w +:+ s) g k = k (pos + String.length w) s g.
Proof.
  revert pos. induction w as [|c w IH]; intros pos.
  - simpl. by rewrite Nat.add_0_r.
  - destruct w as [|c' w].
    + rewrite append_cons. change (Re.word (String c "")) with (Re.lit c).
      unfold Re.lit. rewrite run_chr by (by apply bool_decide_eq_true).
      change ("" +:+ s) with s. cbn [String.length]. f_equal. lia.
    + change (Re.word (String c (String c' w)))
        with (Re.Seq (Re.lit c) (Re.word (String c' w))).
      rewrite append_cons, run_seq. unfold Re.lit at 1.
      rewrite run_chr by (by apply bool_decide_eq_true).
      rewrite IH. cbn [String.length]. f_equal. lia.
Qed.

Lemma tag_pattern_match (d app fld : string) :
  d = "upstream" ∨ d = "downstream" →
  is_name app = true → is_name fld = true →
  Re.match_at TAG_PATTERN 0
    ("openmetadata:" +:+ d +:+ "(" +:+ app +:+ ":" +:+ fld +:+ ")")
  = Some ([(3, fld); (2, app); (1, d)],
          String.length
            ("openmetadata:" +:+ d +:+ "(" +:+ app +:+ ":" +:+ fld +:+ ")")).
Proof.
  intros Hd Happ Hfld. unfold Re.match_at.
  assert (Hrest : ∀ pos,
    Re.run (Re.seqs [Re.Group 2 (Re.plus (Re.none_of ":()")); Re.lit ":"%char;
                     Re.Group 3 (Re.plus (Re.none_of ")")); Re.lit ")"%char])
      pos (app +:+ ":" +:+ fld +:+ ")") [(1, d)]
      (λ pos' _ g, Some (g, pos' - 0))
    = Some ([(3, fld); (2, app); (1, d)],
            pos + String.length app + 1 + String.length fld + 1 - 0)).
  { intros pos. cbn [Re.seqs]. rewrite run_seq.
    change (":" +:+ fld +:+ ")") with (String ":" (fld +:+ ")")).
    apply (run_plus_name _ ":"%char 2); [| reflexivity | exact Happ |].
    { intros c Hc. apply bool_decide_eq_true.
      destruct (name_char_facts c Hc) as (_ & _ & _ & _ & H1 & H2 & H3).
      cbn [find]. repeat (destruct (ascii_dec _ _) as [E|_]; [congruence|]). done. }
    rewrite run_seq. unfold Re.lit at 1. rewrite run_chr by reflexivity.
    cbv beta. rewrite run_seq.
    change (fld +:+ ")") with (fld +:+ String ")" "").
    apply (run_plus_name _ ")"%char 3); [| reflexivity | exact Hfld |].
    { intros c Hc. apply bool_decide_eq_true.
      destruct (name_char_facts c Hc) as (_ & _ & _ & _ & H1 & H2 & H3).
      cbn [find]. destruct (ascii_dec _ _) as [E|_]; [congruence|]. done. }
    unfold Re.lit. rewrite run_chr by reflexivity. f_equal. f_equal. lia. }
  assert (Hparen : ∀ pos,
    Re.run (Re.seqs [Re.lit "("%char;
                     Re.Group 2 (Re.plus (Re.none_of ":()")); Re.lit ":"%char;
                     Re.Group 3 (Re.plus (Re.none_of ")")); Re.lit ")"%char])
      pos ("(" +:+ app +:+ ":" +:+ fld +:+ ")") [(1, d)]
      (λ pos' _ g, Some (g, pos' - 0))
    = Some ([(3, fld); (2, app); (1, d)],
            S pos + String.length app + 1 + String.length fld + 1 - 0)).
  { intros pos. rewrite <- (Hrest (S pos)). reflexivity. }
  clear Hrest. unfold TAG_PATTERN.
  change (Re.seqs (?w :: ?g1 :: ?tl))
    with (Re.Seq w (Re.Seq g1 (Re.seqs tl))).
  rewrite run_seq, run_word_self. cbv beta. rewrite run_seq, run_group.
  assert (Hlen : 0 + String.length "openmetadata:" + String.length d
                 - (0 + String.length "openmetadata:") = String.length d)
    by lia.
  destruct Hd as [-> | ->].
  - apply run_alt_l. rewrite run_word_self. cbv beta.
    rewrite Hlen, take_append_length, Hparen. f_equal. f_equal.
    rewrite !length_append. cbn [String.length]. lia.
  - rewrite run_alt_r by reflexivity. rewrite run_word_self. cbv beta.
    rewrite Hlen, take_append_length, Hparen. f_equal. f_equal.
    rewrite !length_append. cbn [String.length]. lia.
Qed.

Lemma finditer_whole (c : ascii) (s : string) (g : Re.groups) :
  Re.match_at TAG_PATTERN 0 (String c s)
  = Some (g, String.length (String c s)) →
  Re.finditer TAG_PATTERN (String c s) = [g].
Proof.
  intros H. unfold Re.finditer. cbn [Re.finditer_from]. rewrite H.
  cbn [String.length].
  replace (S (String.length s) - 1) with (String.length s) by lia.
  by rewrite finditer_skip_all.
Qed.

(** A directive needs its colon: a direction followed by a parenthesis is
    no directive line. *)
Lemma directive_needs_colon (d x : string) :
  d = "upstream" ∨ d = "downstream" →
  Re.rematch DIRECTIVE_LINE (d +:+ "(" +:+ x) = None.
Proof. intros [-> | ->]; reflexivity. Qed.

(** X16: a documentation string that is one inline tag, written with
    either direction and plain names, is read back as exactly the
    declaration that was written.  The tag line also opens a label block,
    since it starts with "openmetadata:", but the text after that colon is
    no directive and adds nothing. *)
Theorem inline_tag_round_trip (d app fld : string) :
  d = "upstream" ∨ d = "downstream" →
  is_name app = true → is_name fld = true →
  parse_docstring_for_tags
    (Some ("openmetadata:" +:+ d +:+ "(" +:+ app +:+ ":" +:+ fld +:+ ")"))
  = [mkMetadataRef d app fld]
  ∧ _extract_openmetadata_section_lines
      ("openmetadata:" +:+ d +:+ "(" +:+ app +:+ ":" +:+ fld +:+ ")")
    = [d +:+ "(" +:+ app +:+ ":" +:+ fld +:+ ")"].
Proof.
  intros Hd Happ Hfld.
  pose proof (tag_pattern_match d app fld Hd Happ Hfld) as Hm.
  pose proof (strip_name app Happ) as Hsa.
  pose proof (strip_name fld Hfld) as Hsf.
  apply andb_true_iff in Happ as [Hane Happ].
  apply andb_true_iff in Hfld as [Hfne Hfld].
  set (after := d +:+ "(" +:+ app +:+ ":" +:+ fld +:+ ")") in *.
  assert (Hafter : ∀ p : ascii → bool,
            (∀ c, name_char c = true → p c = true) →
            all_chars p "openmetadata:upstream()" = true →
            all_chars p "downstream" = true →
            all_chars p ("openmetadata:" +:+ after) = true).
  { intros p Hp Hc1 Hc2. unfold after.
    rewrite !all_chars_append.
    rewrite (all_chars_impl name_char p app Hp Happ).
    rewrite (all_chars_impl name_char p fld Hp Hfld).
    destruct Hd as [-> | ->].
    - vm_compute in Hc1. repeat (apply andb_true_iff in Hc1 as [? Hc1]).
      cbn [all_chars]. repeat (apply andb_true_iff; split); done.
    - vm_compute in Hc1. vm_compute in Hc2.
      repeat (apply andb_true_iff in Hc1 as [? Hc1]).
      repeat (apply andb_true_iff in Hc2 as [? Hc2]).
      cbn [all_chars]. repeat (apply andb_true_iff; split); done. }
  assert (Hplain : all_chars (λ c, negb (isspace c)) ("openmetadata:" +:+ after)
                   = true).
  { apply Hafter; [|reflexivity..]. intros c Hc.
    by destruct (name_char_facts c Hc) as (-> & _). }
  assert (Hlb : all_chars (λ c, negb (is_linebreak c)) ("openmetadata:" +:+ after)
                = true).
  { apply Hafter; [|reflexivity..]. intros c Hc.
    by destruct (name_char_facts c Hc) as (_ & -> & _). }
  assert (Hplain' : all_chars (λ c, negb (isspace c)) after = true).
  { rewrite all_chars_append in Hplain. by apply andb_true_iff in Hplain as [_ ?]. }
  assert (Hlines : splitlines ("openmetadata:" +:+ after)
                   = ["openmetadata:" +:+ after])
    by (by apply splitlines_single).
  assert (Hsec : _extract_openmetadata_section_lines ("openmetadata:" +:+ after)
                 = [after]).
  { unfold _extract_openmetadata_section_lines. rewrite Hlines.
    cbn [rest_section].
    assert (Hl : is_label ("openmetadata:" +:+ after) = true).
    { unfold is_label. by rewrite (strip_plain _ Hplain). }
    pose proof (label_section_first [] ("openmetadata:" +:+ after) [] after
                  eq_refl Hl eq_refl) as Hls.
    change ([] ++ ?x) with x in Hls. rewrite Hls, (strip_plain after Hplain').
    assert (truthy after = true) as ->
      by (unfold after; by destruct Hd as [-> | ->]).
    reflexivity. }
  split; [|exact Hsec].
  unfold parse_docstring_for_tags.
  assert (truthy ("openmetadata:" +:+ after) = true) as -> by reflexivity.
  cbn [negb]. unfold collect_refs, section_refs, field_list_refs, inline_refs.
  rewrite Hsec, Hlines, !bind_cons, (strip_plain after Hplain'),
    (strip_plain _ Hplain).
  assert (truthy after = true) as ->
    by (unfold after; by destruct Hd as [-> | ->]).
  cbn [negb]. unfold refs_of_line at 1. unfold after at 1.
  rewrite (directive_needs_colon d _ Hd).
  unfold refs_of_line.
  change ("openmetadata:" +:+ after) with (String "o" ("penmetadata:" +:+ after)).
  rewrite (field_list_needs_colon "o" _) by discriminate.
  rewrite (finditer_whole "o" ("penmetadata:" +:+ after) _ Hm).
  rewrite bind_cons. cbn [Re.group Nat.eqb]. rewrite Hsa, Hsf. reflexivity.
Qed.

Lemma inline_tag_round_trip_witness :
  parse_docstring_for_tags (Some "openmetadata:downstream(ledger:total)")
  = [mkMetadataRef "downstream" "ledger" "total"]
  ∧ _extract_openmetadata_section_lines "openmetadata:downstream(ledger:total)"
    = ["downstream(ledger:total)"].
Proof.
  apply (inline_tag_round_trip "downstream" "ledger" "total");
    [right; reflexivity | reflexivity | reflexivity].
Defined.

(** ** Pipeline names *)

Lemma relative_to_app (base rel : Path) : relative_to (base ++ rel) base = Some rel.
Proof.
  induction base as [|b base IH]; [by destruct rel|].
  cbn [relative_to List.app]. by rewrite bool_decide_eq_true_2.
Qed.

Lemma replace_absent (a b : ascii) (s : string) :
  find a s = None → replace a b s = s.
Proof.
  induction s as [|c s IH]; [done|]. cbn [find replace].
  destruct (ascii_dec c a); [done|].
  destruct (find a s); [done|]. intros _. by rewrite IH.
Qed.

(** X18: the pipeline name does not tell files apart.  A file anywhere
    under the working directory and the file placed directly in the working
    directory under the name derived from the first one get the same
    pipeline name, though they differ as soon as the first lies in a
    subdirectory. *)
Theorem pipeline_name_shared (cwd' rel : Path) :
  _pipeline_name_for_file cwd' (cwd' ++ rel) = Ok (derived_name rel)
  ∧ _pipeline_name_for_file cwd' (cwd' ++ [derived_name rel])
    = Ok (derived_name rel)
  ∧ (2 ≤ length rel → cwd' ++ [derived_name rel] ≠ cwd' ++ rel).
Proof.
  assert (Hslash : find "/"%char (derived_name rel) = None)
    by (by apply find_replace_None).
  assert (Hback : find "\"%char (derived_name rel) = None).
  { apply find_replace_other; [done|]. by apply find_replace_None. }
  split_and!.
  - unfold _pipeline_name_for_file. by rewrite relative_to_app.
  - unfold _pipeline_name_for_file. rewrite relative_to_app.
    f_equal. cbn [path_str join].
    destruct (bool_decide (derived_name rel = "/")) eqn:Hroot.
    + apply bool_decide_eq_true in Hroot. by rewrite Hroot in Hslash.
    + by rewrite (replace_absent "\"), (replace_absent "/").
  - intros Hlen Heq. apply app_inv_head in Heq. rewrite <- Heq in Hlen.
    cbn [length] in Hlen. lia.
Qed.

Lemma pipeline_name_shared_witness :
  _pipeline_name_for_file ["/"; "repo"] (["/"; "repo"] ++ ["jobs"; "etl.py"])
  = Ok "jobs_etl.py"
  ∧ _pipeline_name_for_file ["/"; "repo"] (["/"; "repo"] ++ ["jobs_etl.py"])
    = Ok "jobs_etl.py"
  ∧ ["/"; "repo"] ++ ["jobs_etl.py"] ≠ ["/"; "repo"] ++ ["jobs"; "etl.py"].
Proof.
  destruct (pipeline_name_shared ["/"; "repo"] ["jobs"; "etl.py"])
    as (H1 & H2 & H3).
  split_and!; [exact H1 | exact H2 | apply H3; simpl; lia].
Defined.
